(** * ScrapeX: the Twitter collection pipeline and its analytics

    A shallow embedding of [src/twitter/DataOrganizer.js] (the classes
    [DataOrganizer] and [TwitterPipeline]) and the properties of it that the
    specification states.

    Conventions of the embedding.
    - A JavaScript object is a record; a property that may be absent is an
      [option] field ([None] is [undefined] or [null], which the source does
      not tell apart).  The timestamp of a post is the exception: the source
      tests it against [null] alone, so it has a type of its own, with [null]
      and [undefined] apart.
    - The count of one post (its likes, retweets, replies) is an integer, [Z],
      of the safe range (below 2^53 in absolute value), where the binary64
      numbers of the language are the integers.  What the source computes
      from several counts, the totals and the mean behind [averageLikes], is
      computed on binary64, with Rocq's primitive floats.
    - The text of a post is a string of the language: a sequence of UTF-16
      code units.  Identifiers, names, cookie fields, file names and log
      lines are only compared, joined and cut at ASCII characters, and are
      Rocq strings.
    - An exception is a result: a method that may throw returns the message
      of the error ([inl]) or its value ([inr]).
    - [async] methods run one after the other (there is one logical flow), so
      an [await] is sequencing.  What a method does to the outside world is
      recorded as a list of events, in the order of the calls.
    - The collaborators (scraper, file system, clock) are inputs: an
      environment says what each call answers. *)

From Stdlib Require Import ZArith List String Ascii Bool Lia Permutation Sorted.
From Stdlib Require Import DecimalString DecimalPos.
From Stdlib Require Import PrimFloat FloatOps SpecFloat.
Import ListNotations.

Local Open Scope string_scope.
Local Open Scope Z_scope.

(** ** JavaScript built-ins used by the source *)

Module JS.

(** [x || 0] on an optional count: [undefined], [null] and [0] give [0]. *)
Definition or_zero (n : option Z) : Z :=
  match n with
  | Some z => z
  | None => 0
  end.

(** Truthiness of an optional string: [undefined] and [""] are falsy. *)
Definition truthy (s : option string) : bool :=
  match s with
  | Some (String _ _) => true
  | _ => false
  end.

(** [s || d] on an optional string. *)
Definition or_default (s : option string) (d : string) : string :=
  match s with
  | Some (String c r) => String c r
  | _ => d
  end.

(** [b ?? d] on an optional boolean. *)
Definition nullish (b : option bool) (d : bool) : bool :=
  match b with
  | Some v => v
  | None => d
  end.

(** [a?.length > 0] and [!a?.length] on an optional array. *)
Definition nonempty {A : Type} (a : option (list A)) : bool :=
  match a with
  | Some (_ :: _) => true
  | _ => false
  end.

(** A string of the language: its UTF-16 code units, each a number below
    2^16.  A character outside the basic plane takes two of them. *)
Definition ustring : Type := list N.

(** The string of an ASCII literal. *)
Definition ustr (s : string) : ustring := map N_of_ascii (list_ascii_of_string s).

(** Truthiness of an optional string of code units, and [s || ""]. *)
Definition text_truthy (s : option ustring) : bool :=
  match s with
  | Some (_ :: _) => true
  | _ => false
  end.

Definition text_or_empty (s : option ustring) : ustring :=
  match s with
  | Some (c :: r) => c :: r
  | _ => []
  end.

(** [s.slice(0, n)]: the first [n] code units of [s] (all of it when it is
    shorter). *)
Definition slice0 (n : nat) (s : ustring) : ustring := firstn n s.

(** [s.startsWith('"')] and [s.endsWith('"')]. *)
Definition dquote : ascii := Ascii.ascii_of_nat 34.

Definition startsWith_dquote (s : string) : bool :=
  match s with
  | String c _ => Ascii.eqb c dquote
  | EmptyString => false
  end.

Fixpoint endsWith_dquote (s : string) : bool :=
  match s with
  | EmptyString => false
  | String c EmptyString => Ascii.eqb c dquote
  | String _ r => endsWith_dquote r
  end.

(** [s.slice(1, -1)]: [s] without its first and its last code unit. *)
Definition slice_1_m1 (s : string) : string :=
  substring 1 (String.length s - 2) s.

(** [parts.join(sep)]. *)
Fixpoint join (sep : string) (parts : list string) : string :=
  match parts with
  | [] => ""
  | [p] => p
  | p :: rest => p ++ sep ++ join sep rest
  end.

(** Decimal text of a number inside a template literal. *)
Definition show_nat (n : nat) : string := NilEmpty.string_of_uint (Nat.to_uint n).
Definition show_Z (z : Z) : string := NilZero.string_of_int (Z.to_int z).

(** [Array.prototype.sort(cmp)].  The language requires the sort to be
    stable, and for a comparator that is a total preorder the stable sorted
    arrangement is unique; insertion from the right computes it.  [cmp x y <= 0]
    keeps [x], which came first, in front of [y]. *)
Fixpoint sort_insert {A : Type} (cmp : A -> A -> Z) (x : A) (l : list A) : list A :=
  match l with
  | [] => [x]
  | y :: l' => if cmp x y <=? 0 then x :: l else y :: sort_insert cmp x l'
  end.

Definition Array_sort {A : Type} (cmp : A -> A -> Z) (l : list A) : list A :=
  fold_right (sort_insert cmp) [] l.

(** [Array.prototype.sort(cmp)] on an array that holds [undefined]: the
    language moves every [undefined] to the end without asking [cmp], and
    sorts the other elements. *)
Fixpoint defined {A : Type} (l : list (option A)) : list A :=
  match l with
  | [] => []
  | Some a :: l' => a :: defined l'
  | None :: l' => defined l'
  end.

Definition undefineds {A : Type} (l : list (option A)) : list (option A) :=
  filter (fun x => match x with
                   | None => true
                   | Some _ => false
                   end) l.

Definition Array_sort_undefined_last {A : Type} (cmp : A -> A -> Z)
           (l : list (option A)) : list (option A) :=
  (map Some (Array_sort cmp (defined l)) ++ undefineds l)%list.

(** [Array.prototype.slice(0, n)]. *)
Definition Array_slice0 {A : Type} (n : nat) (l : list A) : list A := firstn n l.

(** [Array.prototype.map(f)] with a callback that may throw: the first
    exception ends the call. *)
Fixpoint Array_map_throwing {A B : Type} (f : A -> string + B) (l : list A)
  : string + list B :=
  match l with
  | [] => inr []
  | a :: l' =>
      match f a with
      | inl e => inl e
      | inr b =>
          match Array_map_throwing f l' with
          | inl e => inl e
          | inr bs => inr (b :: bs)
          end
      end
  end.

(** The binary64 value of an integer (round to nearest, ties to even; exact
    up to 2^53 in absolute value). *)
Definition Number_of_Z (z : Z) : float :=
  SF2Prim (binary_normalize prec emax z 0 false).

(** [a + b] and [a / b] on numbers. *)
Definition Number_add (a b : float) : float := PrimFloat.add a b.
Definition Number_div (a b : float) : float := PrimFloat.div a b.

(** The integer that a number is, when it is finite and has no fraction. *)
Definition Number_to_Z (x : float) : option Z :=
  match Prim2SF x with
  | S754_zero _ => Some 0
  | S754_finite neg m e =>
      let v := if 0 <=? e then Z.pos m * 2 ^ e else Z.pos m / 2 ^ (- e) in
      if (0 <=? e) || (Z.pos m mod 2 ^ (- e) =? 0)
      then Some (if neg then - v else v)
      else None
  | _ => None
  end.

(** The integer [n] for which [n / 100 - m * 2^e] is closest to zero, the
    larger one of two: [floor (m * 2^e * 100 + 1/2)]. *)
Definition scaled_round (m : positive) (e : Z) : Z :=
  if 0 <=? e then Z.pos m * 2 ^ e * 100
  else (2 * (Z.pos m * 100) + 2 ^ (- e)) / 2 ^ (- e + 1).

Definition two_digits (r : Z) : string :=
  if r <? 10 then "0" ++ show_Z r else show_Z r.

(** Number of decimal digits of a positive integer. *)
Definition digits_of (v : Z) : Z := Z.of_nat (String.length (show_Z v)).

(** [Number::toString] on a finite value of at least 10^21, which is an
    integer [v]: the shortest digit string [s] (of [k] digits) and exponent
    [n] with [s * 10^(n-k)] reading back as the same number; among several
    the nearest to [v], an even one on a tie. *)
Definition reads_back (x : float) (s p : Z) : bool :=
  match PrimFloat.compare (Number_of_Z (s * p)) x with
  | FEq => true
  | _ => false
  end.

Definition candidates (x : float) (v n k : Z) : list (Z * Z) :=
  let p := 10 ^ (n - k) in
  let s0 := v / p in
  filter
    (fun sn => let s := fst sn in
               (10 ^ (k - 1) <=? s) && (s <? 10 ^ k) && reads_back x s p)
    [(s0, n); (s0 + 1, n)].

Definition better (v k : Z) (a b : Z * Z) : Z * Z :=
  let da := Z.abs (fst a * 10 ^ (snd a - k) - v) in
  let db := Z.abs (fst b * 10 ^ (snd b - k) - v) in
  if da <? db then a
  else if db <? da then b
  else if Z.even (fst a) then a else b.

Fixpoint shortest (x : float) (v d : Z) (fuel : nat) (k : Z) : option (Z * Z * Z) :=
  match fuel with
  | O => None
  | S fuel' =>
      match (candidates x v d k ++ candidates x v (d + 1) k)%list with
      | [] => shortest x v d fuel' (k + 1)
      | c :: cs => let b := fold_left (better v k) cs c in Some (fst b, snd b, k)
      end
  end.

Definition drop_first (s : string) : string :=
  match s with
  | String _ r => r
  | EmptyString => EmptyString
  end.

Definition first_char (s : string) : string :=
  match s with
  | String c _ => String c EmptyString
  | EmptyString => EmptyString
  end.

Definition toString_large (x : float) (v : Z) : string :=
  match shortest x v (digits_of v) 17 1 with
  | Some (s, n, k) =>
      let ds := show_Z s in
      (if k =? 1 then ds else first_char ds ++ "." ++ drop_first ds)
      ++ "e+" ++ show_Z (n - 1)
  | None => show_Z v
  end.

(** [x.toFixed(2)]. *)
Definition toFixed2 (x : float) : string :=
  match Prim2SF x with
  | S754_nan => "NaN"
  | S754_infinity neg => if neg then "-Infinity" else "Infinity"
  | S754_zero _ => "0.00"
  | S754_finite neg m e =>
      let sign := if neg then "-" else "" in
      if (0 <=? e) && (10 ^ 21 <=? Z.pos m * 2 ^ e)
      then sign ++ toString_large (PrimFloat.abs x) (Z.pos m * 2 ^ e)
      else let n := scaled_round m e in
           sign ++ show_Z (n / 100) ++ "." ++ two_digits (n mod 100)
  end.

End JS.

(** ** The post *)

(** The [timestamp] of a post: [null], no property at all ([undefined]), or a
    number. *)
Inductive Timestamp : Type :=
| Null
| Absent
| At (ms : Z).

Record Tweet : Type := mkTweet {
  id : option string;
  username : option string;
  text : option JS.ustring;
  timestamp : Timestamp;
  isReply : bool;
  isRetweet : bool;
  likes : option Z;
  retweetCount : option Z;
  replies : option Z;
  photos : option (list string);
  videos : option (list string);
  urls : option (list string);
  permanentUrl : option string;
  inReplyToStatusId : option string;
  inReplyToText : option JS.ustring
}.

(** ** Events

    What the pipeline does to its collaborators, in call order.  Of the
    logger, the warnings and errors are recorded; informational lines,
    success lines and the spinner are presentation and are left out. *)

Inductive Event : Type :=
| LogWarn (msg : string)
| LogError (msg : string)
| Timeout (ms : Z)                 (* [setTimeout(r, ms)], awaited *)
| RandomDelay                      (* [this.randomDelay()], awaited *)
| SetCookies (wire : list string)  (* [scraper.setCookies] *)
| IsLoggedIn                       (* [scraper.isLoggedIn] *)
| Login (attempt : Z)              (* [scraper.login], in attempt number [attempt] *)
| GetCookies                       (* [scraper.getCookies] *)
| GetProfile                       (* [scraper.getProfile] *)
| Pull                             (* one item taken from the search iterator *)
| GetTweet (id : string)           (* [scraper.getTweet] *)
| WriteFile (file : string)        (* [fs.writeFile] *)
| Aggregate (posts : list Tweet)   (* [generateAnalytics] called on [posts] *)
| Prompt                           (* [inquirer.prompt] *)
| Logout.                          (* [scraper.logout] *)

(** ** [DataOrganizer] *)

Module DataOrganizer.

Record TopTweet : Type := mkTopTweet {
  top_id : option string;
  top_text : JS.ustring;
  top_likes : option Z;
  top_retweetCount : option Z;
  top_url : option string
}.

Record Engagement : Type := mkEngagement {
  totalLikes : float;
  totalRetweetCount : float;
  totalReplies : float;
  averageLikes : string;
  topTweets : list TopTweet
}.

Record TimeRange : Type := mkTimeRange {
  range_start : string;
  range_end : string
}.

Record ContentTypes : Type := mkContentTypes {
  withImages : nat;
  withVideos : nat;
  withLinks : nat;
  textOnly : nat
}.

Record Analytics : Type := mkAnalytics {
  totalTweets : nat;
  directTweets : nat;
  replyCount : nat;                (* the property [replies] of the report *)
  retweets : nat;
  engagement : Engagement;
  timeRange : TimeRange;
  contentTypes : ContentTypes
}.

Section WithFormat.

(** [format(d, 'yyyy-MM-dd')] of date-fns on the date of a time value, in the
    local time zone. *)
Variable format_date : Z -> string.

(** [t.timestamp !== null]. *)
Definition has_timestamp (t : Tweet) : bool :=
  match timestamp t with
  | Null => false
  | Absent => true
  | At _ => true
  end.

(** [t.timestamp] of a post of [validTweets]: a number, or [undefined]. *)
Definition timestamp_value (t : Tweet) : option Z :=
  match timestamp t with
  | At ms => Some ms
  | Absent => None
  | Null => None
  end.

(** The reduction [(sum, t) => sum + (t.field || 0)] from [0]. *)
Definition engagement_sum (field : Tweet -> option Z) (l : list Tweet) : float :=
  fold_left (fun sum t => JS.Number_add sum (JS.Number_of_Z (JS.or_zero (field t))))
            l 0%float.

(** The comparators [(a, b) => a - b] and
    [(a, b) => (b.likes || 0) - (a.likes || 0)]. *)
Definition ascending (a b : Z) : Z := a - b.

Definition by_likes_desc (a b : Tweet) : Z :=
  JS.or_zero (likes b) - JS.or_zero (likes a).

(** What [t.text.slice] throws on a post without text (the wording is the
    engine's). *)
Definition no_text_error : string :=
  "Cannot read properties of undefined (reading 'slice')".

(** The callback of the [map] behind [topTweets]. *)
Definition top_entry (t : Tweet) : string + TopTweet :=
  match text t with
  | Some s =>
      inr {| top_id := id t;
             top_text := JS.slice0 100 s;
             top_likes := likes t;
             top_retweetCount := retweetCount t;
             top_url := permanentUrl t |}
  | None => inl no_text_error
  end.

Definition count {A : Type} (p : A -> bool) (l : list A) : nat :=
  List.length (filter p l).

(** [format(new Date(d), 'yyyy-MM-dd')]: a date is valid up to 8.64e15
    milliseconds either side of the epoch, [new Date(undefined)] is not a
    valid date, and [format] throws a [RangeError] on a date that is not
    valid. *)
Definition max_time : Z := 8640000000000000.

Definition invalid_time_error : string := "Invalid time value".

Definition format (d : option Z) : string + string :=
  match d with
  | Some ms => if Z.abs ms <=? max_time then inr (format_date ms) else inl invalid_time_error
  | None => inl invalid_time_error
  end.

(** [validDates.length ? format(new Date(d), 'yyyy-MM-dd') : 'N/A']. *)
Definition date_or_NA (validDates : list (option Z)) (d : option Z) : string + string :=
  match validDates with
  | [] => inr "N/A"
  | _ :: _ => format d
  end.

Definition invalid_dates_warning (n : nat) : string :=
  "⚠️  Found " ++ JS.show_nat n
  ++ " tweets with invalid or missing dates. They will be excluded from analytics.".

Definition zero_report : Analytics :=
  {| totalTweets := 0;
     directTweets := 0;
     replyCount := 0;
     retweets := 0;
     engagement :=
       {| totalLikes := 0%float;
          totalRetweetCount := 0%float;
          totalReplies := 0%float;
          averageLikes := "0.00";
          topTweets := [] |};
     timeRange := {| range_start := "N/A"; range_end := "N/A" |};
     contentTypes :=
       {| withImages := 0; withVideos := 0; withLinks := 0; textOnly := 0 |} |}.

(** [generateAnalytics(tweets)]: the lines it logs, and the report or the
    message of the error it throws.  The properties of the report are
    evaluated in the order of the source, so the first of them that throws
    decides the error: a post without text among the top posts, then the
    start of the time range, then its end. *)
Definition generateAnalytics (tweets : list Tweet) : list Event * (string + Analytics) :=
  match tweets with
  | [] => ([LogWarn "⚠️  No tweets to analyze."], inr zero_report)
  | _ :: _ =>
      let validTweets := filter has_timestamp tweets in
      let invalidTweets := filter (fun t => negb (has_timestamp t)) tweets in
      let log :=
        if (0 <? List.length invalidTweets)%nat
        then [LogWarn (invalid_dates_warning (List.length invalidTweets))]
        else [] in
      let validDates :=
        JS.Array_sort_undefined_last ascending (map timestamp_value validTweets) in
      let tweetsForEngagement := filter (fun t => negb (isRetweet t)) tweets in
      match JS.Array_map_throwing top_entry
              (JS.Array_slice0 5 (JS.Array_sort by_likes_desc tweetsForEngagement)) with
      | inl error => (log, inl error)
      | inr top =>
          match date_or_NA validDates (hd None validDates) with
          | inl error => (log, inl error)
          | inr first =>
              match date_or_NA validDates (last validDates None) with
              | inl error => (log, inl error)
              | inr final =>
                  (log,
                   inr {| totalTweets := List.length tweets;
                          directTweets :=
                            count (fun t => negb (isReply t) && negb (isRetweet t)) tweets;
                          replyCount := count isReply tweets;
                          retweets := count isRetweet tweets;
                          engagement :=
                            {| totalLikes := engagement_sum likes tweetsForEngagement;
                               totalRetweetCount :=
                                 engagement_sum retweetCount tweetsForEngagement;
                               totalReplies := engagement_sum replies tweetsForEngagement;
                               averageLikes :=
                                 JS.toFixed2
                                   (JS.Number_div
                                      (engagement_sum likes tweetsForEngagement)
                                      (JS.Number_of_Z
                                         (Z.of_nat (List.length tweetsForEngagement))));
                               topTweets := top |};
                          timeRange := {| range_start := first; range_end := final |};
                          contentTypes :=
                            {| withImages := count (fun t => JS.nonempty (photos t)) tweets;
                               withVideos := count (fun t => JS.nonempty (videos t)) tweets;
                               withLinks := count (fun t => JS.nonempty (urls t)) tweets;
                               textOnly :=
                                 count (fun t => negb (JS.nonempty (photos t))
                                                 && negb (JS.nonempty (videos t))
                                                 && negb (JS.nonempty (urls t))) tweets |} |})
              end
          end
      end
  end.

(** The outcome alone: the report, or the error. *)
Definition report (tweets : list Tweet) : string + Analytics :=
  snd (generateAnalytics tweets).

(** [saveTweets(tweets)].  It writes four files, in this order; [write_error k]
    is the message of the error that the write number [k] throws, if it
    throws.  An error of a write or of [generateAnalytics] is logged and
    thrown again; the result is its message, or the report. *)
Definition raw_tweets_file : string := "raw/tweets.json".
Definition raw_urls_file : string := "raw/urls.txt".
Definition stats_file : string := "analytics/stats.json".
Definition summary_file : string := "exports/summary.md".

Definition save_failed (done : list Event) (msg : string)
  : list Event * (string + Analytics) :=
  ((done ++ [LogError ("❌ Error saving data: " ++ msg)%string])%list, inl msg).

Definition saveTweets (write_error : nat -> option string) (tweets : list Tweet)
  : list Event * (string + Analytics) :=
  match write_error 0%nat with
  | Some msg => save_failed [WriteFile raw_tweets_file] msg
  | None =>
      match write_error 1%nat with
      | Some msg => save_failed [WriteFile raw_tweets_file; WriteFile raw_urls_file] msg
      | None =>
          let (log, outcome) := generateAnalytics tweets in
          let done :=
            ([WriteFile raw_tweets_file; WriteFile raw_urls_file; Aggregate tweets]
               ++ log)%list in
          match outcome with
          | inl msg => save_failed done msg
          | inr analytics =>
              match write_error 2%nat with
              | Some msg => save_failed (done ++ [WriteFile stats_file])%list msg
              | None =>
                  match write_error 3%nat with
                  | Some msg =>
                      save_failed
                        (done ++ [WriteFile stats_file; WriteFile summary_file])%list msg
                  | None =>
                      ((done ++ [WriteFile stats_file; WriteFile summary_file])%list,
                       inr analytics)
                  end
              end
          end
      end
  end.

End WithFormat.

End DataOrganizer.

(** ** [TwitterPipeline] *)

Module TwitterPipeline.

(** *** Cookies *)

(** An entry of the persisted cookie file, and a cookie as the scraper hands
    it out: an object any of whose properties may be absent. *)
Record CookieJSON : Type := mkCookieJSON {
  key : option string;
  name : option string;
  value : option string;
  domain : option string;
  path : option string;
  secure : option bool;
  httpOnly : option bool;
  creation : option string
}.

(** The [cookieData] literal and the tough-cookie object built from it. *)
Record Cookie : Type := mkCookie {
  cookie_key : string;
  cookie_value : string;
  cookie_domain : string;
  cookie_path : string;
  cookie_secure : bool;
  cookie_httpOnly : bool
}.

(** [Cookie.fromJSON(cookieData)] of tough-cookie: given an object, the cookie
    with the properties of that object. *)
Definition Cookie_fromJSON (cookieData : Cookie) : option Cookie := Some cookieData.

(** [toughC.toJSON()] of tough-cookie.  The library leaves out a property
    that has its default value, as a [secure] or an [httpOnly] that is false
    has, and writes the time at which the cookie object was made, [created],
    as [creation]. *)
Definition Cookie_toJSON (created : string) (toughC : Cookie) : CookieJSON :=
  {| key := Some (cookie_key toughC);
     name := None;
     value := Some (cookie_value toughC);
     domain := Some (cookie_domain toughC);
     path := Some (cookie_path toughC);
     secure := if cookie_secure toughC then Some true else None;
     httpOnly := if cookie_httpOnly toughC then Some true else None;
     creation := Some created |}.

(** The value with one layer of surrounding double quotes taken off. *)
Definition unquote (v : string) : string :=
  if JS.startsWith_dquote v && JS.endsWith_dquote v && (1 <? String.length v)%nat
  then JS.slice_1_m1 v
  else v.

(** The callback of [arr.map] in [loadCookies], up to [Cookie.fromJSON]:
    [None] is the [null] that [filter(Boolean)] removes. *)
Definition load_entry (c : CookieJSON) : option Cookie :=
  let k := if JS.truthy (key c) then key c else name c in
  if negb (JS.truthy k) then None
  else
    let v := unquote (JS.or_default (value c) "") in
    match v with
    | EmptyString => None
    | String _ _ =>
        Cookie_fromJSON
          {| cookie_key := JS.or_default k "";
             cookie_value := v;
             cookie_domain := JS.or_default (domain c) "twitter.com";
             cookie_path := JS.or_default (path c) "/";
             cookie_secure := JS.nullish (secure c) true;
             cookie_httpOnly := JS.nullish (httpOnly c) false |}
    end.

(** The Set-Cookie string of a cookie. *)
Definition set_cookie_string (toughC : Cookie) : string :=
  JS.join "; "
    ([(cookie_key toughC ++ "=" ++ cookie_value toughC)%string;
      ("Domain=" ++ cookie_domain toughC)%string;
      ("Path=" ++ cookie_path toughC)%string]
       ++ (if cookie_secure toughC then ["Secure"] else [])
       ++ (if cookie_httpOnly toughC then ["HttpOnly"] else []))%list.

Fixpoint keep {A B : Type} (f : A -> option B) (l : list A) : list B :=
  match l with
  | [] => []
  | a :: l' =>
      match f a with
      | Some b => b :: keep f l'
      | None => keep f l'
      end
  end.

(** The cookies that [loadCookies] accepts from the file, and their wire
    form. *)
Definition loaded_cookies (arr : list CookieJSON) : list Cookie := keep load_entry arr.

Definition setCookieStrings (arr : list CookieJSON) : list string :=
  map set_cookie_string (loaded_cookies arr).

(** [loadCookies()]: [file] is the parsed content of the cookie file, or the
    message of the error that reading or parsing it throws; [set_error] is the
    message of the error that [scraper.setCookies] throws, if it throws. *)
Definition loadCookies (file : string + list CookieJSON) (set_error : option string)
  : list Event * bool :=
  match file with
  | inl msg => ([LogWarn ("[loadCookies] => " ++ msg)], false)
  | inr arr =>
      match setCookieStrings arr with
      | [] =>
          ([LogWarn ("[loadCookies] => " ++ "No valid cookies after parse => can't set them")],
           false)
      | wire =>
          match set_error with
          | Some msg => ([SetCookies wire; LogWarn ("[loadCookies] => " ++ msg)], false)
          | None => ([SetCookies wire], true)
          end
      end
  end.

(** The callback of [agentCookies.map] in [saveCookies], run at the time
    [now]. *)
Definition save_entry (now : string) (c : CookieJSON) : option CookieJSON :=
  if negb (JS.truthy (key c)) || negb (JS.truthy (value c)) then None
  else
    match Cookie_fromJSON
            {| cookie_key := JS.or_default (key c) "";
               cookie_value := JS.or_default (value c) "";
               cookie_domain := JS.or_default (domain c) "twitter.com";
               cookie_path := JS.or_default (path c) "/";
               cookie_secure := true;
               cookie_httpOnly := false |} with
    | Some toughC => Some (Cookie_toJSON now toughC)
    | None => None
    end.

(** [agentCookies.map(...).filter(Boolean)], the callback reaching the cookie
    number [i] at the time [clock i]. *)
Fixpoint save_from (clock : nat -> string) (i : nat) (agentCookies : list CookieJSON)
  : list CookieJSON :=
  match agentCookies with
  | [] => []
  | c :: rest =>
      match save_entry (clock i) c with
      | Some e => e :: save_from clock (S i) rest
      | None => save_from clock (S i) rest
      end
  end.

Definition saved_cookies (clock : nat -> string) (agentCookies : list CookieJSON)
  : list CookieJSON :=
  save_from clock 0%nat agentCookies.

Definition cookies_file : string := "cookies/agent_cookies.json".

(** [saveCookies()]: the events, and the array written to the cookie file when
    one is written. *)
Definition saveCookies (agentCookies : list CookieJSON) (clock : nat -> string)
           (write_error : option string)
  : list Event * option (list CookieJSON) :=
  match saved_cookies clock agentCookies with
  | [] => ([GetCookies; LogWarn ("[saveCookies] => " ++ "No valid cookies to save from agent!")],
           None)
  | arr =>
      match write_error with
      | Some msg => ([GetCookies; WriteFile cookies_file; LogWarn ("[saveCookies] => " ++ msg)],
                     None)
      | None => ([GetCookies; WriteFile cookies_file], Some arr)
      end
  end.

(** *** The world the pipeline runs in *)

Record Config : Type := mkConfig {
  maxTweets : Z;
  maxRetries : Z;
  retryDelay : Z;
  minDelay : Z;
  maxDelay : Z
}.

(** What [scraper.isLoggedIn()] answers. *)
Inductive Answer : Type :=
| Yes
| No
| Throws (msg : string).

(** How one pass through the [try] block of the login loop goes. *)
Inductive LoginOutcome : Type :=
| LoginThrows (msg : string)       (* [scraper.login] throws *)
| Verified                         (* logged in, [isLoggedIn()] is true *)
| NotVerified                      (* logged in, [isLoggedIn()] is false *)
| VerifyThrows (msg : string).     (* [isLoggedIn()] throws *)

(** What [scraper.getProfile] answers. *)
Inductive ProfileResult : Type :=
| ProfileThrows (msg : string)
| Profile (tweetsCount : option Z).

(** What [scraper.getTweet] answers: a post, [null], or an exception. *)
Inductive FetchResult : Type :=
| Fetched (parent : option Tweet)
| FetchThrows (msg : string).

Record World : Type := mkWorld {
  config : Config;
  has_credentials : bool;
  cookie_file : string + list CookieJSON;
  set_cookies_error : option string;             (* what [setCookies] throws, if it throws *)
  cookie_session : Answer;                      (* [isLoggedIn()] on the loaded cookies *)
  login_outcome : Z -> LoginOutcome;             (* by attempt number *)
  agent_cookies : list CookieJSON;               (* [getCookies()] after a login *)
  cookie_clock : nat -> string;                  (* the time when cookie [i] is encoded *)
  cookie_write_error : option string;
  profile : ProfileResult;
  search : list (option Tweet);                  (* what the search iterator yields *)
  search_error : option string;                  (* what it throws after that, if it throws *)
  getTweet : nat -> string -> FetchResult;       (* by number of earlier calls, and id *)
  save_error : nat -> nat -> option string;      (* by call of [saveTweets], and write *)
  finetune_write_error : option string;
  logout_error : option string
}.

(** *** [initializeScraper] *)

(** The message of the error that reaches the [catch] of the login loop. *)
Definition login_error (o : LoginOutcome) : option string :=
  match o with
  | LoginThrows msg => Some msg
  | Verified => None
  | NotVerified => Some "Login verification failed"
  | VerifyThrows msg => Some msg
  end.

Definition login_warning (attempt : Z) (msg : string) : string :=
  "Login attempt " ++ JS.show_Z attempt ++ " => " ++ msg.

(** The calls on the scraper inside the [try] block. *)
Definition login_calls (attempt : Z) (o : LoginOutcome) : list Event :=
  match o with
  | LoginThrows _ => [Login attempt]
  | _ => [Login attempt; IsLoggedIn]
  end.

(** The [for] loop of [initializeScraper], entered with the loop variable at
    [attempt]; [fuel] bounds the number of iterations. *)
Fixpoint login_loop (w : World) (fuel : nat) (attempt : Z) : list Event * bool :=
  match fuel with
  | O => ([], false)
  | S fuel' =>
      if attempt <=? maxRetries (config w) then
        match login_error (login_outcome w attempt) with
        | None =>
            ((login_calls attempt (login_outcome w attempt)
                ++ fst (saveCookies (agent_cookies w) (cookie_clock w)
                                    (cookie_write_error w)))%list,
             true)
        | Some msg =>
            let failed :=
              (login_calls attempt (login_outcome w attempt)
                 ++ [LogWarn (login_warning attempt msg)])%list in
            if attempt >=? maxRetries (config w) then (failed, false)
            else
              let (later, ok) := login_loop w fuel' (attempt + 1) in
              ((failed ++ Timeout (retryDelay (config w) * attempt) :: later)%list, ok)
        end
      else ([], false)
  end.

(** The loop variable runs from 1 to [maxRetries], so [maxRetries] iterations
    are all there can be. *)
Definition login_fuel (w : World) : nat := Z.to_nat (maxRetries (config w)).

(** The check of the loaded cookies: the events, and whether the session is
    valid. *)
Definition cookie_check (w : World) : list Event * bool :=
  match loadCookies (cookie_file w) (set_cookies_error w) with
  | (evs, false) => (evs, false)
  | (evs, true) =>
      match cookie_session w with
      | Yes => ((evs ++ [IsLoggedIn])%list, true)
      | No => ((evs ++ [IsLoggedIn; LogWarn "Cookies loaded => but session invalid"])%list,
               false)
      | Throws msg =>
          ((evs ++ [IsLoggedIn;
                    LogWarn ("Cookie check => fresh login needed => " ++ msg)%string])%list,
           false)
      end
  end.

Definition initializeScraper (w : World) : list Event * bool :=
  match cookie_check w with
  | (evs, true) => (evs, true)
  | (evs, false) =>
      let (attempts, ok) := login_loop w (login_fuel w) 1 in
      ((evs ++ LogWarn "No valid cookie session => logging in fresh..." :: attempts)%list,
       ok)
  end.

(** *** [collectMainTweets] *)

(** [profile.tweetsCount || 0], and [0] when the lookup throws. *)
Definition totalTweetsForUser (p : ProfileResult) : Z :=
  match p with
  | Profile tweetsCount => JS.or_zero tweetsCount
  | ProfileThrows _ => 0
  end.

(** [Math.min(this.config.twitter.maxTweets, totalTweetsForUser || 1e9)]. *)
Definition maxWanted (cfg : Config) (p : ProfileResult) : Z :=
  Z.min (maxTweets cfg)
        (if totalTweetsForUser p =? 0 then 10 ^ 9 else totalTweetsForUser p).

Definition profile_lookup (p : ProfileResult) : list Event :=
  match p with
  | Profile _ => [GetProfile]
  | ProfileThrows msg => [GetProfile; LogWarn ("Profile => " ++ msg)%string]
  end.

(** The [Map] named [results]: entries in insertion order. *)
Definition TweetMap : Type := list (string * Tweet).

Fixpoint Map_has (k : string) (m : TweetMap) : bool :=
  match m with
  | [] => false
  | (k', _) :: m' => String.eqb k k' || Map_has k m'
  end.

Fixpoint Map_set (k : string) (v : Tweet) (m : TweetMap) : TweetMap :=
  match m with
  | [] => [(k, v)]
  | (k', v') :: m' =>
      if String.eqb k k' then (k', v) :: m' else (k', v') :: Map_set k v m'
  end.

Definition Map_values (m : TweetMap) : list Tweet := map snd m.

(** [raw?.id] when it is truthy. *)
Definition raw_id (raw : option Tweet) : option string :=
  match raw with
  | Some t => if JS.truthy (id t) then id t else None
  | None => None
  end.

(** Where the [for await] loop stands when it is left, and the error with
    which it is left when the iterator throws. *)
Record Collected : Type := mkCollected {
  results : TweetMap;
  count : Z;
  unconsumed : list (option Tweet); (* what the iterator has not been asked for *)
  thrown : option string
}.

(** The [for await] loop over the search iterator, entered with [results] and
    [count] as they stand: the iterator still has [source] to yield, and
    after that it ends, or throws [ending]. *)
Fixpoint collect_loop (wanted : Z) (source : list (option Tweet)) (ending : option string)
         (res : TweetMap) (cnt : Z) : list Event * Collected :=
  match source with
  | [] => ([], {| results := res; count := cnt; unconsumed := []; thrown := ending |})
  | raw :: rest =>
      match raw_id raw, raw with
      | Some k, Some t =>
          let res' := if Map_has k res then res else Map_set k t res in
          let cnt' := cnt + 1 in
          let pause := if cnt' mod 100 =? 0 then [RandomDelay] else [] in
          if cnt' >=? wanted
          then (Pull :: pause,
                {| results := res'; count := cnt'; unconsumed := rest; thrown := None |})
          else let (later, c) := collect_loop wanted rest ending res' cnt' in
               ((Pull :: pause ++ later)%list, c)
      | _, _ =>
          let (later, c) := collect_loop wanted rest ending res cnt in
          (Pull :: later, c)
      end
  end.

(** [collectMainTweets()]: the events, and the posts collected or the message
    of the error that the search iterator throws (nothing in the method
    catches it). *)
Definition collectMainTweets (w : World) : list Event * (string + list Tweet) :=
  let wanted := maxWanted (config w) (profile w) in
  let (pulls, c) := collect_loop wanted (search w) (search_error w) [] 0 in
  ((profile_lookup (profile w) ++ pulls)%list,
   match thrown c with
   | Some msg => inl msg
   | None => inr (Map_values (results c))
   end).

(** *** [fetchAllParentTweets] *)

Definition set_inReplyToText (t : Tweet) (s : JS.ustring) : Tweet :=
  {| id := id t;
     username := username t;
     text := text t;
     timestamp := timestamp t;
     isReply := isReply t;
     isRetweet := isRetweet t;
     likes := likes t;
     retweetCount := retweetCount t;
     replies := replies t;
     photos := photos t;
     videos := videos t;
     urls := urls t;
     permanentUrl := permanentUrl t;
     inReplyToStatusId := inReplyToStatusId t;
     inReplyToText := Some s |}.

(** [t.inReplyToStatusId] is truthy: [t] is in [replies]. *)
Definition is_reply_to (t : Tweet) : bool := JS.truthy (inReplyToStatusId t).

Definition parent_id (t : Tweet) : string := JS.or_default (inReplyToStatusId t) "".

Definition fetch_warning (parentId msg : string) : string :=
  "fetch parent [" ++ parentId ++ "] => " ++ msg.

(** The [try]/[catch] around [scraper.getTweet(parentId)]: the events and the
    text assigned to [t.inReplyToText]. *)
Definition fetch_parent (answer : FetchResult) (parentId : string)
  : list Event * JS.ustring :=
  match answer with
  | Fetched (Some parent) => ([GetTweet parentId], JS.text_or_empty (text parent))
  | Fetched None => ([GetTweet parentId], [])
  | FetchThrows msg => ([GetTweet parentId; LogWarn (fetch_warning parentId msg)], [])
  end.

(** The [for] loop over [replies], entered with the counter at [i].  [replies]
    holds the posts of [allTweets] that are replies, the same objects in the
    same order, so the loop is a pass over [allTweets] that leaves the other
    posts alone, and the assignment to [t.inReplyToText] shows in
    [allTweets]. *)
Fixpoint parent_loop (answers : nat -> string -> FetchResult) (i : nat)
         (allTweets : list Tweet) : list Event * list Tweet :=
  match allTweets with
  | [] => ([], [])
  | t :: rest =>
      if is_reply_to t then
        let (fetch, s) := fetch_parent (answers i (parent_id t)) (parent_id t) in
        let i' := S i in
        let pause := if (i' mod 50 =? 0)%nat then [RandomDelay] else [] in
        let (later, rest') := parent_loop answers i' rest in
        ((fetch ++ pause ++ later)%list, set_inReplyToText t s :: rest')
      else
        let (later, rest') := parent_loop answers i rest in
        (later, t :: rest')
  end.

Definition fetchAllParentTweets (w : World) (allTweets : list Tweet)
  : list Event * list Tweet :=
  parent_loop (getTweet w) 0%nat allTweets.

(** *** [run] *)

Definition cleanup (w : World) : list Event :=
  match logout_error w with
  | Some msg => [Logout; LogWarn ("Cleanup => " ++ msg)%string]
  | None => [Logout]
  end.

Definition finetune_file : string := "processed/finetuning.jsonl".

Section WithFormat.

Variable format_date : Z -> string.

(** [saveFineTuneData(allTweets)]: the events, and the message of the error it
    throws, if it throws.  It is the call number [1] of [saveTweets]. *)
Definition saveFineTuneData (w : World) (allTweets : list Tweet)
  : list Event * option string :=
  match DataOrganizer.saveTweets format_date (save_error w 1%nat) allTweets with
  | (saving, inl msg) => (saving, Some msg)
  | (saving, inr _) =>
      ((saving ++ [WriteFile finetune_file])%list, finetune_write_error w)
  end.

(** The [catch] of [run]. *)
Definition pipeline_failed (w : World) (msg : string) : list Event :=
  LogError ("âŒ Pipeline => " ++ msg) :: cleanup w.

(** [run()]: everything the pipeline does, in order.  A missing credential
    ends the process at once; the two early [return]s leave without
    [cleanup]; an error of the search iterator or of a save reaches the
    [catch]. *)
Definition run (w : World) : list Event :=
  if negb (has_credentials w) then [LogError "Missing env vars:"]
  else
    let (init, ok) := initializeScraper w in
    if negb ok then (init ++ [LogError "Init failed => exit"])%list
    else
      match collectMainTweets w with
      | (collecting, inl msg) => (init ++ collecting ++ pipeline_failed w msg)%list
      | (collecting, inr []) => (init ++ collecting ++ [LogWarn "No tweets => done"])%list
      | (collecting, inr mainTweets) =>
          match DataOrganizer.saveTweets format_date (save_error w 0%nat) mainTweets with
          | (saving, inl msg) =>
              (init ++ collecting ++ saving ++ pipeline_failed w msg)%list
          | (saving, inr _) =>
              let (fetching, enriched) := fetchAllParentTweets w mainTweets in
              match saveFineTuneData w enriched with
              | (final, Some msg) =>
                  (init ++ collecting ++ saving ++ fetching ++ final
                     ++ pipeline_failed w msg)%list
              | (final, None) =>
                  (init ++ collecting ++ saving ++ fetching ++ final
                     ++ Prompt :: cleanup w)%list
              end
          end
      end.

End WithFormat.

End TwitterPipeline.

Import DataOrganizer TwitterPipeline.

(** ** The words of the specification, as definitions *)

Module Spec.

(** Likes of a post, a missing count taken as 0. *)
Definition likes_of (t : Tweet) : Z :=
  match likes t with
  | Some n => n
  | None => 0
  end.

Definition non_retweets (posts : list Tweet) : list Tweet :=
  filter (fun t => negb (isRetweet t)) posts.

(** Sorted by descending likes. *)
Definition likes_descending (l : list Tweet) : Prop :=
  StronglySorted (fun a b => likes_of b <= likes_of a) l.

(** Posts with equal likes stand in [l'] in the order they have in [l]. *)
Definition same_order_on_ties (l l' : list Tweet) : Prop :=
  forall v : Z,
    filter (fun t => likes_of t =? v) l' = filter (fun t => likes_of t =? v) l.

(** The earliest and the latest timestamp among the posts that have one. *)
Fixpoint earliest (posts : list Tweet) : option Z :=
  match posts with
  | [] => None
  | t :: rest =>
      match timestamp t, earliest rest with
      | At a, Some b => Some (Z.min a b)
      | At a, None => Some a
      | _, r => r
      end
  end.

Fixpoint latest (posts : list Tweet) : option Z :=
  match posts with
  | [] => None
  | t :: rest =>
      match timestamp t, latest rest with
      | At a, Some b => Some (Z.max a b)
      | At a, None => Some a
      | _, r => r
      end
  end.

(** The timestamps that are numbers, in the order of the posts. *)
Fixpoint dates (posts : list Tweet) : list Z :=
  match posts with
  | [] => []
  | t :: rest =>
      match timestamp t with
      | At ms => ms :: dates rest
      | _ => dates rest
      end
  end.

(** The posts that have no timestamp property. *)
Definition unstamped (posts : list Tweet) : list Tweet :=
  filter (fun t => match timestamp t with
                   | Absent => true
                   | Null => false
                   | At _ => false
                   end) posts.

(** An end of the time range as the report shows it: the date of a time
    value, or ["N/A"] when there is none. *)
Definition shown_date (format_date : Z -> string) (d : option Z) : string :=
  match d with
  | Some ms => format_date ms
  | None => "N/A"
  end.

(** An entry of the top list shows a post: its identifier, the first 100
    code units of its text, its likes, its retweet count and its address. *)
Definition shows (e : TopTweet) (t : Tweet) : Prop :=
  top_id e = id t
  /\ (exists s, text t = Some s /\ top_text e = firstn 100 s)
  /\ top_likes e = likes t
  /\ top_retweetCount e = retweetCount t
  /\ top_url e = permanentUrl t.

(** The least and the greatest of a list of numbers. *)
Fixpoint least (zs : list Z) : option Z :=
  match zs with
  | [] => None
  | z :: rest =>
      match least rest with
      | Some m => Some (Z.min z m)
      | None => Some z
      end
  end.

Fixpoint greatest (zs : list Z) : option Z :=
  match zs with
  | [] => None
  | z :: rest =>
      match greatest rest with
      | Some m => Some (Z.max z m)
      | None => Some z
      end
  end.

(** The posts whose timestamp is null. *)
Definition undated (posts : list Tweet) : list Tweet :=
  filter (fun t => match timestamp t with
                   | Null => true
                   | Absent => false
                   | At _ => false
                   end) posts.

(** A timestamp that is a number and a valid time value: at most 8.64e15
    milliseconds from the epoch. *)
Definition valid_time (ms : Z) : Prop := - 8640000000000000 <= ms <= 8640000000000000.

(** A post that has a text, and whose timestamp is null or a valid time
    value. *)
Definition well_formed (t : Tweet) : Prop :=
  (exists s, text t = Some s)
  /\ match timestamp t with
     | Null => True
     | Absent => False
     | At ms => valid_time ms
     end.

(** The identifier-bearing items of a sequence, and their identifiers. *)
Definition has_id (raw : option Tweet) : bool :=
  match raw_id raw with
  | Some _ => true
  | None => false
  end.

Definition ids (l : list (option Tweet)) : list string := keep raw_id l.

(** The shortest prefix of [source] that holds [n] identifier-bearing items,
    all of [source] when it holds fewer. *)
Fixpoint consumed (n : nat) (source : list (option Tweet)) : list (option Tweet) :=
  match source with
  | [] => []
  | raw :: rest =>
      match n with
      | O => []
      | S n' => raw :: consumed (if has_id raw then n' else n) rest
      end
  end.

(** Each entry of the collected set is a post stored under its own
    identifier. *)
Definition keyed_by_id (m : TweetMap) : Prop :=
  Forall (fun kt => id (snd kt) = Some (fst kt)) m.



(** The logins and waits among the events. *)
Definition logins_and_waits (evs : list Event) : list Event :=
  filter (fun e => match e with
                   | Login _ | Timeout _ => true
                   | _ => false
                   end) evs.


(** The aggregations and the parent fetches among the events. *)
Definition stages (evs : list Event) : list Event :=
  filter (fun e => match e with
                   | Aggregate _ | GetTweet _ => true
                   | _ => false
                   end) evs.

(** A reply: a post with a non-empty [inReplyToStatusId], the identifier of
    its parent. *)
Definition is_reply (t : Tweet) : bool :=
  match inReplyToStatusId t with
  | Some (String _ _) => true
  | _ => false
  end.

Definition parent_of (t : Tweet) : string :=
  match inReplyToStatusId t with
  | Some i => i
  | None => ""
  end.

(** The parent fetches that a batch asks for: one per reply, in order. *)
Definition parent_fetches (posts : list Tweet) : list Event :=
  map (fun t => GetTweet (parent_of t)) (filter is_reply posts).

(** Two posts that agree in everything but the text of the parent. *)
Definition same_but_parent_text (p q : Tweet) : Prop :=
  id q = id p /\ username q = username p /\ text q = text p
  /\ timestamp q = timestamp p /\ isReply q = isReply p /\ isRetweet q = isRetweet p
  /\ likes q = likes p /\ retweetCount q = retweetCount p /\ replies q = replies p
  /\ photos q = photos p /\ videos q = videos p /\ urls q = urls p
  /\ permanentUrl q = permanentUrl p /\ inReplyToStatusId q = inReplyToStatusId p.

(** A post of a batch and what parent resolution makes of it: a reply gets a
    text of its parent and is otherwise the same, any other post stays as it
    is. *)
Definition resolved (p q : Tweet) : Prop :=
  if is_reply p
  then (exists s, inReplyToText q = Some s) /\ same_but_parent_text p q
  else q = p.

(** The claim that no aggregation runs before a parent fetch: nowhere in the
    events does a parent fetch follow an aggregation. *)
Definition no_fetch_after_aggregation (evs : list Event) : Prop :=
  forall (pre post : list Event) (posts : list Tweet) (i : string),
    evs = (pre ++ Aggregate posts :: post)%list -> ~ In (GetTweet i) post.

Definition survives (c : CookieJSON) : bool :=
  match load_entry c with
  | Some _ => true
  | None => false
  end.









(** An entry without its time of creation. *)
Definition without_creation (c : CookieJSON) : CookieJSON :=
  {| key := key c;
     name := name c;
     value := value c;
     domain := domain c;
     path := path c;
     secure := secure c;
     httpOnly := httpOnly c;
     creation := None |}.

End Spec.

(** ** Sample data *)

Module Sample.

Definition post (i : string) (l : option Z) : Tweet :=
  {| id := Some i;
     username := Some "someone";
     text := Some (JS.ustr "hello");
     timestamp := At 1700000000;
     isReply := false;
     isRetweet := false;
     likes := l;
     retweetCount := None;
     replies := None;
     photos := None;
     videos := None;
     urls := None;
     permanentUrl := None;
     inReplyToStatusId := None;
     inReplyToText := None |}.

Definition retweet (i : string) (l : option Z) : Tweet :=
  {| id := Some i;
     username := Some "someone";
     text := Some (JS.ustr "RT hello");
     timestamp := At 1700000000;
     isReply := false;
     isRetweet := true;
     likes := l;
     retweetCount := None;
     replies := None;
     photos := None;
     videos := None;
     urls := None;
     permanentUrl := None;
     inReplyToStatusId := None;
     inReplyToText := None |}.

Definition reply (i parent : string) : Tweet :=
  {| id := Some i;
     username := Some "someone";
     text := Some (JS.ustr "I agree");
     timestamp := At 1700000100;
     isReply := true;
     isRetweet := false;
     likes := Some 1;
     retweetCount := None;
     replies := None;
     photos := None;
     videos := None;
     urls := None;
     permanentUrl := None;
     inReplyToStatusId := Some parent;
     inReplyToText := None |}.

(** A post whose timestamp is [null]. *)
Definition undated_post (i : string) : Tweet :=
  {| id := Some i;
     username := Some "someone";
     text := Some (JS.ustr "when");
     timestamp := Null;
     isReply := false;
     isRetweet := false;
     likes := Some 3;
     retweetCount := None;
     replies := None;
     photos := None;
     videos := None;
     urls := None;
     permanentUrl := None;
     inReplyToStatusId := None;
     inReplyToText := None |}.

(** A post that has no [timestamp] property, as the scraper builds it from a
    post without a creation date. *)
Definition unstamped_post (i : string) : Tweet :=
  {| id := Some i;
     username := Some "someone";
     text := Some (JS.ustr "whenever");
     timestamp := Absent;
     isReply := false;
     isRetweet := false;
     likes := Some 3;
     retweetCount := None;
     replies := None;
     photos := None;
     videos := None;
     urls := None;
     permanentUrl := None;
     inReplyToStatusId := None;
     inReplyToText := None |}.

(** A post that has no [text] property. *)
Definition textless_post (i : string) : Tweet :=
  {| id := Some i;
     username := Some "someone";
     text := None;
     timestamp := At 1700000200;
     isReply := false;
     isRetweet := false;
     likes := Some 7;
     retweetCount := None;
     replies := None;
     photos := Some ["https://pbs.twimg.com/media/1.jpg"];
     videos := None;
     urls := None;
     permanentUrl := None;
     inReplyToStatusId := None;
     inReplyToText := None |}.


Definition a_config : Config :=
  {| maxTweets := 10000; maxRetries := 5; retryDelay := 3000;
     minDelay := 1000; maxDelay := 3000 |}.

Definition a_clock (i : nat) : string := "2024-05-01T10:00:00.000Z".

(** A world in which the saved session is valid, the search yields [found]
    and then ends, every write succeeds and every parent fetch throws. *)
Definition a_world (found : list (option Tweet)) : World :=
  {| config := a_config;
     has_credentials := true;
     cookie_file :=
       inr [ {| key := Some "auth_token"; name := None; value := Some "abc";
                domain := Some ".twitter.com"; path := Some "/";
                secure := Some true; httpOnly := Some true; creation := None |} ];
     set_cookies_error := None;
     cookie_session := Yes;
     login_outcome := fun _ => Verified;
     agent_cookies := [];
     cookie_clock := a_clock;
     cookie_write_error := None;
     profile := Profile (Some 3200);
     search := found;
     search_error := None;
     getTweet := fun _ _ => FetchThrows "not found";
     save_error := fun _ _ => None;
     finetune_write_error := None;
     logout_error := None |}.

(** The same world, but the search iterator throws once it has yielded
    [found]. *)
Definition a_world_with_failing_search (found : list (option Tweet)) : World :=
  {| config := a_config;
     has_credentials := true;
     cookie_file := cookie_file (a_world found);
     set_cookies_error := None;
     cookie_session := Yes;
     login_outcome := fun _ => Verified;
     agent_cookies := [];
     cookie_clock := a_clock;
     cookie_write_error := None;
     profile := Profile (Some 3200);
     search := found;
     search_error := Some "Rate limit exceeded";
     getTweet := fun _ _ => FetchThrows "not found";
     save_error := fun _ _ => None;
     finetune_write_error := None;
     logout_error := None |}.

(** A world in which there is no saved session and no login attempt
    succeeds. *)
Definition a_locked_world : World :=
  {| config := a_config;
     has_credentials := true;
     cookie_file := inl "ENOENT: no such file or directory";
     set_cookies_error := None;
     cookie_session := No;
     login_outcome := fun _ => LoginThrows "bad credentials";
     agent_cookies := [];
     cookie_clock := a_clock;
     cookie_write_error := None;
     profile := ProfileThrows "unreachable";
     search := [];
     search_error := None;
     getTweet := fun _ _ => FetchThrows "not found";
     save_error := fun _ _ => None;
     finetune_write_error := None;
     logout_error := None |}.

(** A persisted cookie as a browser exports it. *)
Definition auth_cookie : CookieJSON :=
  {| key := Some "auth_token"; name := None; value := Some "abc";
     domain := Some ".twitter.com"; path := Some "/";
     secure := Some true; httpOnly := Some true; creation := None |}.

(** What the scraper's jar hands back for it: the domain without its leading
    dot. *)
Definition auth_cookie_in_jar : CookieJSON :=
  {| key := Some "auth_token"; name := None; value := Some "abc";
     domain := Some "twitter.com"; path := Some "/";
     secure := Some true; httpOnly := Some true; creation := None |}.

(** A persisted cookie with its value in double quotes, under [name]. *)
Definition csrf_cookie : CookieJSON :=
  {| key := None; name := Some "ct0"; value := Some (String JS.dquote ("xyz" ++ String JS.dquote ""));
     domain := None; path := Some "/";
     secure := Some false; httpOnly := None; creation := None |}.


Definition plain_date (ts : Z) : string := JS.show_Z ts.

End Sample.

(** ** More of the source

    The parts of the two classes that the sections above do not use: the
    configuration read from the environment, the checkpoint token, and the
    fine-tuning pairs.  A Rocq string is here a sequence of code units below
    256, which is where the white space and the letter cases of [Text] are
    those of the language; the texts of posts are trimmed as sequences of
    UTF-16 code units, with all the white space of the language. *)

Module Text.

(** The white space that [trim] and [parseInt] skip: TAB, LF, VT, FF, CR,
    SPACE and NO-BREAK SPACE. *)
Definition is_space (c : ascii) : bool :=
  let n := nat_of_ascii c in
  ((9 <=? n) && (n <=? 13) || (n =? 32) || (n =? 160))%nat.

Fixpoint trimStart (s : string) : string :=
  match s with
  | EmptyString => EmptyString
  | String c r => if is_space c then trimStart r else s
  end.

Fixpoint trimEnd (s : string) : string :=
  match s with
  | EmptyString => EmptyString
  | String c r =>
      match trimEnd r with
      | EmptyString => if is_space c then EmptyString else String c EmptyString
      | String c' r' => String c (String c' r')
      end
  end.

(** [s.trim()]. *)
Definition trim (s : string) : string := trimEnd (trimStart s).

(** The lower case of a code unit: A to Z, and À to Þ without the
    multiplication sign, move up by 32. *)
Definition lower_unit (c : ascii) : ascii :=
  let n := nat_of_ascii c in
  if ((65 <=? n) && (n <=? 90)
      || (192 <=? n) && (n <=? 222) && negb (n =? 215))%nat
  then ascii_of_nat (n + 32)
  else c.

(** [s.toLowerCase()]. *)
Fixpoint toLowerCase (s : string) : string :=
  match s with
  | EmptyString => EmptyString
  | String c r => String (lower_unit c) (toLowerCase r)
  end.

(** The decimal digits that [s] starts with. *)
Fixpoint digits (s : string) : Decimal.uint :=
  match s with
  | EmptyString => Decimal.Nil
  | String c r =>
      match uint_of_char c (Some (digits r)) with
      | Some d => d
      | None => Decimal.Nil
      end
  end.

Definition minus_sign : ascii := Ascii.ascii_of_nat 45.
Definition plus_sign : ascii := Ascii.ascii_of_nat 43.

(** What [parseInt] returns: [NaN], an infinity, or a number that is an
    integer. *)
Inductive Parsed : Type :=
| NotANumber
| Infinite (negative : bool)
| Integer (n : Z).

(** The number nearest to the integer [n]: the language's numbers are
    binary64, so from 2^53 on not every integer is one, and from about
    1.8e308 on the nearest is an infinity. *)
Definition rounded (n : Z) : Parsed :=
  match JS.Number_to_Z (JS.Number_of_Z n) with
  | Some m => Integer m
  | None => Infinite (n <? 0)
  end.

(** [parseInt(s, 10)]: leading white space is skipped, one sign is read, then
    the digits up to the first other character; the result is the number
    nearest to the integer they spell, and [NaN] when there is no digit. *)
Definition parseInt10 (s : string) : Parsed :=
  let body := trimStart s in
  let negative :=
    match body with
    | String c _ => Ascii.eqb c minus_sign
    | EmptyString => false
    end in
  let unsigned :=
    match body with
    | String c r => if Ascii.eqb c minus_sign || Ascii.eqb c plus_sign then r else body
    | EmptyString => body
    end in
  match digits unsigned with
  | Decimal.Nil => NotANumber
  | d => rounded (if negative then - Z.of_uint d else Z.of_uint d)
  end.

(** The white space of the language among the UTF-16 code units: TAB, LF, VT,
    FF, CR, SPACE, NO-BREAK SPACE, OGHAM SPACE MARK, EN QUAD to HAIR SPACE,
    LINE SEPARATOR, PARAGRAPH SEPARATOR, NARROW NO-BREAK SPACE, MEDIUM
    MATHEMATICAL SPACE, IDEOGRAPHIC SPACE and the byte order mark. *)
Definition is_white_space (u : N) : bool :=
  ((9 <=? u) && (u <=? 13) || (u =? 32) || (u =? 160) || (u =? 5760)
   || (8192 <=? u) && (u <=? 8202) || (u =? 8232) || (u =? 8233) || (u =? 8239)
   || (u =? 8287) || (u =? 12288) || (u =? 65279))%N.

Fixpoint trimStart_units (s : JS.ustring) : JS.ustring :=
  match s with
  | [] => []
  | u :: r => if is_white_space u then trimStart_units r else s
  end.

Fixpoint trimEnd_units (s : JS.ustring) : JS.ustring :=
  match s with
  | [] => []
  | u :: r =>
      match trimEnd_units r with
      | [] => if is_white_space u then [] else [u]
      | u' :: r' => u :: u' :: r'
      end
  end.

(** [s.trim()] on a string of UTF-16 code units. *)
Definition trim_units (s : JS.ustring) : JS.ustring := trimEnd_units (trimStart_units s).

End Text.

Module Settings.

(** [process.env]. *)
Definition Env : Type := string -> option string.

(** [parseInt(process.env[name], 10) || fallback]: an unset variable reads as
    [NaN]; [NaN] and [0] are falsy.  [None] is an infinity, which is what a
    numeral of more than 308 digits reads as, and which the integers of
    [Config] do not hold. *)
Definition env_number (env : Env) (name : string) (fallback : Z) : option Z :=
  match env name with
  | None => Some fallback
  | Some s =>
      match Text.parseInt10 s with
      | Text.NotANumber => Some fallback
      | Text.Integer n => Some (if n =? 0 then fallback else n)
      | Text.Infinite _ => None
      end
  end.

(** [this.config.twitter] as the constructor of [TwitterPipeline] builds it,
    when each of its values is finite. *)
Definition config_of (env : Env) : option Config :=
  match env_number env "MAX_TWEETS" 10000, env_number env "MAX_RETRIES" 5,
        env_number env "RETRY_DELAY" 3000, env_number env "MIN_DELAY" 1000,
        env_number env "MAX_DELAY" 3000 with
  | Some tweets, Some retries, Some delay, Some least, Some most =>
      Some {| maxTweets := tweets;
              maxRetries := retries;
              retryDelay := delay;
              minDelay := least;
              maxDelay := most |}
  | _, _, _, _, _ => None
  end.

(** [validateEnvironment()]: the names of the required variables that are
    unset or empty; the process exits when there is one. *)
Definition missing_variables (env : Env) : list string :=
  filter (fun k => negb (JS.truthy (env k))) ["TWITTER_USERNAME"; "TWITTER_PASSWORD"].

End Settings.

Module Checkpoint.

Definition next_token_file : string := "meta/next_token.txt".

(** [getLastNextToken()]: [file] is the content of the token file, or the
    message of the error that reading it throws. *)
Definition getLastNextToken (file : string + string) : list Event * option string :=
  match file with
  | inr data =>
      match Text.trim data with
      | EmptyString => ([], None)
      | String c r => ([], Some (String c r))
      end
  | inl _ => ([LogWarn "⚠️  No next_token found. Starting fresh."], None)
  end.

(** [saveNextToken(nextToken)]: the events, and the content of the token file
    when the write succeeds. *)
Definition saveNextToken (nextToken : string) (write_error : option string)
  : list Event * option string :=
  match write_error with
  | None => ([WriteFile next_token_file], Some nextToken)
  | Some msg =>
      ([WriteFile next_token_file;
        LogWarn ("⚠️  Failed to save next_token: " ++ msg)%string], None)
  end.

End Checkpoint.

Module FineTune.

Record Pair : Type := mkPair {
  prompt : JS.ustring;
  completion : JS.ustring
}.

(** [s !== ""]. *)
Definition not_empty (s : JS.ustring) : bool :=
  match s with
  | [] => false
  | _ :: _ => true
  end.

(** The condition of the [if] in the loop of [saveFineTuneData]; [me] is
    [this.username]. *)
Definition qualifies (me : string) (t : Tweet) : bool :=
  match username t with
  | Some u => String.eqb (Text.toLowerCase u) (Text.toLowerCase me)
  | None => false
  end
  && JS.truthy (inReplyToStatusId t)
  && JS.text_truthy (inReplyToText t)
  && not_empty (Text.trim_units (JS.text_or_empty (inReplyToText t)))
  && JS.text_truthy (text t)
  && not_empty (Text.trim_units (JS.text_or_empty (text t))).

(** [ftData] after the loop. *)
Fixpoint ftData (me : string) (allTweets : list Tweet) : list Pair :=
  match allTweets with
  | [] => []
  | t :: rest =>
      if qualifies me t
      then {| prompt := Text.trim_units (JS.text_or_empty (inReplyToText t));
              completion := Text.trim_units (JS.text_or_empty (text t)) |}
             :: ftData me rest
      else ftData me rest
  end.

End FineTune.

(** ** Words for the further properties *)

Module Props.

Definition is_logout (e : Event) : bool :=
  match e with
  | Logout => true
  | _ => false
  end.

Definition is_profile_lookup (e : Event) : bool :=
  match e with
  | GetProfile => true
  | _ => false
  end.

Definition is_cookie_save (e : Event) : bool :=
  match e with
  | GetCookies => true
  | _ => false
  end.

Definition is_pause (e : Event) : bool :=
  match e with
  | RandomDelay => true
  | _ => false
  end.

Definition is_pull (e : Event) : bool :=
  match e with
  | Pull => true
  | _ => false
  end.

(** The files written, in order. *)
Fixpoint files_written (evs : list Event) : list string :=
  match evs with
  | [] => []
  | WriteFile f :: rest => f :: files_written rest
  | _ :: rest => files_written rest
  end.



(** What makes a save fail, if anything does: the first of its steps that
    throws (the four writes, and the report between the second and the
    third), as the number of files written by then and the message. *)
Definition save_failure (write_error : nat -> option string) (outcome : string + Analytics)
  : option (nat * string) :=
  match write_error 0%nat, write_error 1%nat, outcome, write_error 2%nat,
        write_error 3%nat with
  | Some m, _, _, _, _ => Some (1%nat, m)
  | None, Some m, _, _, _ => Some (2%nat, m)
  | None, None, inl m, _, _ => Some (2%nat, m)
  | None, None, inr _, Some m, _ => Some (3%nat, m)
  | None, None, inr _, None, Some m => Some (4%nat, m)
  | None, None, inr _, None, None => None
  end.

Definition save_order : list string :=
  [raw_tweets_file; raw_urls_file; stats_file; summary_file].


(** A post with the text of its parent left out. *)
Definition without_parent_text (t : Tweet) : Tweet :=
  {| id := id t;
     username := username t;
     text := text t;
     timestamp := timestamp t;
     isReply := isReply t;
     isRetweet := isRetweet t;
     likes := likes t;
     retweetCount := retweetCount t;
     replies := replies t;
     photos := photos t;
     videos := videos t;
     urls := urls t;
     permanentUrl := permanentUrl t;
     inReplyToStatusId := inReplyToStatusId t;
     inReplyToText := None |}.

(** A string of white space only. *)
Fixpoint all_space (s : string) : bool :=
  match s with
  | EmptyString => true
  | String c r => Text.is_space c && all_space r
  end.

(** A string that is not empty and neither starts nor ends with white
    space. *)
Fixpoint ends_clean (s : string) : bool :=
  match s with
  | EmptyString => false
  | String c EmptyString => negb (Text.is_space c)
  | String _ r => ends_clean r
  end.

Definition clean (s : string) : bool :=
  match s with
  | EmptyString => false
  | String c _ => negb (Text.is_space c) && ends_clean s
  end.

(** A string that does not start with a decimal digit. *)
Definition no_leading_digit (s : string) : bool :=
  match Text.digits s with
  | Decimal.Nil => true
  | _ => false
  end.

(** A property that is there and is not empty. *)
Definition present (s : option string) : Prop :=
  match s with
  | Some (String _ _) => True
  | _ => False
  end.

(** A value in double quotes. *)
Definition quoted (s : string) : string :=
  String JS.dquote (s ++ String JS.dquote EmptyString).

(** A text of white space only, and a text that is not empty and neither
    starts nor ends with white space. *)
Fixpoint blank (s : JS.ustring) : bool :=
  match s with
  | [] => true
  | u :: r => Text.is_white_space u && blank r
  end.

Fixpoint ends_trimmed (s : JS.ustring) : bool :=
  match s with
  | [] => false
  | [u] => negb (Text.is_white_space u)
  | _ :: r => ends_trimmed r
  end.

Definition trimmed (s : JS.ustring) : bool :=
  match s with
  | [] => false
  | u :: _ => negb (Text.is_white_space u) && ends_trimmed s
  end.

(** A parent post whose text is absent or blank, or no parent at all. *)
Definition blank_answer (a : FetchResult) : bool :=
  match a with
  | Fetched (Some p) =>
      match text p with
      | Some s => blank s
      | None => true
      end
  | Fetched None => true
  | FetchThrows _ => true
  end.

(** What each stage may do: the kinds of event of the session set-up, of the
    collection, of a save and of parent resolution. *)
Definition session_event (e : Event) : bool :=
  match e with
  | LogWarn _ | SetCookies _ | IsLoggedIn | Login _ | Timeout _
  | GetCookies | WriteFile _ => true
  | _ => false
  end.

Definition collection_event (e : Event) : bool :=
  match e with
  | GetProfile | LogWarn _ | Pull | RandomDelay => true
  | _ => false
  end.

Definition save_event (e : Event) : bool :=
  match e with
  | WriteFile _ | Aggregate _ | LogWarn _ | LogError _ => true
  | _ => false
  end.

Definition fetch_event (e : Event) : bool :=
  match e with
  | GetTweet _ | LogWarn _ | RandomDelay => true
  | _ => false
  end.

(** [validDates] and the posts behind [topTweets], as [generateAnalytics]
    computes them from its argument. *)
Definition validDates (tweets : list Tweet) : list (option Z) :=
  JS.Array_sort_undefined_last ascending (map timestamp_value (filter has_timestamp tweets)).

Definition top_posts (tweets : list Tweet) : list Tweet :=
  JS.Array_slice0 5
    (JS.Array_sort by_likes_desc (filter (fun t => negb (isRetweet t)) tweets)).

(** The lists of posts on which there is a report: the posts behind the top
    list have a text, no post lacks the timestamp property, and every
    timestamp that is a number is a valid time value. *)
Definition reportable (tweets : list Tweet) : Prop :=
  Forall (fun t => exists s, text t = Some s) (top_posts tweets)
  /\ Spec.unstamped tweets = []
  /\ Forall Spec.valid_time (Spec.dates tweets).


End Props.

(** ** Facts about the built-ins *)

Lemma StronglySorted_weaken {A : Type} (R R' : A -> A -> Prop) (l : list A) :
  (forall a b, R a b -> R' a b) -> StronglySorted R l -> StronglySorted R' l.
Proof.
  intros HR. induction 1 as [|a l Hs IH Ha]; constructor.
  - exact IH.
  - eapply Forall_impl; [|exact Ha]. intros b. apply HR.
Qed.

Section SortFacts.

Context {A : Type}.
Variable cmp : A -> A -> Z.
Variable rank : A -> Z.

(** The comparators of the source are differences of a rank. *)
Hypothesis cmp_rank : forall x y, cmp x y = rank x - rank y.

Lemma sort_insert_perm (x : A) (l : list A) :
  Permutation (JS.sort_insert cmp x l) (x :: l).
Proof.
  induction l as [|y l IH]; simpl.
  - apply Permutation_refl.
  - destruct (cmp x y <=? 0).
    + apply Permutation_refl.
    + apply perm_trans with (y :: x :: l).
      * apply perm_skip, IH.
      * apply perm_swap.
Qed.

Lemma Array_sort_perm (l : list A) : Permutation (JS.Array_sort cmp l) l.
Proof.
  induction l as [|x l IH]; simpl.
  - apply perm_nil.
  - apply perm_trans with (x :: JS.Array_sort cmp l).
    + apply sort_insert_perm.
    + apply perm_skip, IH.
Qed.

Lemma sort_insert_sorted (x : A) (l : list A) :
  StronglySorted (fun a b => rank a <= rank b) l ->
  StronglySorted (fun a b => rank a <= rank b) (JS.sort_insert cmp x l).
Proof.
  induction l as [|y l IH]; intros Hs; simpl.
  - constructor; constructor.
  - inversion Hs as [|? ? Hl Hy]; subst.
    destruct (cmp x y <=? 0) eqn:E.
    + apply Z.leb_le in E. rewrite cmp_rank in E.
      constructor; [exact Hs|].
      constructor; [lia|].
      eapply Forall_impl; [|exact Hy]. simpl. intros a Ha. lia.
    + apply Z.leb_gt in E. rewrite cmp_rank in E.
      constructor; [apply IH, Hl|].
      apply (Permutation_Forall (Permutation_sym (sort_insert_perm x l))).
      constructor; [lia|exact Hy].
Qed.

Lemma Array_sort_sorted (l : list A) :
  StronglySorted (fun a b => rank a <= rank b) (JS.Array_sort cmp l).
Proof.
  induction l as [|x l IH]; simpl.
  - constructor.
  - apply sort_insert_sorted, IH.
Qed.

Lemma sort_insert_stable (v : Z) (x : A) (l : list A) :
  filter (fun a => rank a =? v) (JS.sort_insert cmp x l)
  = filter (fun a => rank a =? v) (x :: l).
Proof.
  induction l as [|y l IH]; simpl.
  - reflexivity.
  - destruct (cmp x y <=? 0) eqn:E; simpl.
    + reflexivity.
    + apply Z.leb_gt in E. rewrite cmp_rank in E.
      rewrite IH. simpl.
      destruct (rank x =? v) eqn:Ex; destruct (rank y =? v) eqn:Ey; try reflexivity.
      apply Z.eqb_eq in Ex, Ey. lia.
Qed.

Lemma Array_sort_stable (v : Z) (l : list A) :
  filter (fun a => rank a =? v) (JS.Array_sort cmp l)
  = filter (fun a => rank a =? v) l.
Proof.
  induction l as [|x l IH]; simpl.
  - reflexivity.
  - rewrite sort_insert_stable. simpl. rewrite IH. reflexivity.
Qed.

End SortFacts.

(** The stable sorted arrangement is unique: two lists sorted by rank that
    agree, rank by rank, on the order of their elements are equal. *)
Lemma stable_sorted_unique {A : Type} (rank : A -> Z) (l1 l2 : list A) :
  StronglySorted (fun a b => rank a <= rank b) l1 ->
  StronglySorted (fun a b => rank a <= rank b) l2 ->
  (forall v, filter (fun a => rank a =? v) l1 = filter (fun a => rank a =? v) l2) ->
  l1 = l2.
Proof.
  revert l2. induction l1 as [|a l1 IH]; intros l2 S1 S2 H.
  - destruct l2 as [|b l2]; [reflexivity|].
    specialize (H (rank b)). simpl in H. rewrite Z.eqb_refl in H. discriminate.
  - destruct l2 as [|b l2].
    + specialize (H (rank a)). simpl in H. rewrite Z.eqb_refl in H. discriminate.
    + inversion S1 as [|? ? S1' F1]; subst. inversion S2 as [|? ? S2' F2]; subst.
      assert (Hab : rank a = rank b).
      { assert (Hb : In b (a :: l1)).
        { assert (Hin : In b (filter (fun x => rank x =? rank b) (a :: l1))).
          { rewrite H. simpl. rewrite Z.eqb_refl. left. reflexivity. }
          apply filter_In in Hin. apply Hin. }
        assert (Ha : In a (b :: l2)).
        { assert (Hin : In a (filter (fun x => rank x =? rank a) (b :: l2))).
          { rewrite <- H. simpl. rewrite Z.eqb_refl. left. reflexivity. }
          apply filter_In in Hin. apply Hin. }
        rewrite Forall_forall in F1, F2.
        destruct Hb as [Hb|Hb]; [subst; reflexivity|].
        destruct Ha as [Ha|Ha]; [subst; reflexivity|].
        specialize (F1 _ Hb). specialize (F2 _ Ha). lia. }
      assert (Heq : a = b).
      { specialize (H (rank a)). simpl in H.
        rewrite Z.eqb_refl in H. rewrite <- Hab in H. rewrite Z.eqb_refl in H.
        congruence. }
      subst b. f_equal. apply IH; try assumption.
      intros v. specialize (H v). simpl in H.
      destruct (rank a =? v); congruence.
Qed.

Section DateFacts.

Lemma least_spec (zs : list Z) (m : Z) :
  In m zs -> Forall (fun x => m <= x) zs -> Spec.least zs = Some m.
Proof.
  induction zs as [|z zs IH]; intros Hin Hall; simpl.
  - contradiction.
  - inversion Hall as [|? ? Hz Hrest]; subst.
    destruct zs as [|y zs].
    + simpl. destruct Hin as [->|[]]. reflexivity.
    + destruct Hin as [->|Hin].
      * destruct (Spec.least (y :: zs)) as [k|] eqn:E; [|reflexivity].
        f_equal.
        assert (Hk : In k (y :: zs)).
        { clear -E. revert k E. generalize (y :: zs) as l.
          induction l as [|a l IHl]; intros k E; simpl in E; [discriminate|].
          destruct (Spec.least l) as [k'|] eqn:E'.
          - injection E as <-. destruct (Z.min_spec a k') as [[_ ->]|[_ ->]].
            + left. reflexivity.
            + right. apply IHl. reflexivity.
          - injection E as <-. left. reflexivity. }
        rewrite Forall_forall in Hrest. specialize (Hrest _ Hk). lia.
      * rewrite (IH Hin Hrest). f_equal. lia.
Qed.

Lemma greatest_spec (zs : list Z) (m : Z) :
  In m zs -> Forall (fun x => x <= m) zs -> Spec.greatest zs = Some m.
Proof.
  induction zs as [|z zs IH]; intros Hin Hall; simpl.
  - contradiction.
  - inversion Hall as [|? ? Hz Hrest]; subst.
    destruct zs as [|y zs].
    + simpl. destruct Hin as [->|[]]. reflexivity.
    + destruct Hin as [->|Hin].
      * destruct (Spec.greatest (y :: zs)) as [k|] eqn:E; [|reflexivity].
        f_equal.
        assert (Hk : In k (y :: zs)).
        { clear -E. revert k E. generalize (y :: zs) as l.
          induction l as [|a l IHl]; intros k E; simpl in E; [discriminate|].
          destruct (Spec.greatest l) as [k'|] eqn:E'.
          - injection E as <-. destruct (Z.max_spec a k') as [[_ ->]|[_ ->]].
            + right. apply IHl. reflexivity.
            + left. reflexivity.
          - injection E as <-. left. reflexivity. }
        rewrite Forall_forall in Hrest. specialize (Hrest _ Hk). lia.
      * rewrite (IH Hin Hrest). f_equal. lia.
Qed.

Lemma sorted_first (l : list Z) :
  StronglySorted Z.le l ->
  match hd_error l with
  | Some m => In m l /\ Forall (fun x => m <= x) l
  | None => l = []
  end.
Proof.
  intros Hs. destruct l as [|a l]; simpl; [reflexivity|].
  inversion Hs; subst. split; [left; reflexivity|].
  constructor; [lia|assumption].
Qed.

Lemma sorted_last (l : list Z) :
  StronglySorted Z.le l ->
  match last (map Some l) None with
  | Some m => In m l /\ Forall (fun x => x <= m) l
  | None => l = []
  end.
Proof.
  induction l as [|a l IH]; intros Hs; [reflexivity|].
  inversion Hs as [|? ? Hl Ha]; subst.
  specialize (IH Hl).
  destruct l as [|b l].
  - simpl. split; [left; reflexivity|]. constructor; [lia|constructor].
  - change (last (map Some (a :: b :: l)) None) with (last (map Some (b :: l)) None).
    destruct (last (map Some (b :: l)) None) as [m|].
    + destruct IH as [Hin Hall]. split; [right; exact Hin|].
      constructor; [|exact Hall].
      rewrite Forall_forall in Ha. apply Ha, Hin.
    + discriminate.
Qed.

Lemma first_date_least (zs : list Z) :
  hd_error (JS.Array_sort ascending zs) = Spec.least zs.
Proof.
  pose proof (Array_sort_sorted ascending (fun z => z) (fun x y => eq_refl) zs) as Hs.
  pose proof (Array_sort_perm ascending zs) as Hp.
  pose proof (sorted_first _ Hs) as Hf.
  destruct (hd_error (JS.Array_sort ascending zs)) as [m|].
  - destruct Hf as [Hin Hall]. symmetry. apply least_spec.
    + eapply Permutation_in; eassumption.
    + eapply Permutation_Forall; eassumption.
  - rewrite Hf in Hp. apply Permutation_nil in Hp. subst. reflexivity.
Qed.

Lemma last_date_greatest (zs : list Z) :
  last (map Some (JS.Array_sort ascending zs)) None = Spec.greatest zs.
Proof.
  pose proof (Array_sort_sorted ascending (fun z => z) (fun x y => eq_refl) zs) as Hs.
  pose proof (Array_sort_perm ascending zs) as Hp.
  pose proof (sorted_last _ Hs) as Hf.
  destruct (last (map Some (JS.Array_sort ascending zs)) None) as [m|].
  - destruct Hf as [Hin Hall]. symmetry. apply greatest_spec.
    + eapply Permutation_in; eassumption.
    + eapply Permutation_Forall; eassumption.
  - rewrite Hf in Hp. apply Permutation_nil in Hp. subst. reflexivity.
Qed.

Lemma earliest_least (posts : list Tweet) :
  Spec.earliest posts = Spec.least (Spec.dates posts).
Proof.
  induction posts as [|t posts IH]; simpl; [reflexivity|].
  destruct (timestamp t); simpl; rewrite IH; reflexivity.
Qed.

Lemma latest_greatest (posts : list Tweet) :
  Spec.latest posts = Spec.greatest (Spec.dates posts).
Proof.
  induction posts as [|t posts IH]; simpl; [reflexivity|].
  destruct (timestamp t); simpl; rewrite IH; reflexivity.
Qed.

(** [validTweets.map((t) => t.timestamp)] holds the timestamps that are
    numbers, and one [undefined] for each post without the property. *)
Lemma defined_dates (posts : list Tweet) :
  JS.defined (map timestamp_value (filter has_timestamp posts)) = Spec.dates posts.
Proof.
  induction posts as [|t posts IH]; simpl; [reflexivity|].
  unfold has_timestamp at 1.
  destruct (timestamp t) eqn:E; [exact IH| |];
    cbn [map]; unfold timestamp_value at 1; rewrite E; cbn [JS.defined];
    rewrite IH; reflexivity.
Qed.

Lemma undefineds_unstamped (posts : list Tweet) :
  JS.undefineds (map timestamp_value (filter has_timestamp posts))
  = map (fun _ => None) (Spec.unstamped posts).
Proof.
  unfold JS.undefineds, Spec.unstamped.
  induction posts as [|t posts IH]; simpl; [reflexivity|].
  unfold has_timestamp at 1.
  destruct (timestamp t) eqn:E; [exact IH| |];
    cbn [map]; unfold timestamp_value at 1; rewrite E; cbn [filter map];
    rewrite IH; reflexivity.
Qed.

Lemma validDates_shape (posts : list Tweet) :
  Props.validDates posts
  = (map Some (JS.Array_sort ascending (Spec.dates posts))
       ++ map (fun _ => None) (Spec.unstamped posts))%list.
Proof.
  unfold Props.validDates, JS.Array_sort_undefined_last.
  rewrite defined_dates, undefineds_unstamped. reflexivity.
Qed.

Lemma least_none (zs : list Z) : Spec.least zs = None -> zs = [].
Proof.
  destruct zs as [|z zs]; [reflexivity|]. simpl.
  destruct (Spec.least zs); discriminate.
Qed.

Lemma greatest_none (zs : list Z) : Spec.greatest zs = None -> zs = [].
Proof.
  destruct zs as [|z zs]; [reflexivity|]. simpl.
  destruct (Spec.greatest zs); discriminate.
Qed.

(** [validDates[0]] is the earliest timestamp that is a number, and
    [undefined] when there is none. *)
Lemma validDates_first (posts : list Tweet) :
  hd None (Props.validDates posts) = Spec.earliest posts.
Proof.
  rewrite validDates_shape, earliest_least, <- first_date_least.
  destruct (JS.Array_sort ascending (Spec.dates posts)) as [|m l]; simpl; [|reflexivity].
  destruct (Spec.unstamped posts); reflexivity.
Qed.

Lemma last_of_app {A : Type} (l l' : list A) (d : A) :
  l' <> [] -> last (l ++ l')%list d = last l' d.
Proof.
  intros Hne. induction l as [|a l IH]; [reflexivity|].
  cbn [app]. destruct (l ++ l')%list as [|b r] eqn:E.
  - apply app_eq_nil in E. destruct E as [_ E]. contradiction.
  - exact IH.
Qed.

Lemma last_nones {A B : Type} (l : list (option A)) (t : B) (ts : list B) :
  last (l ++ map (fun _ => None) (t :: ts))%list None = None.
Proof.
  rewrite last_of_app by discriminate.
  revert t. induction ts as [|u ts IH]; intros t; [reflexivity|].
  exact (IH u).
Qed.

(** [validDates[validDates.length - 1]] is [undefined] as soon as one post
    lacks the property, and the latest timestamp otherwise. *)
Lemma validDates_last (posts : list Tweet) :
  last (Props.validDates posts) None
  = match Spec.unstamped posts with
    | [] => Spec.latest posts
    | _ :: _ => None
    end.
Proof.
  rewrite validDates_shape.
  destruct (Spec.unstamped posts) as [|t ts].
  - cbn [map]. rewrite app_nil_r, latest_greatest. apply last_date_greatest.
  - apply last_nones.
Qed.

Lemma validDates_nil (posts : list Tweet) :
  Props.validDates posts = [] <-> Spec.dates posts = [] /\ Spec.unstamped posts = [].
Proof.
  rewrite validDates_shape. split.
  - intros H. apply app_eq_nil in H. destruct H as [H1 H2].
    apply map_eq_nil in H1, H2. split; [|exact H2].
    pose proof (Array_sort_perm ascending (Spec.dates posts)) as Hp.
    rewrite H1 in Hp. apply Permutation_nil in Hp. exact Hp.
  - intros [H1 H2]. rewrite H1, H2. reflexivity.
Qed.

Lemma least_in (zs : list Z) (m : Z) : Spec.least zs = Some m -> In m zs.
Proof.
  revert m. induction zs as [|z zs IH]; intros m H; simpl in H; [discriminate|].
  destruct (Spec.least zs) as [k|].
  - injection H as <-. destruct (Z.min_spec z k) as [[_ ->]|[_ ->]].
    + left. reflexivity.
    + right. apply IH. reflexivity.
  - injection H as <-. left. reflexivity.
Qed.

Lemma greatest_in (zs : list Z) (m : Z) : Spec.greatest zs = Some m -> In m zs.
Proof.
  revert m. induction zs as [|z zs IH]; intros m H; simpl in H; [discriminate|].
  destruct (Spec.greatest zs) as [k|].
  - injection H as <-. destruct (Z.max_spec z k) as [[_ ->]|[_ ->]].
    + right. apply IH. reflexivity.
    + left. reflexivity.
  - injection H as <-. left. reflexivity.
Qed.

Lemma dates_in (posts : list Tweet) (ms : Z) :
  In ms (Spec.dates posts) <-> exists t, In t posts /\ timestamp t = At ms.
Proof.
  induction posts as [|t posts IH]; simpl.
  - split; [contradiction|]. intros (t & [] & _).
  - destruct (timestamp t) eqn:E; simpl; rewrite IH; split.
    + intros (u & Hu & Hm). exists u. split; [right; exact Hu|exact Hm].
    + intros (u & [<-|Hu] & Hm); [congruence|]. exists u. split; assumption.
    + intros (u & Hu & Hm). exists u. split; [right; exact Hu|exact Hm].
    + intros (u & [<-|Hu] & Hm); [congruence|]. exists u. split; assumption.
    + intros [<-|(u & Hu & Hm)].
      * exists t. split; [left; reflexivity|exact E].
      * exists u. split; [right; exact Hu|exact Hm].
    + intros (u & [<-|Hu] & Hm).
      * left. congruence.
      * right. exists u. split; assumption.
Qed.

End DateFacts.

(** ** The analytics report *)

Section Analytics.

Variable format_date : Z -> string.

(** C7.  [generateAnalytics] on the empty list returns the zero report: every
    count and every engagement total is 0, [averageLikes] is the string
    ["0.00"], both ends of the time range are ["N/A"] and the list of top
    tweets is empty. *)
Theorem aggregate_empty_is_zero_report :
  exists r : Analytics,
    report format_date [] = inr r
    /\ totalTweets r = 0%nat /\ directTweets r = 0%nat
    /\ replyCount r = 0%nat /\ retweets r = 0%nat
    /\ withImages (contentTypes r) = 0%nat /\ withVideos (contentTypes r) = 0%nat
    /\ withLinks (contentTypes r) = 0%nat /\ textOnly (contentTypes r) = 0%nat
    /\ totalLikes (engagement r) = 0%float
    /\ totalRetweetCount (engagement r) = 0%float
    /\ totalReplies (engagement r) = 0%float
    /\ averageLikes (engagement r) = "0.00"
    /\ range_start (timeRange r) = "N/A" /\ range_end (timeRange r) = "N/A"
    /\ topTweets (engagement r) = [].
Proof.
  eexists. split; [reflexivity|]. simpl. repeat split; reflexivity.
Qed.

(** The parts of a report on a list that is not empty. *)
Lemma report_fields (tweets : list Tweet) (r : Analytics) :
  tweets <> [] ->
  report format_date tweets = inr r ->
  JS.Array_map_throwing top_entry (Props.top_posts tweets) = inr (topTweets (engagement r))
  /\ date_or_NA format_date (Props.validDates tweets) (hd None (Props.validDates tweets))
     = inr (range_start (timeRange r))
  /\ date_or_NA format_date (Props.validDates tweets) (last (Props.validDates tweets) None)
     = inr (range_end (timeRange r))
  /\ totalTweets r = List.length tweets
  /\ directTweets r = DataOrganizer.count (fun t => negb (isReply t) && negb (isRetweet t)) tweets
  /\ replyCount r = DataOrganizer.count isReply tweets
  /\ retweets r = DataOrganizer.count isRetweet tweets
  /\ totalLikes (engagement r) = engagement_sum likes (Spec.non_retweets tweets)
  /\ totalRetweetCount (engagement r) = engagement_sum retweetCount (Spec.non_retweets tweets)
  /\ totalReplies (engagement r) = engagement_sum replies (Spec.non_retweets tweets)
  /\ averageLikes (engagement r)
     = JS.toFixed2
         (JS.Number_div
            (engagement_sum likes (Spec.non_retweets tweets))
            (JS.Number_of_Z (Z.of_nat (List.length (Spec.non_retweets tweets)))))
  /\ contentTypes r
     = {| withImages := DataOrganizer.count (fun t => JS.nonempty (photos t)) tweets;
          withVideos := DataOrganizer.count (fun t => JS.nonempty (videos t)) tweets;
          withLinks := DataOrganizer.count (fun t => JS.nonempty (urls t)) tweets;
          textOnly :=
            DataOrganizer.count (fun t => negb (JS.nonempty (photos t))
                                          && negb (JS.nonempty (videos t))
                                          && negb (JS.nonempty (urls t))) tweets |}.
Proof.
  intros Hne H. destruct tweets as [|t posts]; [congruence|].
  unfold report, generateAnalytics in H. cbv zeta in H.
  fold (Props.top_posts (t :: posts)) in H.
  fold (Props.validDates (t :: posts)) in H.
  destruct (JS.Array_map_throwing top_entry (Props.top_posts (t :: posts)))
    as [e|top]; [discriminate H|].
  destruct (date_or_NA format_date (Props.validDates (t :: posts))
              (hd None (Props.validDates (t :: posts)))) as [e|first]; [discriminate H|].
  destruct (date_or_NA format_date (Props.validDates (t :: posts))
              (last (Props.validDates (t :: posts)) None)) as [e|final]; [discriminate H|].
  cbn [snd] in H. injection H as <-.
  repeat split; reflexivity.
Qed.

(** The log does not depend on whether the report comes about. *)
Lemma generateAnalytics_log (t : Tweet) (posts : list Tweet) :
  fst (generateAnalytics format_date (t :: posts))
  = if (0 <? List.length (filter (fun t => negb (has_timestamp t)) (t :: posts)))%nat
    then [LogWarn (invalid_dates_warning
                     (List.length (filter (fun t => negb (has_timestamp t)) (t :: posts))))]
    else [].
Proof.
  unfold generateAnalytics. cbv zeta.
  destruct (JS.Array_map_throwing _ _); [reflexivity|].
  destruct (date_or_NA _ _ _); [reflexivity|].
  destruct (date_or_NA _ _ _); reflexivity.
Qed.

(** Which error is thrown, if one is, and the report otherwise. *)
Lemma report_cases (t : Tweet) (posts : list Tweet) :
  let tweets := t :: posts in
  match JS.Array_map_throwing top_entry (Props.top_posts tweets),
        date_or_NA format_date (Props.validDates tweets) (hd None (Props.validDates tweets)),
        date_or_NA format_date (Props.validDates tweets) (last (Props.validDates tweets) None)
  with
  | inl e, _, _ => report format_date tweets = inl e
  | inr _, inl e, _ => report format_date tweets = inl e
  | inr _, inr _, inl e => report format_date tweets = inl e
  | inr _, inr _, inr _ => exists r, report format_date tweets = inr r
  end.
Proof.
  cbv zeta. unfold report, generateAnalytics. cbv zeta.
  fold (Props.top_posts (t :: posts)).
  fold (Props.validDates (t :: posts)).
  destruct (JS.Array_map_throwing top_entry (Props.top_posts (t :: posts)))
    as [e|top]; [reflexivity|].
  destruct (date_or_NA format_date (Props.validDates (t :: posts))
              (hd None (Props.validDates (t :: posts)))) as [e|first]; [reflexivity|].
  destruct (date_or_NA format_date (Props.validDates (t :: posts))
              (last (Props.validDates (t :: posts)) None)) as [e|final]; [reflexivity|].
  eexists. reflexivity.
Qed.

(** The mean behind [averageLikes]: for a list with at least one post, the
    sum of the likes of the posts that are not retweets, divided by their
    number, printed with [toFixed(2)]. *)
Lemma averageLikes_quotient (t : Tweet) (posts : list Tweet) (r : Analytics) :
  report format_date (t :: posts) = inr r ->
  averageLikes (engagement r)
  = JS.toFixed2
      (JS.Number_div
         (engagement_sum likes (Spec.non_retweets (t :: posts)))
         (JS.Number_of_Z (Z.of_nat (List.length (Spec.non_retweets (t :: posts)))))).
Proof.
  intros H. apply report_fields in H; [|discriminate]. apply H.
Qed.

(** When every post of a non-empty list is a retweet the quotient is 0 / 0. *)
Lemma averageLikes_all_retweets (t : Tweet) (posts : list Tweet) (r : Analytics) :
  Spec.non_retweets (t :: posts) = [] ->
  report format_date (t :: posts) = inr r ->
  averageLikes (engagement r) = "NaN".
Proof.
  intros H Hr. rewrite (averageLikes_quotient _ _ _ Hr), H. vm_compute. reflexivity.
Qed.

(** C1.  On a list that holds one retweet and nothing else, the posts that are
    not retweets are none, and [averageLikes] is the string ["NaN"], not
    ["0.00"]. *)
Theorem averageLikes_of_one_retweet :
  Spec.non_retweets [Sample.retweet "1" (Some 100)] = []
  /\ exists r : Analytics,
       report format_date [Sample.retweet "1" (Some 100)] = inr r
       /\ averageLikes (engagement r) = "NaN".
Proof.
  split; [reflexivity|]. eexists. split; [vm_compute; reflexivity|].
  vm_compute. reflexivity.
Qed.

(** Three posts with likes 10, 30 and 20: the mean is printed as ["20.00"] and
    the top tweets come in the order 30, 20, 10. *)
Example three_posts :
  exists r : Analytics,
    report format_date [Sample.post "a" (Some 10); Sample.post "b" (Some 30);
                        Sample.post "c" (Some 20)] = inr r
    /\ averageLikes (engagement r) = "20.00"
    /\ map top_likes (topTweets (engagement r)) = [Some 30; Some 20; Some 10].
Proof.
  eexists. split; [vm_compute; reflexivity|]. split; vm_compute; reflexivity.
Qed.

(** A retweet counts as a post and as a retweet, and adds nothing to the
    likes. *)
Example retweet_outside_engagement :
  exists r : Analytics,
    report format_date [Sample.post "a" (Some 10); Sample.retweet "b" (Some 100)] = inr r
    /\ totalTweets r = 2%nat /\ retweets r = 1%nat
    /\ totalLikes (engagement r) = 10%float /\ averageLikes (engagement r) = "10.00".
Proof.
  eexists. split; [vm_compute; reflexivity|]. repeat split; vm_compute; reflexivity.
Qed.

(** The totals are sums of binary64 numbers: from 2^53 on they depend on the
    order of the posts. *)
Example totals_are_binary64 :
  exists r r' : Analytics,
    report format_date [Sample.post "a" (Some (2 ^ 53)); Sample.post "b" (Some 1);
                        Sample.post "c" (Some 1)] = inr r
    /\ report format_date [Sample.post "b" (Some 1); Sample.post "c" (Some 1);
                           Sample.post "a" (Some (2 ^ 53))] = inr r'
    /\ totalLikes (engagement r) = 9007199254740992%float
    /\ totalLikes (engagement r') = 9007199254740994%float.
Proof.
  do 2 eexists. split; [vm_compute; reflexivity|]. split; [vm_compute; reflexivity|].
  split; vm_compute; reflexivity.
Qed.

Lemma by_likes_desc_rank (a b : Tweet) :
  by_likes_desc a b = - Spec.likes_of a - - Spec.likes_of b.
Proof.
  unfold by_likes_desc, Spec.likes_of, JS.or_zero.
  destruct (likes a), (likes b); lia.
Qed.

(** What the callback of the top list makes of the posts it is given. *)
Lemma top_entries_show (l : list Tweet) (top : list TopTweet) :
  JS.Array_map_throwing top_entry l = inr top -> Forall2 Spec.shows top l.
Proof.
  revert top. induction l as [|t l IH]; intros top H; simpl in H.
  - injection H as <-. constructor.
  - unfold top_entry at 1 in H. destruct (text t) as [s|] eqn:E; [|discriminate H].
    destruct (JS.Array_map_throwing top_entry l) as [e|rest]; [discriminate H|].
    injection H as <-. constructor; [|apply IH; reflexivity].
    unfold Spec.shows. cbn [top_id top_text top_likes top_retweetCount top_url].
    repeat split; try reflexivity.
    exists s. split; [exact E|reflexivity].
Qed.

(** The callback throws on the first post without text, and on no other. *)
Lemma top_entries_exist (l : list Tweet) :
  Forall (fun t => exists s, text t = Some s) l ->
  exists top, JS.Array_map_throwing top_entry l = inr top.
Proof.
  induction 1 as [|t l [s Hs] _ [top IH]]; simpl.
  - eexists. reflexivity.
  - unfold top_entry at 1. rewrite Hs, IH. eexists. reflexivity.
Qed.

Lemma top_entries_throw (l : list Tweet) (t : Tweet) :
  In t l -> text t = None ->
  JS.Array_map_throwing top_entry l = inl no_text_error.
Proof.
  induction l as [|u l IH]; intros Hin Ht; [contradiction|].
  simpl. unfold top_entry at 1.
  destruct (text u) as [s|] eqn:E; [|reflexivity].
  destruct Hin as [->|Hin]; [congruence|].
  rewrite (IH Hin Ht). reflexivity.
Qed.

Lemma top_posts_of (posts : list Tweet) :
  Props.top_posts posts = firstn 5 (JS.Array_sort by_likes_desc (Spec.non_retweets posts)).
Proof.
  reflexivity.
Qed.

Lemma top_posts_in (posts : list Tweet) (t : Tweet) :
  In t (Props.top_posts posts) -> In t posts.
Proof.
  rewrite top_posts_of. intros H.
  assert (H' : In t (JS.Array_sort by_likes_desc (Spec.non_retweets posts))).
  { rewrite <- (firstn_skipn 5). apply in_or_app. left. exact H. }
  apply (Permutation_in _ (Array_sort_perm by_likes_desc _)) in H'. rename H' into Hin.
  clear H. rename Hin into H.
  apply filter_In in H. apply H.
Qed.

(** The time range of a report: its ends show the earliest and the latest
    timestamp among those that are numbers; and there is a report only when
    no post lacks the property and these two are valid time values. *)
Lemma timeRange_of_report (posts : list Tweet) (r : Analytics) :
  report format_date posts = inr r ->
  range_start (timeRange r) = Spec.shown_date format_date (Spec.earliest posts)
  /\ range_end (timeRange r) = Spec.shown_date format_date (Spec.latest posts)
  /\ Spec.unstamped posts = []
  /\ (forall ms, Spec.earliest posts = Some ms -> Spec.valid_time ms)
  /\ (forall ms, Spec.latest posts = Some ms -> Spec.valid_time ms).
Proof.
  intros H. destruct posts as [|t posts].
  - injection H as <-.
    split; [reflexivity|]. split; [reflexivity|]. split; [reflexivity|].
    split; intros ms E; discriminate E.
  - apply report_fields in H; [|discriminate].
    destruct H as (_ & Hfirst & Hfinal & _).
    rewrite validDates_first in Hfirst. rewrite validDates_last in Hfinal.
    unfold date_or_NA in Hfirst, Hfinal.
    destruct (Props.validDates (t :: posts)) as [|d ds] eqn:Hd.
    + apply validDates_nil in Hd. destruct Hd as [Hdates Hun].
      injection Hfirst as <-. injection Hfinal as <-.
      rewrite earliest_least, latest_greatest, Hdates. simpl.
      split; [reflexivity|]. split; [reflexivity|]. split; [exact Hun|].
      split; intros ms E; discriminate E.
    + assert (Hun : Spec.unstamped (t :: posts) = []).
      { destruct (Spec.unstamped (t :: posts)); [reflexivity|discriminate Hfinal]. }
      rewrite Hun in Hfinal. unfold format in Hfirst, Hfinal.
      destruct (Spec.earliest (t :: posts)) as [a|]; [|discriminate Hfirst].
      destruct (Spec.latest (t :: posts)) as [b|]; [|discriminate Hfinal].
      destruct (Z.abs a <=? max_time) eqn:Ea; [|discriminate Hfirst].
      destruct (Z.abs b <=? max_time) eqn:Eb; [|discriminate Hfinal].
      injection Hfirst as <-. injection Hfinal as <-.
      apply Z.leb_le in Ea, Eb. unfold max_time in Ea, Eb.
      split; [reflexivity|]. split; [reflexivity|]. split; [exact Hun|].
      split; intros ms E; injection E as <-; unfold Spec.valid_time; lia.
Qed.

Lemma well_formed_unstamped (posts : list Tweet) :
  Forall Spec.well_formed posts -> Spec.unstamped posts = [].
Proof.
  unfold Spec.unstamped.
  induction 1 as [|u l [_ Hu] _ IH]; [reflexivity|]. simpl.
  destruct (timestamp u); [exact IH|contradiction|exact IH].
Qed.

(** There is a report on every list of posts that have a text and a
    timestamp that is null or a valid time value. *)
Lemma report_exists (posts : list Tweet) :
  Forall Spec.well_formed posts -> exists r, report format_date posts = inr r.
Proof.
  intros Hwf. destruct posts as [|t posts]; [eexists; reflexivity|].
  pose proof (report_cases t posts) as Hc. cbv zeta in Hc.
  assert (Htop : exists top,
             JS.Array_map_throwing top_entry (Props.top_posts (t :: posts)) = inr top).
  { apply top_entries_exist. apply Forall_forall. intros u Hu.
    apply top_posts_in in Hu. rewrite Forall_forall in Hwf. apply (Hwf u Hu). }
  destruct Htop as [top Htop]. rewrite Htop in Hc.
  assert (Hun : Spec.unstamped (t :: posts) = []).
  { apply well_formed_unstamped. exact Hwf. }
  assert (Hvalid : forall ms, In ms (Spec.dates (t :: posts)) -> (Z.abs ms <=? max_time) = true).
  { intros ms Hin. apply dates_in in Hin. destruct Hin as (u & Hu & Hm).
    rewrite Forall_forall in Hwf. destruct (Hwf u Hu) as [_ Hv]. rewrite Hm in Hv.
    unfold Spec.valid_time in Hv. apply Z.leb_le. unfold max_time. lia. }
  rewrite validDates_first, validDates_last, Hun in Hc.
  unfold date_or_NA in Hc.
  destruct (Props.validDates (t :: posts)) as [|d ds] eqn:Hd; [exact Hc|].
  unfold format in Hc.
  destruct (Spec.earliest (t :: posts)) as [a|] eqn:Ea.
  - rewrite earliest_least in Ea. apply least_in in Ea. rewrite (Hvalid a Ea) in Hc.
    destruct (Spec.latest (t :: posts)) as [b|] eqn:Eb.
    + rewrite latest_greatest in Eb. apply greatest_in in Eb.
      rewrite (Hvalid b Eb) in Hc. exact Hc.
    + rewrite latest_greatest in Eb. apply greatest_none in Eb.
      rewrite Eb in Ea. contradiction.
  - exfalso. rewrite earliest_least in Ea. apply least_none in Ea.
    assert (Hnil : Props.validDates (t :: posts) = []).
    { apply validDates_nil. split; assumption. }
    congruence.
Qed.


(** There is one such arrangement only: any list sorted by descending likes
    that keeps the posts with equal likes in their original order is the
    sorted array of the source. *)
Lemma stable_arrangement_unique (posts sorted : list Tweet) :
  Spec.likes_descending sorted ->
  Spec.same_order_on_ties (Spec.non_retweets posts) sorted ->
  sorted = JS.Array_sort by_likes_desc (Spec.non_retweets posts).
Proof.
  intros Hs Ht.
  apply (stable_sorted_unique (fun t => - Spec.likes_of t)).
  - eapply StronglySorted_weaken; [|exact Hs]. intros a b Hab. simpl in Hab. lia.
  - apply (Array_sort_sorted by_likes_desc _ by_likes_desc_rank).
  - intros v.
    rewrite (Array_sort_stable by_likes_desc _ by_likes_desc_rank).
    assert (E : forall l : list Tweet,
               filter (fun t => - Spec.likes_of t =? v) l
               = filter (fun t => Spec.likes_of t =? - v) l).
    { intros l. apply filter_ext. intros a.
      destruct (- Spec.likes_of a =? v) eqn:E1;
        destruct (Spec.likes_of a =? - v) eqn:E2;
        try reflexivity;
        rewrite ?Z.eqb_eq, ?Z.eqb_neq in *; lia. }
    rewrite !E. apply Ht.
Qed.

(** A post without text among the top posts: no report, a [TypeError]. *)
Lemma textless_top_post_throws (posts : list Tweet) (t : Tweet) :
  In t (Props.top_posts posts) -> text t = None ->
  report format_date posts = inl no_text_error.
Proof.
  intros Hin Ht. destruct posts as [|u posts]; [contradiction|].
  pose proof (report_cases u posts) as Hc. cbv zeta in Hc.
  rewrite (top_entries_throw _ _ Hin Ht) in Hc. exact Hc.
Qed.

End Analytics.


(** ** The time range *)

Section TimeRangeFacts.

Variable format_date : Z -> string.

Lemma undated_length (posts : list Tweet) :
  (List.length (filter has_timestamp posts) + List.length (Spec.undated posts)
   = List.length posts)%nat.
Proof.
  unfold Spec.undated.
  induction posts as [|t posts IH]; simpl; [reflexivity|].
  unfold has_timestamp at 1. destruct (timestamp t); simpl; lia.
Qed.

Lemma undated_invalid (posts : list Tweet) :
  filter (fun t => negb (has_timestamp t)) posts = Spec.undated posts.
Proof.
  unfold Spec.undated. apply filter_ext. intros t.
  unfold has_timestamp. destruct (timestamp t); reflexivity.
Qed.

(** The posts whose timestamp is null: the warning names their number,
    whether or not a report comes about; in a report they are counted in
    [totalTweets], and the ends of the time range are the earliest and the
    latest of the timestamps that are numbers. *)
Lemma null_timestamps_excluded_but_counted (posts : list Tweet) :
  fst (generateAnalytics format_date posts)
  = match Spec.undated posts, posts with
    | _ :: _, _ =>
        [LogWarn ("⚠️  Found " ++ JS.show_nat (List.length (Spec.undated posts))
                  ++ " tweets with invalid or missing dates. They will be excluded from analytics.")%string]
    | [], [] => [LogWarn "⚠️  No tweets to analyze."]
    | [], _ :: _ => []
    end
  /\ forall r : Analytics,
       report format_date posts = inr r ->
       totalTweets r = List.length posts
       /\ range_start (timeRange r)
          = match Spec.earliest posts with
            | Some ms => format_date ms
            | None => "N/A"
            end
       /\ range_end (timeRange r)
          = match Spec.latest posts with
            | Some ms => format_date ms
            | None => "N/A"
            end.
Proof.
  split.
  - destruct posts as [|t posts]; [reflexivity|].
    rewrite generateAnalytics_log, undated_invalid.
    destruct (Spec.undated (t :: posts)); reflexivity.
  - intros r Hr. pose proof (timeRange_of_report format_date _ _ Hr) as (Hs & He & _).
    split; [|split; assumption].
    destruct posts as [|t posts]; [injection Hr as <-; reflexivity|].
    apply report_fields in Hr; [|discriminate]. apply Hr.
Qed.

(** Of a dated and an undated post, both are counted, the time range starts
    and ends at the dated one, and the warning names one post. *)
Example one_undated_post :
  let posts := [Sample.undated_post "u"; Sample.post "a" (Some 10)] in
  exists r : Analytics,
    report Sample.plain_date posts = inr r
    /\ totalTweets r = 2%nat
    /\ range_start (timeRange r) = "1700000000"
    /\ range_end (timeRange r) = "1700000000"
    /\ fst (generateAnalytics Sample.plain_date posts)
       = [LogWarn "⚠️  Found 1 tweets with invalid or missing dates. They will be excluded from analytics."].
Proof.
  cbv zeta. eexists. split; [vm_compute; reflexivity|].
  repeat split; vm_compute; reflexivity.
Qed.

(** A post without the property is not excluded: it stays among the valid
    posts, and the end of the time range cannot be formatted. *)
Lemma unstamped_post_throws (posts : list Tweet) (t : Tweet) :
  In t posts -> timestamp t = Absent ->
  exists e, report format_date posts = inl e.
Proof.
  intros Hin Ht. destruct (report format_date posts) as [e|r] eqn:Hr.
  - exists e. reflexivity.
  - exfalso. apply timeRange_of_report in Hr. destruct Hr as (_ & _ & Hun & _).
    assert (Hu : In t (Spec.unstamped posts)).
    { apply filter_In. split; [exact Hin|]. rewrite Ht. reflexivity. }
    rewrite Hun in Hu. contradiction.
Qed.

(** C10.  A post whose timestamp is null is excluded from the time range,
    counted, and named in the warning; a post that has no timestamp is not:
    on a list that holds one such post, alone or after a dated post,
    [generateAnalytics] logs nothing and throws the error of [format] on an
    invalid date, so there is no report in which the post could be counted;
    and so does a post whose timestamp is a number beyond the valid time
    values. *)
Theorem missing_timestamp_is_not_excluded :
  (exists r : Analytics,
      generateAnalytics format_date [Sample.post "a" (Some 10); Sample.undated_post "0"]
      = ([LogWarn "⚠️  Found 1 tweets with invalid or missing dates. They will be excluded from analytics."],
         inr r)
      /\ totalTweets r = 2%nat
      /\ range_start (timeRange r) = format_date 1700000000
      /\ range_end (timeRange r) = format_date 1700000000)
  /\ timestamp (Sample.unstamped_post "1") = Absent
  /\ generateAnalytics format_date [Sample.unstamped_post "1"]
     = ([], inl "Invalid time value")
  /\ generateAnalytics format_date [Sample.post "a" (Some 10); Sample.unstamped_post "1"]
     = ([], inl "Invalid time value")
  /\ generateAnalytics format_date
       [Sample.post "a" (Some 10);
        {| id := Some "2"; username := None; text := Some (JS.ustr "late");
           timestamp := At (8640000000000000 + 1);
           isReply := false; isRetweet := false; likes := None; retweetCount := None;
           replies := None; photos := None; videos := None; urls := None;
           permanentUrl := None; inReplyToStatusId := None; inReplyToText := None |}]
     = ([], inl "Invalid time value").
Proof.
  split.
  - eexists. split; [vm_compute; reflexivity|]. repeat split; reflexivity.
  - split; [reflexivity|]. repeat split; vm_compute; reflexivity.
Qed.

End TimeRangeFacts.

(** ** The cap on the collection *)

(** C5, as stated, fails: the profile lookup succeeds and reports 0 posts, and
    the cap is the configured maximum, not the smaller of the two. *)
Lemma maxWanted_ignores_zero_total :
  maxWanted Sample.a_config (Profile (Some 0)) = 10000
  /\ Z.min (maxTweets Sample.a_config) 0 = 0
  /\ maxWanted Sample.a_config (Profile (Some 0)) <> Z.min (maxTweets Sample.a_config) 0.
Proof.
  split; [reflexivity|]. split; [reflexivity|]. discriminate.
Qed.

(** C5, amended.  When the profile lookup succeeds and reports a total other
    than 0, the cap is the smaller of the configured maximum and that total;
    when the lookup fails, or reports 0 or no total, the cap is the smaller of
    the configured maximum and 10^9. *)
Theorem maxWanted_cases (cfg : Config) (p : ProfileResult) :
  maxWanted cfg p
  = match p with
    | Profile (Some total) =>
        if total =? 0 then Z.min (maxTweets cfg) (10 ^ 9)
        else Z.min (maxTweets cfg) total
    | Profile None => Z.min (maxTweets cfg) (10 ^ 9)
    | ProfileThrows _ => Z.min (maxTweets cfg) (10 ^ 9)
    end.
Proof.
  unfold maxWanted. destruct p as [msg|[total|]]; simpl; try reflexivity.
  destruct (total =? 0); reflexivity.
Qed.

(** The fallback is the configured maximum as long as that is at most 10^9. *)
Lemma maxWanted_fallback (cfg : Config) (msg : string) :
  maxTweets cfg <= 10 ^ 9 -> maxWanted cfg (ProfileThrows msg) = maxTweets cfg.
Proof.
  intros H. unfold maxWanted. simpl. lia.
Qed.

(** ** The login loop *)


Section LoginFacts.

Variable w : World.






(** The loop does not run out of fuel: any two amounts that cover the
    attempts still allowed give the same run. *)
Lemma login_loop_fuel (f1 f2 : nat) (attempt : Z) :
  (Z.to_nat (maxRetries (config w) - attempt + 1) <= f1)%nat ->
  (Z.to_nat (maxRetries (config w) - attempt + 1) <= f2)%nat ->
  login_loop w f1 attempt = login_loop w f2 attempt.
Proof.
  revert f2 attempt. induction f1 as [|f1 IH]; intros f2 attempt H1 H2.
  - destruct f2 as [|f2]; [reflexivity|]. simpl.
    destruct (attempt <=? maxRetries (config w)) eqn:E; [|reflexivity].
    apply Z.leb_le in E. lia.
  - destruct f2 as [|f2].
    + simpl.
      destruct (attempt <=? maxRetries (config w)) eqn:E; [|reflexivity].
      apply Z.leb_le in E. lia.
    + simpl.
      destruct (attempt <=? maxRetries (config w)) eqn:E; [|reflexivity].
      destruct (login_error (login_outcome w attempt)); [|reflexivity].
      destruct (attempt >=? maxRetries (config w)) eqn:G; [reflexivity|].
      apply Z.leb_le in E.
      rewrite (IH f2 (attempt + 1)); [reflexivity|lia|lia].
Qed.



End LoginFacts.

(** With no saved session and five failing attempts: five logins, waits of
    3000, 6000, 9000 and 12000 before attempts 2 to 5, and the result is
    false. *)
Example five_failed_logins :
  Spec.logins_and_waits (fst (initializeScraper Sample.a_locked_world))
  = [Login 1; Timeout 3000; Login 2; Timeout 6000; Login 3; Timeout 9000;
     Login 4; Timeout 12000; Login 5]
  /\ snd (initializeScraper Sample.a_locked_world) = false.
Proof.
  split; vm_compute; reflexivity.
Qed.

(** ** The collection loop *)

Section CollectionFacts.

Lemma Map_has_In (k : string) (m : TweetMap) :
  Map_has k m = true <-> In k (map fst m).
Proof.
  induction m as [|[k' v] m IH]; simpl.
  - split; [discriminate|contradiction].
  - rewrite orb_true_iff, IH, String.eqb_eq. split; intros [H|H]; auto.
Qed.

Lemma Map_set_new (k : string) (t : Tweet) (m : TweetMap) :
  Map_has k m = false -> Map_set k t m = (m ++ [(k, t)])%list.
Proof.
  induction m as [|[k' v] m IH]; simpl; intros H; [reflexivity|].
  apply orb_false_iff in H. destruct H as [H1 H2].
  rewrite H1, (IH H2). reflexivity.
Qed.

Lemma consumed_none (source : list (option Tweet)) : Spec.consumed 0 source = [].
Proof.
  destruct source; reflexivity.
Qed.

Lemma raw_id_truthy (raw : option Tweet) (k : string) :
  raw_id raw = Some k -> exists t, raw = Some t /\ id t = Some k.
Proof.
  destruct raw as [t|]; simpl; [|discriminate].
  destruct (JS.truthy (id t)); [|discriminate].
  intros H. exists t. split; [reflexivity|exact H].
Qed.

(** The state in which the loop is left, when it is entered with [res] and
    [cnt] and may still count [n] items. *)
Lemma collect_loop_spec (wanted : Z) (source : list (option Tweet))
      (ending : option string) :
  forall (res : TweetMap) (cnt : Z) (n : nat),
    Z.of_nat n = Z.max 1 (wanted - cnt) ->
    let c := snd (collect_loop wanted source ending res cnt) in
    let taken := Spec.consumed n source in
    source = (taken ++ unconsumed c)%list
    /\ count c = cnt + Z.of_nat (List.length (Spec.ids taken))
    /\ (NoDup (map fst res) -> NoDup (map fst (results c)))
    /\ (forall k, In k (map fst (results c))
                  <-> In k (map fst res) \/ In k (Spec.ids taken))
    /\ (Spec.keyed_by_id res -> Spec.keyed_by_id (results c))
    /\ thrown c = if (List.length (Spec.ids taken) <? n)%nat then ending else None.
Proof.
  induction source as [|raw rest IH]; intros res cnt n Hn; cbv zeta.
  - assert (E : (0 <? n)%nat = true) by (apply Nat.ltb_lt; lia).
    cbn [collect_loop snd Spec.consumed Spec.ids keep List.length app
         unconsumed count results thrown].
    rewrite E. repeat split; try tauto; try lia.
    intros [H|[]]. exact H.
  - destruct n as [|n']; [lia|].
    cbn [collect_loop Spec.consumed].
    destruct (raw_id raw) as [k|] eqn:Hk.
    + destruct (raw_id_truthy raw k Hk) as (t & Hraw & Hid). subst raw.
      unfold Spec.has_id. rewrite Hk.
      set (res' := if Map_has k res then res else Map_set k t res).
      assert (Hkeys : forall k0, In k0 (map fst res') <-> In k0 (map fst res) \/ k0 = k).
      { intros k0. unfold res'. destruct (Map_has k res) eqn:Hh.
        - apply Map_has_In in Hh. split; [tauto|]. intros [H | ->]; assumption.
        - rewrite (Map_set_new _ _ _ Hh), map_app, in_app_iff. simpl.
          split; intros [H|H]; auto. destruct H as [H|[]]; auto. }
      assert (Hnd : NoDup (map fst res) -> NoDup (map fst res')).
      { intros H. unfold res'. destruct (Map_has k res) eqn:Hh; [exact H|].
        rewrite (Map_set_new _ _ _ Hh), map_app. simpl.
        apply NoDup_app; [exact H|repeat constructor; simpl; tauto|].
        intros x Hx [<- | []].
        apply Map_has_In in Hx. congruence. }
      assert (Hky : Spec.keyed_by_id res -> Spec.keyed_by_id res').
      { intros H. unfold res'. destruct (Map_has k res) eqn:Hh; [exact H|].
        rewrite (Map_set_new _ _ _ Hh). apply Forall_app. split; [exact H|].
        constructor; [exact Hid|constructor]. }
      destruct (cnt + 1 >=? wanted) eqn:G.
      * apply Z.geb_le in G.
        assert (n' = 0%nat) by lia. subst n'.
        rewrite consumed_none. cbn [snd unconsumed count results thrown app].
        cbn [Spec.ids keep]. rewrite Hk. cbn [keep List.length].
        split; [reflexivity|].
        split; [lia|].
        split; [tauto|].
        split; [|split; [tauto|reflexivity]].
        intros k0. rewrite Hkeys. simpl. intuition congruence.
      * assert (G' : cnt + 1 < wanted).
        { destruct (Z.geb_spec (cnt + 1) wanted); [discriminate|lia]. }
        specialize (IH res' (cnt + 1) n').
        destruct (collect_loop wanted rest ending res' (cnt + 1)) as [later c] eqn:L.
        cbn [snd] in *. cbv zeta in IH.
        destruct IH as (Hsrc & Hcnt & Hdup & Hin & Hkd & Hth); [lia|].
        cbn [Spec.ids keep]. rewrite Hk. fold (Spec.ids (Spec.consumed n' rest)).
        cbn [List.length app].
        split; [f_equal; exact Hsrc|].
        split; [lia|].
        split; [tauto|].
        split; [|split; [tauto|exact Hth]].
        intros k0. rewrite Hin, Hkeys. simpl. intuition congruence.
    + unfold Spec.has_id. rewrite Hk.
      specialize (IH res cnt (S n') Hn).
      destruct (collect_loop wanted rest ending res cnt) as [later c] eqn:L.
      cbn [snd] in *. cbv zeta in IH.
      destruct IH as (Hsrc & Hcnt & Hdup & Hin & Hkd & Hth).
      cbn [Spec.ids keep]. rewrite Hk. fold (Spec.ids (Spec.consumed (S n') rest)).
      cbn [app].
      split; [f_equal; exact Hsrc|].
      split; [exact Hcnt|].
      split; [exact Hdup|].
      split; [exact Hin|]. split; [exact Hkd|exact Hth].
Qed.

End CollectionFacts.

(** Posts stored under distinct keys, each under its own identifier, have
    distinct identifiers. *)
Lemma keyed_values_unique (m : TweetMap) :
  NoDup (map fst m) -> Spec.keyed_by_id m -> NoDup (map id (Map_values m)).
Proof.
  unfold Map_values, Spec.keyed_by_id. rewrite map_map.
  induction m as [|[k t] m IH]; simpl; intros Hnd Hk; [constructor|].
  inversion Hnd as [|? ? Hnotin Hnd']; subst.
  inversion Hk as [|? ? Hid Hk']; subst. simpl in Hid.
  constructor; [|apply IH; assumption].
  rewrite Hid. intros Hin'. apply Hnotin.
  apply in_map_iff in Hin'. destruct Hin' as [[k' t'] [E Hm]]. simpl in E.
  rewrite Forall_forall in Hk'. specialize (Hk' _ Hm). simpl in Hk'.
  assert (k' = k) by congruence. subst k'.
  apply in_map_iff. exists (k, t'). split; [reflexivity|exact Hm].
Qed.



(** No two posts that [collectMainTweets] returns have the same identifier. *)
Corollary collectMainTweets_unique (w : World) (posts : list Tweet) :
  snd (collectMainTweets w) = inr posts -> NoDup (map id posts).
Proof.
  unfold collectMainTweets.
  destruct (collect_loop_spec (maxWanted (config w) (profile w)) (search w)
              (search_error w) [] 0
              (Z.to_nat (Z.max 1 (maxWanted (config w) (profile w)))))
    as (_ & _ & Hdup & _ & Hkd & _); [lia|].
  cbv zeta in *.
  destruct (collect_loop (maxWanted (config w) (profile w)) (search w) (search_error w) [] 0)
    as [pulls c].
  cbn [snd] in *.
  destruct (thrown c); [discriminate|]. intros H. injection H as <-.
  apply keyed_values_unique; [apply Hdup|apply Hkd]; constructor.
Qed.

(** ** Parent resolution *)

Section ParentFacts.

Variable answers : nat -> string -> FetchResult.

Lemma fetch_parent_stages (a : FetchResult) (parentId : string) :
  Spec.stages (fst (fetch_parent a parentId)) = [GetTweet parentId].
Proof.
  destruct a as [[p|]|msg]; reflexivity.
Qed.

Lemma stages_app (a b : list Event) :
  Spec.stages (a ++ b) = (Spec.stages a ++ Spec.stages b)%list.
Proof.
  apply filter_app.
Qed.

Lemma is_reply_truthy (t : Tweet) : Spec.is_reply t = is_reply_to t.
Proof.
  unfold Spec.is_reply, is_reply_to, JS.truthy.
  destruct (inReplyToStatusId t) as [[|c r]|]; reflexivity.
Qed.

Lemma replies_truthy (posts : list Tweet) :
  filter Spec.is_reply posts = filter is_reply_to posts.
Proof.
  apply filter_ext. exact is_reply_truthy.
Qed.

Lemma parent_of_reply (t : Tweet) : is_reply_to t = true -> Spec.parent_of t = parent_id t.
Proof.
  unfold is_reply_to, Spec.parent_of, parent_id, JS.truthy, JS.or_default.
  destruct (inReplyToStatusId t) as [[|c r]|]; intros H; try discriminate; reflexivity.
Qed.

Lemma parent_fetches_calls (posts : list Tweet) :
  Spec.parent_fetches posts
  = map (fun t => GetTweet (parent_id t)) (filter is_reply_to posts).
Proof.
  unfold Spec.parent_fetches. rewrite replies_truthy.
  apply map_ext_in. intros t Ht. apply filter_In in Ht.
  rewrite (parent_of_reply t); [reflexivity|apply Ht].
Qed.

Lemma set_inReplyToText_same (t : Tweet) (s : JS.ustring) :
  inReplyToText (set_inReplyToText t s) = Some s
  /\ Spec.same_but_parent_text t (set_inReplyToText t s).
Proof.
  split; [reflexivity|]. unfold Spec.same_but_parent_text. repeat split; reflexivity.
Qed.

(** One fetch per reply, in the order of the batch, whatever the answers;
    and every post of the batch comes out, the replies with a text. *)
Lemma parent_loop_all (posts : list Tweet) :
  forall i : nat,
    Spec.stages (fst (parent_loop answers i posts)) = Spec.parent_fetches posts
    /\ Forall2 Spec.resolved posts (snd (parent_loop answers i posts)).
Proof.
  induction posts as [|t posts IH]; intros i.
  - split; [reflexivity|constructor].
  - cbn [parent_loop]. rewrite !parent_fetches_calls. cbn [filter].
    unfold Spec.resolved at 1. change (Spec.is_reply t) with (is_reply_to t).
    destruct (is_reply_to t) eqn:R.
    + pose proof (fetch_parent_stages (answers i (parent_id t)) (parent_id t)) as Hf.
      destruct (fetch_parent (answers i (parent_id t)) (parent_id t)) as [fetch s].
      destruct (IH (S i)) as [Hs Hr].
      destruct (parent_loop answers (S i) posts) as [later rest'].
      cbn [fst snd] in *.
      split.
      * rewrite !stages_app, Hf, Hs, parent_fetches_calls.
        destruct ((S i mod 50 =? 0)%nat); reflexivity.
      * constructor; [|exact Hr].
        unfold Spec.resolved. change (Spec.is_reply t) with (is_reply_to t). rewrite R.
        split; [exists s; reflexivity|apply set_inReplyToText_same].
    + destruct (IH i) as [Hs Hr].
      destruct (parent_loop answers i posts) as [later rest'].
      cbn [fst snd] in *.
      split; [rewrite Hs; apply parent_fetches_calls|].
      constructor; [|exact Hr].
      unfold Spec.resolved. change (Spec.is_reply t) with (is_reply_to t). rewrite R.
      reflexivity.
Qed.

Lemma parent_loop_app (l1 l2 : list Tweet) :
  forall i : nat,
    parent_loop answers i (l1 ++ l2)
    = ((fst (parent_loop answers i l1)
          ++ fst (parent_loop answers (i + List.length (filter is_reply_to l1)) l2))%list,
       (snd (parent_loop answers i l1)
          ++ snd (parent_loop answers (i + List.length (filter is_reply_to l1)) l2))%list).
Proof.
  induction l1 as [|t l1 IH]; intros i.
  - cbn. rewrite Nat.add_0_r. destruct (parent_loop answers i l2); reflexivity.
  - cbn [app parent_loop filter].
    destruct (is_reply_to t).
    + destruct (fetch_parent (answers i (parent_id t)) (parent_id t)) as [fetch s].
      rewrite (IH (S i)). cbn [List.length].
      replace (i + S (List.length (filter is_reply_to l1)))%nat
        with (S i + List.length (filter is_reply_to l1))%nat by lia.
      destruct (parent_loop answers (S i) l1) as [e1 o1].
      cbn [fst snd]. rewrite <- !app_assoc. reflexivity.
    + rewrite (IH i).
      destruct (parent_loop answers i l1) as [e1 o1]. reflexivity.
Qed.

Lemma parent_loop_length (posts : list Tweet) (i : nat) :
  List.length (snd (parent_loop answers i posts)) = List.length posts.
Proof.
  destruct (parent_loop_all posts i) as [_ H].
  symmetry. eapply Forall2_length. exact H.
Qed.

End ParentFacts.

(** C9.  When the fetch of the parent of a reply [t] of the batch throws, [t]
    comes out with [inReplyToText] the empty string and is otherwise as it
    was, the warning is logged, and the pass goes on: every reply of the
    batch is fetched, those after [t] too, and every post of the batch comes
    out, each reply with a text. *)
Theorem failed_parent_fetch_is_absorbed
  (w : World) (before after : list Tweet) (t : Tweet) (parentId msg : string) :
  inReplyToStatusId t = Some parentId ->
  parentId <> "" ->
  getTweet w (List.length (filter Spec.is_reply before)) parentId = FetchThrows msg ->
  let batch := (before ++ t :: after)%list in
  let evs := fst (fetchAllParentTweets w batch) in
  let out := snd (fetchAllParentTweets w batch) in
  (exists t' : Tweet,
      nth_error out (List.length before) = Some t'
      /\ inReplyToText t' = Some []
      /\ Spec.same_but_parent_text t t')
  /\ In (LogWarn ("fetch parent [" ++ parentId ++ "] => " ++ msg)) evs
  /\ Spec.stages evs = Spec.parent_fetches batch
  /\ Forall2 Spec.resolved batch out.
Proof.
  intros Hid Hne F. cbv zeta. unfold fetchAllParentTweets.
  assert (R : is_reply_to t = true).
  { unfold is_reply_to. rewrite Hid. destruct parentId; [congruence|reflexivity]. }
  assert (P : parent_id t = parentId).
  { unfold parent_id. rewrite Hid. destruct parentId; [congruence|reflexivity]. }
  rewrite replies_truthy in F.
  split; [|split].
  - rewrite parent_loop_app. cbn [snd].
    rewrite nth_error_app2; rewrite parent_loop_length; [|lia].
    rewrite Nat.sub_diag. cbn [parent_loop Nat.add]. rewrite R, P, F.
    cbn [fetch_parent].
    destruct (parent_loop (getTweet w) (S (List.length (filter is_reply_to before))) after).
    cbn [snd nth_error]. eexists. split; [reflexivity|].
    apply set_inReplyToText_same.
  - rewrite parent_loop_app. cbn [fst]. apply in_or_app. right.
    cbn [parent_loop Nat.add]. rewrite R, P, F. cbn [fetch_parent].
    destruct (parent_loop (getTweet w) (S (List.length (filter is_reply_to before))) after).
    cbn [fst]. right. left. reflexivity.
  - apply parent_loop_all.
Qed.

(** A batch of a reply, a post that is no reply and a second reply, in a
    world in which every fetch throws: the reply in the middle, which came
    with a parent text of an earlier run, comes out with the empty text. *)
Lemma failed_parent_fetch_is_absorbed_witness :
  let w := Sample.a_world [] in
  let t := set_inReplyToText (Sample.reply "3" "9") (JS.ustr "old") in
  let batch := [Sample.reply "2" "1"; Sample.post "a" None; t; Sample.reply "4" "7"] in
  inReplyToText t = Some (JS.ustr "old")
  /\ (exists t' : Tweet,
         nth_error (snd (fetchAllParentTweets w batch)) 2 = Some t'
         /\ inReplyToText t' = Some []
         /\ Spec.same_but_parent_text t t')
  /\ In (LogWarn "fetch parent [9] => not found") (fst (fetchAllParentTweets w batch))
  /\ Spec.stages (fst (fetchAllParentTweets w batch))
     = [GetTweet "1"; GetTweet "9"; GetTweet "7"].
Proof.
  cbv zeta.
  pose proof (failed_parent_fetch_is_absorbed (Sample.a_world [])
                [Sample.reply "2" "1"; Sample.post "a" None] [Sample.reply "4" "7"]
                (set_inReplyToText (Sample.reply "3" "9") (JS.ustr "old")) "9" "not found"
                eq_refl ltac:(discriminate) eq_refl) as H.
  cbv zeta in H. destruct H as (H1 & H2 & H3 & _).
  split; [reflexivity|].
  split; [exact H1|].
  split; [exact H2|exact H3].
Defined.

(** ** The order of the stages *)

Section StageFacts.

Variable format_date : Z -> string.

Lemma stages_generateAnalytics (posts : list Tweet) :
  Spec.stages (fst (generateAnalytics format_date posts)) = [].
Proof.
  destruct posts as [|t posts]; [reflexivity|].
  rewrite generateAnalytics_log.
  destruct (0 <? List.length (filter (fun t0 => negb (has_timestamp t0)) (t :: posts)))%nat;
    reflexivity.
Qed.

(** [saveTweets] aggregates once, after its first two writes, and not at all
    when one of these throws. *)
Lemma stages_saveTweets (write_error : nat -> option string) (posts : list Tweet) :
  Spec.stages (fst (saveTweets format_date write_error posts))
  = match write_error 0%nat, write_error 1%nat with
    | None, None => [Aggregate posts]
    | _, _ => []
    end.
Proof.
  unfold saveTweets, save_failed.
  destruct (write_error 0%nat); [reflexivity|].
  destruct (write_error 1%nat); [reflexivity|].
  pose proof (stages_generateAnalytics posts) as Hg.
  destruct (generateAnalytics format_date posts) as [log [msg|analytics]].
  - cbn [fst] in *. rewrite !stages_app, Hg. reflexivity.
  - cbn [fst] in Hg.
    destruct (write_error 2%nat); [|destruct (write_error 3%nat)];
      cbn [fst]; rewrite !stages_app, Hg; reflexivity.
Qed.

Lemma saveTweets_saved (write_error : nat -> option string) (posts : list Tweet)
      (a : Analytics) :
  snd (saveTweets format_date write_error posts) = inr a ->
  Spec.stages (fst (saveTweets format_date write_error posts)) = [Aggregate posts].
Proof.
  rewrite stages_saveTweets. unfold saveTweets, save_failed.
  destruct (write_error 0%nat); [discriminate|].
  destruct (write_error 1%nat); [discriminate|]. reflexivity.
Qed.

Lemma stages_login_loop (w : World) (fuel : nat) :
  forall attempt, Spec.stages (fst (login_loop w fuel attempt)) = [].
Proof.
  induction fuel as [|fuel IH]; intros attempt; [reflexivity|].
  cbn [login_loop].
  destruct (attempt <=? maxRetries (config w)); [|reflexivity].
  destruct (login_error (login_outcome w attempt)).
  - destruct (attempt >=? maxRetries (config w)).
    + cbn [fst]. rewrite stages_app.
      destruct (login_outcome w attempt); reflexivity.
    + specialize (IH (attempt + 1)).
      destruct (login_loop w fuel (attempt + 1)) as [later ok].
      cbn [fst] in *. rewrite !stages_app.
      change (Spec.stages (Timeout (retryDelay (config w) * attempt) :: later))
        with (Spec.stages later).
      rewrite IH. destruct (login_outcome w attempt); reflexivity.
  - cbn [fst]. rewrite stages_app. unfold saveCookies.
    destruct (saved_cookies (cookie_clock w) (agent_cookies w));
      [|destruct (cookie_write_error w)];
      destruct (login_outcome w attempt); reflexivity.
Qed.

Lemma stages_initializeScraper (w : World) :
  Spec.stages (fst (initializeScraper w)) = [].
Proof.
  unfold initializeScraper.
  assert (Hc : Spec.stages (fst (cookie_check w)) = []).
  { unfold cookie_check, loadCookies.
    destruct (cookie_file w) as [msg|arr]; [reflexivity|].
    destruct (setCookieStrings arr); [reflexivity|].
    destruct (set_cookies_error w); [reflexivity|].
    destruct (cookie_session w); reflexivity. }
  destruct (cookie_check w) as [evs [|]]; cbn [fst] in *; [exact Hc|].
  pose proof (stages_login_loop w (login_fuel w) 1) as Hl.
  destruct (login_loop w (login_fuel w) 1) as [attempts ok].
  cbn [fst] in *. rewrite stages_app, Hc.
  change (Spec.stages (LogWarn "No valid cookie session => logging in fresh..." :: attempts))
    with (Spec.stages attempts).
  exact Hl.
Qed.

Lemma stages_collect_loop (wanted : Z) (source : list (option Tweet))
      (ending : option string) :
  forall res cnt, Spec.stages (fst (collect_loop wanted source ending res cnt)) = [].
Proof.
  induction source as [|raw rest IH]; intros res cnt; [reflexivity|].
  cbn [collect_loop].
  destruct (raw_id raw) as [k|].
  - destruct raw as [t|].
    + destruct (cnt + 1 >=? wanted).
      * cbn [fst]. destruct ((cnt + 1) mod 100 =? 0); reflexivity.
      * specialize (IH (if Map_has k res then res else Map_set k t res) (cnt + 1)).
        destruct (collect_loop wanted rest ending
                    (if Map_has k res then res else Map_set k t res) (cnt + 1))
          as [later c].
        cbn [fst] in *.
        change (Spec.stages (Pull :: (if (cnt + 1) mod 100 =? 0 then [RandomDelay] else [])
                               ++ later))
          with (Spec.stages ((if (cnt + 1) mod 100 =? 0 then [RandomDelay] else [])
                               ++ later)).
        rewrite stages_app, IH. destruct ((cnt + 1) mod 100 =? 0); reflexivity.
    + specialize (IH res cnt).
      destruct (collect_loop wanted rest ending res cnt) as [later c]. exact IH.
  - specialize (IH res cnt).
    destruct raw; destruct (collect_loop wanted rest ending res cnt) as [later c]; exact IH.
Qed.

Lemma stages_collectMainTweets (w : World) :
  Spec.stages (fst (collectMainTweets w)) = [].
Proof.
  unfold collectMainTweets.
  pose proof (stages_collect_loop (maxWanted (config w) (profile w)) (search w)
                (search_error w) [] 0) as H.
  destruct (collect_loop (maxWanted (config w) (profile w)) (search w) (search_error w) [] 0)
    as [pulls c].
  cbn [fst] in *. rewrite stages_app, H.
  destruct (profile w); reflexivity.
Qed.

Lemma stages_cleanup (w : World) : Spec.stages (cleanup w) = [].
Proof.
  unfold cleanup. destruct (logout_error w); reflexivity.
Qed.

Lemma stages_saveFineTuneData (w : World) (posts : list Tweet) :
  Spec.stages (fst (saveFineTuneData format_date w posts))
  = match save_error w 1%nat 0%nat, save_error w 1%nat 1%nat with
    | None, None => [Aggregate posts]
    | _, _ => []
    end.
Proof.
  unfold saveFineTuneData.
  pose proof (stages_saveTweets (save_error w 1%nat) posts) as H.
  destruct (saveTweets format_date (save_error w 1%nat) posts) as [saving [msg|a]];
    cbn [fst] in *; [exact H|].
  rewrite stages_app, H.
  destruct (save_error w 1%nat 0%nat), (save_error w 1%nat 1%nat); reflexivity.
Qed.

(** An aggregation followed by a parent fetch among the stages refutes
    [no_fetch_after_aggregation]. *)
Lemma filter_first {A : Type} (f : A -> bool) (l : list A) (x : A) (r : list A) :
  filter f l = x :: r ->
  exists pre post, l = (pre ++ x :: post)%list /\ filter f post = r.
Proof.
  induction l as [|a l IH]; simpl; [discriminate|].
  destruct (f a) eqn:E; intros H.
  - injection H as -> Hr. exists [], l. split; [reflexivity|exact Hr].
  - destruct (IH H) as (pre & post & -> & Hr).
    exists (a :: pre), post. split; [reflexivity|exact Hr].
Qed.

Lemma fetch_after_aggregation (evs : list Event) (posts : list Tweet) (i : string)
      (r : list Event) :
  Spec.stages evs = Aggregate posts :: GetTweet i :: r ->
  ~ Spec.no_fetch_after_aggregation evs.
Proof.
  intros H Hno.
  destruct (filter_first _ _ _ _ H) as (pre & post & Hevs & Hpost).
  apply (Hno pre post posts i Hevs).
  assert (Hin : In (GetTweet i) (Spec.stages post)).
  { unfold Spec.stages. rewrite Hpost. left. reflexivity. }
  apply filter_In in Hin. apply Hin.
Qed.

(** C3, as stated, fails: with one reply collected, [run] aggregates in the
    save before parent resolution, then fetches the parent, then aggregates
    again. *)
Lemma partial_save_aggregates_before_parent_fetch :
  ~ Spec.no_fetch_after_aggregation
      (run Sample.plain_date (Sample.a_world [Some (Sample.reply "2" "1")])).
Proof.
  eapply fetch_after_aggregation. vm_compute. reflexivity.
Qed.

(** C3, amended.  Among the aggregations and parent fetches of a run, in
    order: nothing; or one aggregation of the collected posts; or that
    aggregation followed by the fetch of the parent of every reply; or these
    followed by one more aggregation, of the posts as parent resolution
    leaves them.  So [run] aggregates once before parent resolution begins
    (the save of the posts as collected) and once more only after every
    reply's parent fetch has finished, and never in between; and it does
    neither when the collection ends in an error. *)
Theorem aggregation_brackets_parent_resolution (w : World) :
  let st := Spec.stages (run format_date w) in
  match snd (collectMainTweets w) with
  | inl _ => st = []
  | inr posts =>
      let enriched := snd (fetchAllParentTweets w posts) in
      st = []
      \/ st = [Aggregate posts]
      \/ st = Aggregate posts :: Spec.parent_fetches posts
      \/ st = (Aggregate posts :: Spec.parent_fetches posts ++ [Aggregate enriched])%list
  end.
Proof.
  cbv zeta. unfold run.
  pose proof (stages_initializeScraper w) as Hi.
  pose proof (stages_collectMainTweets w) as Hc.
  destruct (collectMainTweets w) as [collecting [failure|mainTweets]]; cbn [fst snd] in *.
  { destruct (has_credentials w); cbn [negb]; [|reflexivity].
    destruct (initializeScraper w) as [init [|]]; cbn [fst negb] in *.
    - rewrite !stages_app, Hi, Hc. unfold pipeline_failed.
      change (Spec.stages (LogError ("âŒ Pipeline => " ++ failure) :: cleanup w))
        with (Spec.stages (cleanup w)).
      apply stages_cleanup.
    - rewrite stages_app, Hi. reflexivity. }
  destruct (has_credentials w); cbn [negb]; [|left; reflexivity].
  destruct (initializeScraper w) as [init [|]]; cbn [fst negb] in *.
  2:{ left. rewrite stages_app, Hi. reflexivity. }
  destruct mainTweets as [|t0 more].
  { left. rewrite !stages_app, Hi, Hc. reflexivity. }
  set (mainTweets := t0 :: more).
  pose proof (stages_saveTweets (save_error w 0%nat) mainTweets) as Hs.
  pose proof (saveTweets_saved (save_error w 0%nat) mainTweets) as Hok.
  destruct (saveTweets format_date (save_error w 0%nat) mainTweets)
    as [saving [msg|a]]; cbn [fst snd] in *.
  { rewrite !stages_app, Hi, Hc, Hs.
    unfold pipeline_failed.
    change (Spec.stages (LogError ("âŒ Pipeline => " ++ msg) :: cleanup w))
      with (Spec.stages (cleanup w)).
    rewrite stages_cleanup.
    destruct (save_error w 0%nat 0%nat), (save_error w 0%nat 1%nat);
      [left| left | left | right; left]; reflexivity. }
  specialize (Hok a eq_refl). clear Hs.
  unfold fetchAllParentTweets.
  destruct (parent_loop_all (getTweet w) mainTweets 0%nat) as [Hf _].
  destruct (parent_loop (getTweet w) 0%nat mainTweets) as [fetching enriched].
  cbn [fst snd] in *.
  pose proof (stages_saveFineTuneData w enriched) as Hfin.
  destruct (saveFineTuneData format_date w enriched) as [final [msg|]];
    cbn [fst] in *.
  - rewrite !stages_app, Hi, Hc, Hok, Hf, Hfin.
    unfold pipeline_failed.
    change (Spec.stages (LogError ("âŒ Pipeline => " ++ msg) :: cleanup w))
      with (Spec.stages (cleanup w)).
    rewrite stages_cleanup.
    destruct (save_error w 1%nat 0%nat), (save_error w 1%nat 1%nat);
      cbn [app]; rewrite ?app_nil_r; auto.
  - rewrite !stages_app, Hi, Hc, Hok, Hf, Hfin.
    change (Spec.stages (Prompt :: cleanup w)) with (Spec.stages (cleanup w)).
    rewrite stages_cleanup.
    destruct (save_error w 1%nat 0%nat), (save_error w 1%nat 1%nat);
      cbn [app]; rewrite ?app_nil_r; auto.
Qed.

End StageFacts.

(** ** The cookie round trip *)

Section CookieFacts.










(** The wire form of the sample cookies. *)
Example auth_cookie_wire :
  setCookieStrings [Sample.auth_cookie; Sample.csrf_cookie]
  = ["auth_token=abc; Domain=.twitter.com; Path=/; Secure; HttpOnly";
     "ct0=xyz; Domain=twitter.com; Path=/"].
Proof.
  reflexivity.
Qed.

End CookieFacts.

(** * Further properties of the code *)

(** ** The report: counts *)

Section ReportCounts.

Variable format_date : Z -> string.

Lemma count_cons {A : Type} (p : A -> bool) (a : A) (l : list A) :
  DataOrganizer.count p (a :: l) = ((if p a then 1 else 0) + DataOrganizer.count p l)%nat.
Proof.
  unfold DataOrganizer.count. simpl. destruct (p a); reflexivity.
Qed.

Lemma count_app {A : Type} (p : A -> bool) (l1 l2 : list A) :
  DataOrganizer.count p (l1 ++ l2) = (DataOrganizer.count p l1 + DataOrganizer.count p l2)%nat.
Proof.
  unfold DataOrganizer.count. rewrite filter_app, length_app. reflexivity.
Qed.

Lemma report_counts (posts : list Tweet) (r : Analytics) :
  report format_date posts = inr r ->
  totalTweets r = List.length posts
  /\ directTweets r = DataOrganizer.count (fun t => negb (isReply t) && negb (isRetweet t)) posts
  /\ replyCount r = DataOrganizer.count isReply posts
  /\ retweets r = DataOrganizer.count isRetweet posts
  /\ withImages (contentTypes r) = DataOrganizer.count (fun t => JS.nonempty (photos t)) posts
  /\ withVideos (contentTypes r) = DataOrganizer.count (fun t => JS.nonempty (videos t)) posts
  /\ withLinks (contentTypes r) = DataOrganizer.count (fun t => JS.nonempty (urls t)) posts
  /\ textOnly (contentTypes r)
     = DataOrganizer.count (fun t => negb (JS.nonempty (photos t)) && negb (JS.nonempty (videos t))
                       && negb (JS.nonempty (urls t))) posts.
Proof.
  intros H. destruct posts as [|t posts].
  - injection H as <-. repeat split.
  - apply report_fields in H; [|discriminate].
    destruct H as (_ & _ & _ & H1 & H2 & H3 & H4 & _ & _ & _ & _ & H5).
    rewrite H1, H2, H3, H4, H5. repeat split.
Qed.

(** X1.  In every report, every post is a direct post, a reply or a retweet:
    the three counts add up to the number of posts plus the number of posts
    that are both a reply and a retweet, which are counted twice. *)
Theorem categories_add_up (posts : list Tweet) (r : Analytics) :
  report format_date posts = inr r ->
  (directTweets r + replyCount r + retweets r
   = totalTweets r + DataOrganizer.count (fun t => isReply t && isRetweet t) posts)%nat.
Proof.
  intros H.
  destruct (report_counts posts r H) as (-> & -> & -> & -> & _). clear H.
  induction posts as [|t posts IH]; [reflexivity|].
  rewrite !count_cons. cbn [List.length].
  destruct (isReply t), (isRetweet t); cbn [negb andb]; lia.
Qed.


End ReportCounts.

(** A post, a reply, a retweet and a post whose timestamp is null. *)
Lemma categories_add_up_witness :
  let posts := [Sample.post "a" (Some 1); Sample.reply "b" "a";
                Sample.retweet "c" None; Sample.undated_post "d"] in
  exists r : Analytics,
    report Sample.plain_date posts = inr r
    /\ (directTweets r + replyCount r + retweets r
        = totalTweets r + DataOrganizer.count (fun t => isReply t && isRetweet t) posts)%nat.
Proof.
  cbv zeta. eexists. split; [vm_compute; reflexivity|].
  apply (categories_add_up Sample.plain_date). vm_compute. reflexivity.
Defined.


(** ** The report: order and retweets *)

Section ReportOrder.

Variable format_date : Z -> string.

Lemma filter_perm {A : Type} (p : A -> bool) (l l' : list A) :
  Permutation l l' -> Permutation (filter p l) (filter p l').
Proof.
  induction 1 as [|x l l' H IH|x y l|l l' l'' H1 IH1 H2 IH2]; simpl.
  - constructor.
  - destruct (p x); [constructor|]; exact IH.
  - destruct (p x), (p y); try apply Permutation_refl. apply perm_swap.
  - eapply perm_trans; eassumption.
Qed.

Lemma count_perm {A : Type} (p : A -> bool) (l l' : list A) :
  Permutation l l' -> DataOrganizer.count p l = DataOrganizer.count p l'.
Proof.
  intros H. unfold DataOrganizer.count.
  apply Permutation_length, filter_perm, H.
Qed.

Lemma dates_perm (l l' : list Tweet) :
  Permutation l l' -> Permutation (Spec.dates l) (Spec.dates l').
Proof.
  induction 1 as [|x l l' H IH|x y l|l l' l'' H1 IH1 H2 IH2]; simpl.
  - constructor.
  - destruct (timestamp x); [|  |constructor]; exact IH.
  - destruct (timestamp x), (timestamp y); try apply Permutation_refl. apply perm_swap.
  - eapply perm_trans; eassumption.
Qed.

Lemma least_sound (zs : list Z) (m : Z) :
  Spec.least zs = Some m -> In m zs /\ Forall (fun x => m <= x) zs.
Proof.
  revert m. induction zs as [|z zs IH]; intros m H; simpl in H; [discriminate|].
  destruct (Spec.least zs) as [k|] eqn:E.
  - destruct (IH k eq_refl) as [Hin Hall]. injection H as <-.
    split.
    + destruct (Z.min_spec z k) as [[_ ->]|[_ ->]]; [left; reflexivity|right; exact Hin].
    + constructor; [lia|]. eapply Forall_impl; [|exact Hall]. simpl. intros. lia.
  - injection H as <-. destruct zs as [|y zs].
    + split; [left; reflexivity|]. constructor; [lia|constructor].
    + simpl in E. destruct (Spec.least zs); discriminate.
Qed.

Lemma greatest_sound (zs : list Z) (m : Z) :
  Spec.greatest zs = Some m -> In m zs /\ Forall (fun x => x <= m) zs.
Proof.
  revert m. induction zs as [|z zs IH]; intros m H; simpl in H; [discriminate|].
  destruct (Spec.greatest zs) as [k|] eqn:E.
  - destruct (IH k eq_refl) as [Hin Hall]. injection H as <-.
    split.
    + destruct (Z.max_spec z k) as [[_ ->]|[_ ->]]; [right; exact Hin|left; reflexivity].
    + constructor; [lia|]. eapply Forall_impl; [|exact Hall]. simpl. intros. lia.
  - injection H as <-. destruct zs as [|y zs].
    + split; [left; reflexivity|]. constructor; [lia|constructor].
    + simpl in E. destruct (Spec.greatest zs); discriminate.
Qed.

Lemma least_perm (zs zs' : list Z) :
  Permutation zs zs' -> Spec.least zs = Spec.least zs'.
Proof.
  intros H. destruct (Spec.least zs) as [m|] eqn:E.
  - destruct (least_sound _ _ E) as [Hin Hall]. symmetry. apply least_spec.
    + eapply Permutation_in; eassumption.
    + eapply Permutation_Forall; eassumption.
  - destruct zs as [|z zs].
    + apply Permutation_nil in H. subst. reflexivity.
    + simpl in E. destruct (Spec.least zs); discriminate.
Qed.

Lemma greatest_perm (zs zs' : list Z) :
  Permutation zs zs' -> Spec.greatest zs = Spec.greatest zs'.
Proof.
  intros H. destruct (Spec.greatest zs) as [m|] eqn:E.
  - destruct (greatest_sound _ _ E) as [Hin Hall]. symmetry. apply greatest_spec.
    + eapply Permutation_in; eassumption.
    + eapply Permutation_Forall; eassumption.
  - destruct zs as [|z zs].
    + apply Permutation_nil in H. subst. reflexivity.
    + simpl in E. destruct (Spec.greatest zs); discriminate.
Qed.

(** The posts behind a top list that came about have a text. *)
Lemma top_entries_have_text (l : list Tweet) (top : list TopTweet) :
  JS.Array_map_throwing top_entry l = inr top ->
  Forall (fun t => exists s, text t = Some s) l.
Proof.
  intros H. apply top_entries_show in H.
  induction H as [|e t top l Hs _ IH]; constructor; [|exact IH].
  destruct Hs as (_ & (s & Hs & _) & _). exists s. exact Hs.
Qed.

(** When there is a report: exactly on the lists that are reportable. *)
Lemma report_exists_iff (posts : list Tweet) :
  (exists r, report format_date posts = inr r) <-> Props.reportable posts.
Proof.
  unfold Props.reportable. split.
  - intros [r Hr].
    pose proof (timeRange_of_report format_date posts r Hr) as (_ & _ & Hun & Hlo & Hhi).
    split; [|split; [exact Hun|]].
    + destruct posts as [|t posts]; [constructor|].
      apply report_fields in Hr; [|discriminate]. destruct Hr as (Htop & _).
      apply (top_entries_have_text _ _ Htop).
    + apply Forall_forall. intros d Hd.
      destruct (Spec.least (Spec.dates posts)) as [lo|] eqn:Elo.
      2:{ apply least_none in Elo. rewrite Elo in Hd. contradiction. }
      destruct (Spec.greatest (Spec.dates posts)) as [hi|] eqn:Ehi.
      2:{ apply greatest_none in Ehi. rewrite Ehi in Hd. contradiction. }
      destruct (least_sound _ _ Elo) as [_ Hall]. destruct (greatest_sound _ _ Ehi) as [_ Hall'].
      rewrite Forall_forall in Hall, Hall'. specialize (Hall d Hd). specialize (Hall' d Hd).
      rewrite <- earliest_least in Elo. rewrite <- latest_greatest in Ehi.
      specialize (Hlo lo Elo). specialize (Hhi hi Ehi).
      unfold Spec.valid_time in *. lia.
  - intros (Htext & Hun & Hvalid).
    destruct posts as [|t posts]; [eexists; reflexivity|].
    pose proof (report_cases format_date t posts) as Hc. cbv zeta in Hc.
    destruct (top_entries_exist _ Htext) as [top Htop]. rewrite Htop in Hc.
    assert (Hv : forall ms, In ms (Spec.dates (t :: posts)) -> (Z.abs ms <=? max_time) = true).
    { intros ms Hin. rewrite Forall_forall in Hvalid. specialize (Hvalid ms Hin).
      unfold Spec.valid_time in Hvalid. apply Z.leb_le. unfold max_time. lia. }
    rewrite validDates_first, validDates_last, Hun in Hc.
    unfold date_or_NA in Hc.
    destruct (Props.validDates (t :: posts)) as [|d ds] eqn:Hd; [exact Hc|].
    unfold format in Hc.
    destruct (Spec.earliest (t :: posts)) as [a|] eqn:Ea.
    + rewrite earliest_least in Ea. apply least_in in Ea. rewrite (Hv a Ea) in Hc.
      destruct (Spec.latest (t :: posts)) as [b|] eqn:Eb.
      * rewrite latest_greatest in Eb. apply greatest_in in Eb.
        rewrite (Hv b Eb) in Hc. exact Hc.
      * rewrite latest_greatest in Eb. apply greatest_none in Eb.
        rewrite Eb in Ea. contradiction.
    + exfalso. rewrite earliest_least in Ea. apply least_none in Ea.
      assert (Hnil : Props.validDates (t :: posts) = []).
      { apply validDates_nil. split; assumption. }
      congruence.
Qed.

(** X3.  Two orders of the same posts, when there is a report on both, give
    reports with the same counts, the same content types and the same time
    range.  (Not the same engagement: the totals are sums of binary64
    numbers, which depend on the order from 2^53 on, and so does the mean;
    the top list depends on the order of the posts with equal likes.) *)
Theorem report_order_independent (posts posts' : list Tweet) (r r' : Analytics) :
  Permutation posts posts' ->
  report format_date posts = inr r ->
  report format_date posts' = inr r' ->
  totalTweets r = totalTweets r' /\ directTweets r = directTweets r'
  /\ replyCount r = replyCount r' /\ retweets r = retweets r'
  /\ withImages (contentTypes r) = withImages (contentTypes r')
  /\ withVideos (contentTypes r) = withVideos (contentTypes r')
  /\ withLinks (contentTypes r) = withLinks (contentTypes r')
  /\ textOnly (contentTypes r) = textOnly (contentTypes r')
  /\ range_start (timeRange r) = range_start (timeRange r')
  /\ range_end (timeRange r) = range_end (timeRange r').
Proof.
  intros H Hr Hr'.
  destruct (report_counts format_date posts r Hr)
    as (-> & -> & -> & -> & -> & -> & -> & ->).
  destruct (report_counts format_date posts' r' Hr')
    as (-> & -> & -> & -> & -> & -> & -> & ->).
  destruct (timeRange_of_report format_date posts r Hr) as (-> & -> & _).
  destruct (timeRange_of_report format_date posts' r' Hr') as (-> & -> & _).
  rewrite !earliest_least, !latest_greatest.
  rewrite (least_perm _ _ (dates_perm _ _ H)).
  rewrite (greatest_perm _ _ (dates_perm _ _ H)).
  repeat (split; [first [apply Permutation_length, H | apply count_perm, H]|]).
  split; reflexivity.
Qed.

Lemma non_retweets_without (before after : list Tweet) (rt : Tweet) :
  isRetweet rt = true ->
  Spec.non_retweets (before ++ rt :: after) = Spec.non_retweets (before ++ after).
Proof.
  intros Hrt. unfold Spec.non_retweets. rewrite !filter_app. cbn [filter].
  rewrite Hrt. reflexivity.
Qed.

Lemma unstamped_without (before after : list Tweet) (t : Tweet) :
  Spec.unstamped (before ++ t :: after) = [] -> Spec.unstamped (before ++ after) = [].
Proof.
  unfold Spec.unstamped. rewrite !filter_app. cbn [filter].
  intros H. apply app_eq_nil in H. destruct H as [H1 H2]. rewrite H1. cbn [app].
  destruct (match timestamp t with
            | Absent => true
            | _ => false
            end); [discriminate|exact H2].
Qed.

Lemma dates_app (l1 l2 : list Tweet) :
  Spec.dates (l1 ++ l2) = (Spec.dates l1 ++ Spec.dates l2)%list.
Proof.
  induction l1 as [|t l1 IH]; [reflexivity|]. cbn [app Spec.dates].
  destruct (timestamp t); rewrite IH; reflexivity.
Qed.

Lemma dates_without (before after : list Tweet) (t : Tweet) :
  Forall Spec.valid_time (Spec.dates (before ++ t :: after)) ->
  Forall Spec.valid_time (Spec.dates (before ++ after)).
Proof.
  rewrite !dates_app. intros H. apply Forall_app in H. destruct H as [H1 H2].
  apply Forall_app. split; [exact H1|].
  cbn [Spec.dates] in H2. destruct (timestamp t); try exact H2.
  inversion H2; assumption.
Qed.

(** X5.  A retweet added anywhere to a non-empty list of posts: when there
    is a report on the longer list there is one on the shorter, and the
    retweet adds one to the number of posts and to the number of retweets
    and leaves the whole engagement part of the report, top tweets included,
    as it was. *)
Theorem retweet_leaves_engagement (before after : list Tweet) (rt : Tweet)
        (r' : Analytics) :
  isRetweet rt = true ->
  (before ++ after)%list <> [] ->
  report format_date (before ++ rt :: after) = inr r' ->
  exists r : Analytics,
    report format_date (before ++ after) = inr r
    /\ engagement r' = engagement r
    /\ totalTweets r' = S (totalTweets r)
    /\ retweets r' = S (retweets r).
Proof.
  intros Hrt Hne Hr'.
  pose proof (non_retweets_without before after rt Hrt) as Hn.
  assert (Htop : Props.top_posts (before ++ rt :: after) = Props.top_posts (before ++ after)).
  { rewrite !top_posts_of, Hn. reflexivity. }
  assert (Hex : exists r, report format_date (before ++ after) = inr r).
  { apply report_exists_iff.
    destruct (proj1 (report_exists_iff _) (ex_intro _ r' Hr')) as (H1 & H2 & H3).
    split; [rewrite <- Htop; exact H1|].
    split; [eapply unstamped_without; exact H2|eapply dates_without; exact H3]. }
  destruct Hex as [r Hr]. exists r. split; [exact Hr|].
  destruct (report_counts format_date _ _ Hr) as (-> & _ & _ & -> & _).
  destruct (report_counts format_date _ _ Hr') as (-> & _ & _ & -> & _).
  split; [|split].
  - apply report_fields in Hr; [|exact Hne].
    apply report_fields in Hr'; [|destruct before; discriminate].
    destruct Hr as (T & _ & _ & _ & _ & _ & _ & L & C & R & A & _).
    destruct Hr' as (T' & _ & _ & _ & _ & _ & _ & L' & C' & R' & A' & _).
    rewrite Htop, T in T'. injection T' as T'.
    rewrite Hn in L', C', R', A'.
    destruct (engagement r) as [l c p a top]. destruct (engagement r') as [l' c' p' a' top'].
    cbn [totalLikes totalRetweetCount totalReplies averageLikes topTweets] in *.
    congruence.
  - rewrite !length_app. cbn [List.length]. lia.
  - rewrite !count_app, count_cons, Hrt. lia.
Qed.

End ReportOrder.

Lemma report_order_independent_witness :
  let posts := [Sample.post "a" (Some 10); Sample.retweet "b" (Some 100);
                Sample.undated_post "c"; Sample.reply "d" "a"] in
  let posts' := [Sample.reply "d" "a"; Sample.undated_post "c"; Sample.post "a" (Some 10);
                 Sample.retweet "b" (Some 100)] in
  exists r r' : Analytics,
    Permutation posts posts'
    /\ report Sample.plain_date posts = inr r
    /\ report Sample.plain_date posts' = inr r'
    /\ totalTweets r = totalTweets r'
    /\ range_start (timeRange r) = range_start (timeRange r')
    /\ range_end (timeRange r) = range_end (timeRange r').
Proof.
  cbv zeta. do 2 eexists.
  assert (H : Permutation
                [Sample.post "a" (Some 10); Sample.retweet "b" (Some 100);
                 Sample.undated_post "c"; Sample.reply "d" "a"]
                [Sample.reply "d" "a"; Sample.undated_post "c"; Sample.post "a" (Some 10);
                 Sample.retweet "b" (Some 100)]).
  { apply Permutation_sym.
    apply (Permutation_cons_app [_; _; _] []). rewrite app_nil_r.
    apply (Permutation_cons_app [_; _] []). reflexivity. }
  split; [exact H|].
  split; [vm_compute; reflexivity|]. split; [vm_compute; reflexivity|].
  pose proof (report_order_independent Sample.plain_date _ _ _ _ H eq_refl eq_refl) as R.
  destruct R as (Ht & _ & _ & _ & _ & _ & _ & _ & Hs & He).
  split; [exact Ht|]. split; [exact Hs|exact He].
Defined.

Lemma retweet_leaves_engagement_witness :
  let before := [Sample.post "a" (Some 10)] in
  let after := [Sample.post "c" (Some 20)] in
  let rt := Sample.retweet "b" (Some 100) in
  exists r r' : Analytics,
    isRetweet rt = true
    /\ report Sample.plain_date (before ++ rt :: after) = inr r'
    /\ report Sample.plain_date (before ++ after) = inr r
    /\ engagement r' = engagement r
    /\ totalTweets r' = S (totalTweets r).
Proof.
  cbv zeta.
  destruct (retweet_leaves_engagement Sample.plain_date
              [Sample.post "a" (Some 10)] [Sample.post "c" (Some 20)]
              (Sample.retweet "b" (Some 100)) _ eq_refl ltac:(discriminate) eq_refl)
    as (r & Hr & He & Ht & _).
  exists r. eexists.
  split; [reflexivity|]. split; [reflexivity|]. split; [exact Hr|].
  split; [exact He|exact Ht].
Defined.

(** ** The report: top tweets *)

Section TopTweets.

Variable format_date : Z -> string.

Lemma sorted_app_order {A : Type} (R : A -> A -> Prop) (l1 l2 : list A) :
  StronglySorted R (l1 ++ l2) ->
  forall x y, In x l1 -> In y l2 -> R x y.
Proof.
  induction l1 as [|a l1 IH]; intros Hs x y Hx Hy; [contradiction|].
  cbn [app] in Hs. inversion Hs as [|? ? Hs' Ha]; subst.
  destruct Hx as [<-|Hx].
  - rewrite Forall_forall in Ha. apply Ha, in_or_app. right. exact Hy.
  - apply (IH Hs' x y Hx Hy).
Qed.

Lemma Forall2_in_left {A B : Type} (R : A -> B -> Prop) (l : list A) (l' : list B) (a : A) :
  Forall2 R l l' -> In a l -> exists b, In b l' /\ R a b.
Proof.
  induction 1 as [|x y l l' Hxy _ IH]; intros Hin; [contradiction|].
  destruct Hin as [<-|Hin].
  - exists y. split; [left; reflexivity|exact Hxy].
  - destruct (IH Hin) as (b & Hb & Hab). exists b. split; [right; exact Hb|exact Hab].
Qed.

Lemma Forall2_in_right {A B : Type} (R : A -> B -> Prop) (l : list A) (l' : list B) (b : B) :
  Forall2 R l l' -> In b l' -> exists a, In a l /\ R a b.
Proof.
  induction 1 as [|x y l l' Hxy _ IH]; intros Hin; [contradiction|].
  destruct Hin as [<-|Hin].
  - exists x. split; [left; reflexivity|exact Hxy].
  - destruct (IH Hin) as (a & Ha & Hab). exists a. split; [right; exact Ha|exact Hab].
Qed.

(** X4.  The list of top tweets of a report has 5 entries, or as many as
    there are posts that are not retweets when these are fewer; and no post
    that is left out has more likes than a listed one: a post that is not a
    retweet either is shown by an entry of the list or has at most the likes
    of every entry of the list (a missing count being 0). *)
Theorem topTweets_are_the_most_liked (posts : list Tweet) (r : Analytics) :
  report format_date posts = inr r ->
  let top := topTweets (engagement r) in
  List.length top = Nat.min 5 (List.length (Spec.non_retweets posts))
  /\ forall (e : TopTweet) (t : Tweet),
       In e top -> In t (Spec.non_retweets posts) ->
       (exists e', In e' top /\ Spec.shows e' t)
       \/ Spec.likes_of t <= match top_likes e with
                             | Some n => n
                             | None => 0
                             end.
Proof.
  intros Hr. cbv zeta.
  assert (Hshow : Forall2 Spec.shows (topTweets (engagement r)) (Props.top_posts posts)).
  { destruct posts as [|t posts].
    - injection Hr as <-. constructor.
    - apply report_fields in Hr; [|discriminate]. destruct Hr as (Htop & _).
      apply top_entries_show. exact Htop. }
  rewrite top_posts_of in Hshow.
  set (sorted := JS.Array_sort by_likes_desc (Spec.non_retweets posts)) in *.
  pose proof (Array_sort_perm by_likes_desc (Spec.non_retweets posts)) as Hp.
  pose proof (Array_sort_sorted by_likes_desc (fun t => - Spec.likes_of t)
                by_likes_desc_rank (Spec.non_retweets posts)) as Hs.
  fold sorted in Hp, Hs.
  split.
  - rewrite (Forall2_length Hshow), length_firstn, (Permutation_length Hp). reflexivity.
  - intros e t He Ht.
    destruct (Forall2_in_left _ _ _ _ Hshow He) as (u & Hu & Heu).
    apply (Permutation_in _ (Permutation_sym Hp)) in Ht.
    rewrite <- (firstn_skipn 5 sorted) in Ht, Hs.
    apply in_app_or in Ht. destruct Ht as [Ht|Ht].
    + left. destruct (Forall2_in_right _ _ _ _ Hshow Ht) as (e' & He' & Hs').
      exists e'. split; assumption.
    + right. pose proof (sorted_app_order _ _ _ Hs u t Hu Ht) as Hle.
      destruct Heu as (_ & _ & Hl & _). rewrite Hl.
      cbv beta in Hle. fold (Spec.likes_of u). lia.
Qed.

End TopTweets.

Lemma topTweets_are_the_most_liked_witness :
  let posts := [Sample.post "a" (Some 5); Sample.post "b" (Some 9);
                Sample.retweet "c" (Some 50); Sample.post "d" None;
                Sample.post "e" (Some 9); Sample.post "f" (Some 2);
                Sample.post "g" (Some 1)] in
  exists r : Analytics,
    report Sample.plain_date posts = inr r
    /\ map top_likes (topTweets (engagement r)) = [Some 9; Some 9; Some 5; Some 2; Some 1]
    /\ List.length (topTweets (engagement r))
       = Nat.min 5 (List.length (Spec.non_retweets posts)).
Proof.
  cbv zeta. eexists. split; [vm_compute; reflexivity|].
  split; [vm_compute; reflexivity|].
  apply (topTweets_are_the_most_liked Sample.plain_date). vm_compute. reflexivity.
Defined.

(** ** Saving *)

Section SavingFacts.

Variable format_date : Z -> string.

Lemma files_written_app (a b : list Event) :
  Props.files_written (a ++ b) = (Props.files_written a ++ Props.files_written b)%list.
Proof.
  induction a as [|e a IH]; [reflexivity|].
  destruct e; cbn [app Props.files_written]; rewrite IH; reflexivity.
Qed.

Lemma generateAnalytics_writes_nothing (posts : list Tweet) :
  Props.files_written (fst (generateAnalytics format_date posts)) = [].
Proof.
  destruct posts as [|t posts]; [reflexivity|].
  rewrite generateAnalytics_log.
  destruct (0 <? List.length (filter (fun t0 => negb (has_timestamp t0)) (t :: posts)))%nat;
    reflexivity.
Qed.

(** X6.  [saveTweets] writes its four files in order and returns the report
    when nothing throws.  When a write throws, or the report cannot be made
    (after the second write), the files after that are not written, the
    error is logged as the last event and thrown again; a report that was
    already computed is lost. *)
Theorem saveTweets_outcome (write_error : nat -> option string) (posts : list Tweet) :
  let evs := fst (saveTweets format_date write_error posts) in
  let res := snd (saveTweets format_date write_error posts) in
  match Props.save_failure write_error (report format_date posts) with
  | None =>
      res = report format_date posts
      /\ (exists r, res = inr r)
      /\ Props.files_written evs = Props.save_order
  | Some (n, msg) =>
      res = inl msg
      /\ Props.files_written evs = firstn n Props.save_order
      /\ last evs Logout = LogError ("❌ Error saving data: " ++ msg)
  end.
Proof.
  cbv zeta. unfold Props.save_failure, saveTweets, save_failed, report.
  destruct (write_error 0%nat) as [m0|].
  { repeat split. }
  destruct (write_error 1%nat) as [m1|].
  { repeat split. }
  pose proof (generateAnalytics_writes_nothing posts) as Hg.
  destruct (generateAnalytics format_date posts) as [log [e|analytics]].
  { cbn [fst snd] in *. rewrite ?files_written_app, ?last_last.
    cbn [Props.files_written app]. rewrite ?Hg. repeat split. }
  cbn [fst snd] in *.
  destruct (write_error 2%nat) as [m2|]; [|destruct (write_error 3%nat) as [m3|]];
    cbn [fst snd]; rewrite ?files_written_app, ?Hg, ?last_last;
    cbn [Props.files_written app]; rewrite ?files_written_app, ?Hg;
    repeat split.
  eexists. reflexivity.
Qed.

End SavingFacts.

(** A save on which nothing throws, a save whose third write throws, and a
    save of a post without a timestamp: two files, then the error of the
    report. *)
Example three_saves :
  Props.files_written
    (fst (saveTweets Sample.plain_date (fun _ => None) [Sample.post "a" (Some 1)]))
  = Props.save_order
  /\ saveTweets Sample.plain_date (fun k => if (k =? 2)%nat then Some "EACCES" else None)
       [Sample.post "a" (Some 1)]
     = ([WriteFile raw_tweets_file; WriteFile raw_urls_file;
         Aggregate [Sample.post "a" (Some 1)]; WriteFile stats_file;
         LogError "❌ Error saving data: EACCES"], inl "EACCES")
  /\ saveTweets Sample.plain_date (fun _ => None) [Sample.unstamped_post "a"]
     = ([WriteFile raw_tweets_file; WriteFile raw_urls_file;
         Aggregate [Sample.unstamped_post "a"];
         LogError "❌ Error saving data: Invalid time value"], inl "Invalid time value").
Proof.
  repeat split; vm_compute; reflexivity.
Qed.

(** ** Cookies: quotes, loading and saving *)

Section MoreCookieFacts.

Lemma endsWith_dquote_snoc (s : string) :
  forall c, JS.endsWith_dquote (String c (s ++ String JS.dquote EmptyString)) = true.
Proof.
  induction s as [|a s IH]; intros c.
  - reflexivity.
  - cbn [append]. cbn [JS.endsWith_dquote]. apply IH.
Qed.

Lemma length_snoc (s : string) (c : ascii) :
  String.length (s ++ String c EmptyString) = S (String.length s).
Proof.
  induction s as [|a s IH]; simpl; [reflexivity|]. rewrite IH. reflexivity.
Qed.

Lemma substring_prefix (s t : string) :
  substring 0 (String.length s) (s ++ t) = s.
Proof.
  induction s as [|a s IH]; simpl.
  - destruct t; reflexivity.
  - rewrite IH. reflexivity.
Qed.

(** X7.  Decoding takes exactly one layer of surrounding double quotes off a
    value: a value put in quotes comes back as it was, also when it is empty
    or is itself in quotes. *)
Theorem unquote_quoted (s : string) : unquote (Props.quoted s) = s.
Proof.
  unfold unquote, Props.quoted.
  cbn [JS.startsWith_dquote]. rewrite Ascii.eqb_refl, endsWith_dquote_snoc.
  cbn [String.length andb]. rewrite length_snoc.
  cbn [Nat.ltb Nat.leb]. unfold JS.slice_1_m1.
  cbn [String.length]. rewrite length_snoc.
  cbn [Nat.sub]. rewrite Nat.sub_0_r.
  cbn [substring]. apply substring_prefix.
Qed.

Lemma loaded_none_iff (arr : list CookieJSON) :
  existsb Spec.survives arr = false <-> loaded_cookies arr = [].
Proof.
  unfold loaded_cookies, Spec.survives.
  induction arr as [|c arr IH]; cbn [existsb keep]; [tauto|].
  destruct (load_entry c); cbn [orb]; [split; discriminate|exact IH].
Qed.

Lemma loaded_length (arr : list CookieJSON) :
  List.length (loaded_cookies arr) = DataOrganizer.count Spec.survives arr.
Proof.
  unfold loaded_cookies, Spec.survives, DataOrganizer.count.
  induction arr as [|c arr IH]; cbn [keep filter]; [reflexivity|].
  destruct (load_entry c); cbn [List.length]; rewrite IH; reflexivity.
Qed.

(** X8.  [loadCookies] succeeds exactly when at least one entry of the file
    survives the filtering and [setCookies] takes the strings: the entries
    that do not survive are skipped without a word, and [setCookies] gets
    one string for each that does; when none does, [setCookies] is not
    called and the result is false with a warning; when [setCookies] throws,
    the result is false with the error as a warning. *)
Theorem loadCookies_needs_one_survivor (arr : list CookieJSON) (set_error : option string) :
  List.length (setCookieStrings arr) = DataOrganizer.count Spec.survives arr
  /\ loadCookies (inr arr) set_error
     = if existsb Spec.survives arr
       then match set_error with
            | None => ([SetCookies (setCookieStrings arr)], true)
            | Some msg =>
                ([SetCookies (setCookieStrings arr);
                  LogWarn ("[loadCookies] => " ++ msg)], false)
            end
       else ([LogWarn "[loadCookies] => No valid cookies after parse => can't set them"],
             false).
Proof.
  split.
  - unfold setCookieStrings. rewrite length_map. apply loaded_length.
  - unfold loadCookies, setCookieStrings.
    destruct (existsb Spec.survives arr) eqn:E.
    + destruct (loaded_cookies arr) as [|k ks] eqn:L.
      * apply loaded_none_iff in L. congruence.
      * reflexivity.
    + apply loaded_none_iff in E. rewrite E. reflexivity.
Qed.

Lemma save_entry_again (now later : string) (c e : CookieJSON) :
  save_entry now c = Some e ->
  exists e', save_entry later e = Some e'
             /\ Spec.without_creation e' = Spec.without_creation e.
Proof.
  unfold save_entry, Cookie_fromJSON.
  destruct (key c) as [[|a k]|]; cbn [JS.truthy negb orb]; try discriminate.
  destruct (value c) as [[|b v]|]; cbn [JS.truthy negb orb]; try discriminate.
  intros H. injection H as <-.
  unfold Cookie_toJSON.
  cbn [key value domain path cookie_key cookie_value cookie_domain cookie_path
       cookie_secure cookie_httpOnly JS.truthy JS.or_default negb orb].
  eexists. split; [reflexivity|].
  destruct (domain c) as [[|? ?]|]; destruct (path c) as [[|? ?]|]; reflexivity.
Qed.

Lemma save_from_again (clock clock' : nat -> string) (l : list CookieJSON) :
  forall i j : nat,
    map Spec.without_creation (save_from clock' j (save_from clock i l))
    = map Spec.without_creation (save_from clock i l).
Proof.
  induction l as [|c l IH]; intros i j; cbn [save_from]; [reflexivity|].
  destruct (save_entry (clock i) c) as [e|] eqn:E; [|apply IH].
  cbn [save_from].
  destruct (save_entry_again (clock i) (clock' j) c e E) as (e' & -> & He).
  cbn [map]. rewrite He, IH. reflexivity.
Qed.

(** X9.  What [saveCookies] writes is stable but for the time of creation:
    encoding the written entries again, at any later time, gives the same
    entries with another [creation]; each entry has a key, a value, a domain
    and a path that are not empty, [secure] true, no [httpOnly] and a
    [creation]. *)
Theorem saved_cookies_stable (clock clock' : nat -> string) (agentCookies : list CookieJSON) :
  map Spec.without_creation (saved_cookies clock' (saved_cookies clock agentCookies))
  = map Spec.without_creation (saved_cookies clock agentCookies)
  /\ Forall (fun e => Props.present (key e) /\ Props.present (value e)
                      /\ Props.present (domain e) /\ Props.present (path e)
                      /\ secure e = Some true /\ httpOnly e = None
                      /\ exists now, creation e = Some now)
            (saved_cookies clock agentCookies).
Proof.
  split.
  - apply save_from_again.
  - unfold saved_cookies. generalize 0%nat.
    induction agentCookies as [|c cs IH]; intros i; cbn [save_from]; [constructor|].
    destruct (save_entry (clock i) c) as [e|] eqn:E; [|apply IH].
    constructor; [|apply IH].
    unfold save_entry, Cookie_fromJSON in E.
    destruct (key c) as [[|a k]|]; cbn [JS.truthy negb orb] in E; try discriminate.
    destruct (value c) as [[|b v]|]; cbn [JS.truthy negb orb] in E; try discriminate.
    injection E as <-. unfold Cookie_toJSON.
    cbn [key value domain path secure httpOnly creation cookie_key cookie_value
         cookie_domain cookie_path cookie_secure cookie_httpOnly JS.or_default].
    destruct (domain c) as [[|? ?]|]; destruct (path c) as [[|? ?]|];
      cbn [Props.present]; repeat split; eexists; reflexivity.
Qed.


End MoreCookieFacts.


(** A cookie whose value is two quotes is written by [saveCookies] and
    dropped by [loadCookies]. *)
Example two_quotes_are_dropped :
  let c := {| key := Some "k"; name := None; value := Some (Props.quoted "");
              domain := None; path := None; secure := None; httpOnly := None;
              creation := None |} in
  List.length (saved_cookies Sample.a_clock [c]) = 1%nat
  /\ loaded_cookies (saved_cookies Sample.a_clock [c]) = [].
Proof.
  split; reflexivity.
Qed.

(** The entries written at two times differ in their [creation] only. *)
Example creation_differs :
  let c := Sample.auth_cookie_in_jar in
  saved_cookies (fun _ => "2024-05-01T10:00:00.000Z") [c]
  <> saved_cookies (fun _ => "2024-05-02T10:00:00.000Z") [c]
  /\ map Spec.without_creation (saved_cookies (fun _ => "2024-05-01T10:00:00.000Z") [c])
     = map Spec.without_creation (saved_cookies (fun _ => "2024-05-02T10:00:00.000Z") [c]).
Proof.
  split; [discriminate|reflexivity].
Qed.

(** ** Logging in: success, cookies and waiting *)

Section MoreLoginFacts.

Variable w : World.



Lemma cookie_saves_app (a b : list Event) :
  DataOrganizer.count Props.is_cookie_save (a ++ b)
  = (DataOrganizer.count Props.is_cookie_save a
     + DataOrganizer.count Props.is_cookie_save b)%nat.
Proof.
  apply count_app.
Qed.

Lemma login_loop_cookie_saves (fuel : nat) :
  forall attempt : Z,
    DataOrganizer.count Props.is_cookie_save (fst (login_loop w fuel attempt))
    = if snd (login_loop w fuel attempt) then 1%nat else 0%nat.
Proof.
  induction fuel as [|fuel IH]; intros attempt; [reflexivity|].
  cbn [login_loop].
  destruct (attempt <=? maxRetries (config w)); [|reflexivity].
  destruct (login_error (login_outcome w attempt)) as [msg|].
  - destruct (attempt >=? maxRetries (config w)).
    + cbn [fst snd]. rewrite cookie_saves_app.
      destruct (login_outcome w attempt); reflexivity.
    + specialize (IH (attempt + 1)).
      destruct (login_loop w fuel (attempt + 1)) as [later ok].
      cbn [fst snd] in *. rewrite !cookie_saves_app.
      change (DataOrganizer.count Props.is_cookie_save
                (Timeout (retryDelay (config w) * attempt) :: later))
        with (DataOrganizer.count Props.is_cookie_save later).
      rewrite IH. destruct (login_outcome w attempt); destruct ok; reflexivity.
  - cbn [fst snd]. rewrite cookie_saves_app. unfold saveCookies.
    destruct (saved_cookies (cookie_clock w) (agent_cookies w));
      [|destruct (cookie_write_error w)];
      destruct (login_outcome w attempt); reflexivity.
Qed.

(** X12.  The cookies are taken from the scraper to be saved once, after a
    fresh login that was verified, and not at all when the saved session was
    valid or no attempt succeeded. *)
Theorem cookies_saved_after_fresh_login :
  DataOrganizer.count Props.is_cookie_save (fst (initializeScraper w))
  = if snd (initializeScraper w) && negb (snd (cookie_check w)) then 1%nat else 0%nat.
Proof.
  unfold initializeScraper.
  assert (Hc : DataOrganizer.count Props.is_cookie_save (fst (cookie_check w)) = 0%nat).
  { unfold cookie_check, loadCookies.
    destruct (cookie_file w) as [msg|arr]; [reflexivity|].
    destruct (setCookieStrings arr); [reflexivity|].
    destruct (set_cookies_error w); [reflexivity|].
    destruct (cookie_session w); reflexivity. }
  destruct (cookie_check w) as [evs [|]]; cbn [fst snd] in *; [exact Hc|].
  pose proof (login_loop_cookie_saves (login_fuel w) 1) as H.
  destruct (login_loop w (login_fuel w) 1) as [attempts ok].
  cbn [fst snd negb] in *. rewrite cookie_saves_app, Hc.
  change (DataOrganizer.count Props.is_cookie_save
            (LogWarn "No valid cookie session => logging in fresh..." :: attempts))
    with (DataOrganizer.count Props.is_cookie_save attempts).
  rewrite H. destruct ok; reflexivity.
Qed.




End MoreLoginFacts.


(** ** The configuration *)

Section ConfigFacts.

Lemma trimStart_space_app (ws s : string) :
  Props.all_space ws = true -> Text.trimStart (ws ++ s) = Text.trimStart s.
Proof.
  induction ws as [|c ws IH]; cbn [Props.all_space append]; intros H; [reflexivity|].
  apply andb_true_iff in H. destruct H as [Hc Hw].
  cbn [Text.trimStart]. rewrite Hc. apply IH, Hw.
Qed.

Lemma digits_of_numeral (d : Decimal.uint) (junk : string) :
  Props.no_leading_digit junk = true ->
  Text.digits (NilEmpty.string_of_uint d ++ junk) = d.
Proof.
  intros Hj. induction d; cbn [NilEmpty.string_of_uint append Text.digits];
    rewrite ?IHd; try reflexivity.
  unfold Props.no_leading_digit in Hj. destruct (Text.digits junk); congruence.
Qed.

(** A decimal numeral starts with a digit: not with white space, not with a
    sign. *)
Lemma numeral_head (d : Decimal.uint) (junk : string) :
  d <> Decimal.Nil ->
  exists c r,
    (NilEmpty.string_of_uint d ++ junk)%string = String c r
    /\ Text.is_space c = false
    /\ Ascii.eqb c Text.minus_sign = false
    /\ Ascii.eqb c Text.plus_sign = false.
Proof.
  intros Hd. destruct d; [contradiction| | | | | | | | | |];
    cbn [NilEmpty.string_of_uint append]; eexists; eexists;
    (split; [reflexivity|]); repeat split.
Qed.

Lemma parseInt10_numeral (d : Decimal.uint) (junk : string) :
  d <> Decimal.Nil ->
  Props.no_leading_digit junk = true ->
  Text.parseInt10 (NilEmpty.string_of_uint d ++ junk) = Text.rounded (Z.of_uint d)
  /\ Text.parseInt10 (String Text.minus_sign (NilEmpty.string_of_uint d ++ junk))
     = Text.rounded (- Z.of_uint d).
Proof.
  intros Hd Hj.
  destruct (numeral_head d junk Hd) as (c & r & E & Hs & Hm & Hp).
  pose proof (digits_of_numeral d junk Hj) as Hdig.
  unfold Text.parseInt10. split.
  - rewrite E in *. cbn [Text.trimStart]. rewrite Hs, Hm, Hp. cbn [orb].
    rewrite Hdig. destruct d; [contradiction|reflexivity..].
  - cbn [Text.trimStart].
    change (Text.is_space Text.minus_sign) with false. cbv iota.
    rewrite Ascii.eqb_refl. cbn [orb]. rewrite Hdig.
    destruct d; [contradiction|reflexivity..].
Qed.

Lemma show_Z_parses (n : Z) (junk : string) :
  Props.no_leading_digit junk = true ->
  Text.parseInt10 (JS.show_Z n ++ junk) = Text.rounded n
  /\ Text.trimStart (JS.show_Z n ++ junk) = (JS.show_Z n ++ junk)%string.
Proof.
  intros Hj. unfold JS.show_Z.
  destruct n as [|p|p]; cbn [Z.to_int NilZero.string_of_int].
  - split; [|reflexivity].
    apply (parseInt10_numeral (Decimal.D0 Decimal.Nil) junk); [discriminate|exact Hj].
  - pose proof (Unsigned.to_uint_nonnil p) as Hn.
    unfold NilZero.string_of_uint.
    destruct (parseInt10_numeral (Pos.to_uint p) junk Hn Hj) as [H _].
    destruct (numeral_head (Pos.to_uint p) junk Hn) as (c & r & E & Hs & _).
    assert (Hv : Z.of_uint (Pos.to_uint p) = Z.pos p).
    { unfold Z.of_uint. rewrite Unsigned.of_to. reflexivity. }
    destruct (Pos.to_uint p) eqn:Ep; [contradiction|..];
      (split; [rewrite H, Hv; reflexivity|rewrite E; cbn [Text.trimStart]; rewrite Hs; reflexivity]).
  - pose proof (Unsigned.to_uint_nonnil p) as Hn.
    unfold NilZero.string_of_uint.
    destruct (parseInt10_numeral (Pos.to_uint p) junk Hn Hj) as [_ H].
    assert (Hv : Z.of_uint (Pos.to_uint p) = Z.pos p).
    { unfold Z.of_uint. rewrite Unsigned.of_to. reflexivity. }
    destruct (Pos.to_uint p) eqn:Ep; [contradiction|..];
      (split; [cbn [append]; change (Ascii.Ascii true false true true false true false false)
                 with Text.minus_sign; rewrite H, Hv; reflexivity|reflexivity]).
Qed.

(** X15.  A variable of the environment that holds the decimal text of an
    integer [n], after any white space and before any text that does not
    start with a digit, is read as the number nearest to [n], a negative one
    included; only when that is 0 the fallback is taken instead.  The
    nearest number is [n] itself for the small integers, as for -1; it is
    2^53 for 2^53 + 1; and it is an infinity, for which the configuration
    has no value, for 10^400. *)
Theorem env_number_reads_decimal
  (env : Settings.Env) (name : string) (fallback n : Z) (ws junk : string) :
  Props.all_space ws = true ->
  Props.no_leading_digit junk = true ->
  env name = Some (ws ++ JS.show_Z n ++ junk)%string ->
  Settings.env_number env name fallback
  = match Text.rounded n with
    | Text.Integer m => Some (if m =? 0 then fallback else m)
    | Text.Infinite _ => None
    | Text.NotANumber => Some fallback
    end
  /\ Text.rounded (-1) = Text.Integer (-1)
  /\ Text.rounded 10000 = Text.Integer 10000
  /\ Text.rounded 9007199254740993 = Text.Integer 9007199254740992
  /\ Text.rounded (10 ^ 400) = Text.Infinite false.
Proof.
  intros Hw Hj He. split.
  - unfold Settings.env_number. rewrite He.
    destruct (show_Z_parses n junk Hj) as [Hp Ht].
    assert (E : Text.parseInt10 (ws ++ JS.show_Z n ++ junk) = Text.rounded n).
    { unfold Text.parseInt10 in *. rewrite trimStart_space_app by exact Hw. exact Hp. }
    rewrite E. reflexivity.
  - repeat split; vm_compute; reflexivity.
Qed.

(** X14.  No value of a configuration is ever 0, whatever the environment
    holds; with nothing set the configuration is 10000 posts, 5 retries, a
    retry delay of 3000 and pacing delays of 1000 to 3000. *)
Theorem config_never_zero (env : Settings.Env) (c : Config) :
  Settings.config_of env = Some c ->
  maxTweets c <> 0 /\ maxRetries c <> 0 /\ retryDelay c <> 0
  /\ minDelay c <> 0 /\ maxDelay c <> 0
  /\ Settings.config_of (fun _ => None)
     = Some {| maxTweets := 10000; maxRetries := 5; retryDelay := 3000;
               minDelay := 1000; maxDelay := 3000 |}.
Proof.
  assert (H : forall name d v, d <> 0 -> Settings.env_number env name d = Some v -> v <> 0).
  { intros name d v Hd. unfold Settings.env_number.
    destruct (env name) as [s|]; [|intros E; injection E as <-; exact Hd].
    destruct (Text.parseInt10 s) as [|neg|n]; try discriminate.
    - intros E; injection E as <-; exact Hd.
    - intros E; injection E as <-.
      destruct (n =? 0) eqn:E; [exact Hd|]. apply Z.eqb_neq, E. }
  unfold Settings.config_of.
  destruct (Settings.env_number env "MAX_TWEETS" 10000) as [a|] eqn:Ea; [|discriminate].
  destruct (Settings.env_number env "MAX_RETRIES" 5) as [b|] eqn:Eb; [|discriminate].
  destruct (Settings.env_number env "RETRY_DELAY" 3000) as [d|] eqn:Ed; [|discriminate].
  destruct (Settings.env_number env "MIN_DELAY" 1000) as [e|] eqn:Ee; [|discriminate].
  destruct (Settings.env_number env "MAX_DELAY" 3000) as [f|] eqn:Ef; [|discriminate].
  intros E. injection E as <-.
  cbn [maxTweets maxRetries retryDelay minDelay maxDelay].
  split; [eapply H; [|exact Ea]; discriminate|].
  split; [eapply H; [|exact Eb]; discriminate|].
  split; [eapply H; [|exact Ed]; discriminate|].
  split; [eapply H; [|exact Ee]; discriminate|].
  split; [eapply H; [|exact Ef]; discriminate|].
  reflexivity.
Qed.

End ConfigFacts.

Lemma env_number_reads_decimal_witness :
  let env := fun k => if String.eqb k "MAX_RETRIES" then Some "  -1 # off" else None in
  Props.all_space "  " = true
  /\ Props.no_leading_digit " # off" = true
  /\ Settings.env_number env "MAX_RETRIES" 5 = Some (-1)
  /\ option_map maxRetries (Settings.config_of env) = Some (-1).
Proof.
  cbv zeta. split; [reflexivity|]. split; [reflexivity|].
  split; [|vm_compute; reflexivity].
  destruct (env_number_reads_decimal
              (fun k => if String.eqb k "MAX_RETRIES" then Some "  -1 # off" else None)
              "MAX_RETRIES" 5 (-1) "  " " # off" eq_refl eq_refl eq_refl) as [H _].
  rewrite H. vm_compute. reflexivity.
Defined.

(** A configuration with zeros, signs and text in the environment. *)
Lemma config_never_zero_witness :
  let env := fun k =>
               if String.eqb k "MAX_TWEETS" then Some "0"
               else if String.eqb k "MAX_RETRIES" then Some "-3"
               else if String.eqb k "RETRY_DELAY" then Some "soon"
               else if String.eqb k "MIN_DELAY" then Some " 250ms"
               else None in
  exists c : Config,
    Settings.config_of env = Some c
    /\ c = {| maxTweets := 10000; maxRetries := -3; retryDelay := 3000;
              minDelay := 250; maxDelay := 3000 |}
    /\ maxTweets c <> 0 /\ maxRetries c <> 0.
Proof.
  cbv zeta. eexists. split; [vm_compute; reflexivity|]. split; [reflexivity|].
  match goal with
  | |- maxTweets ?c <> 0 /\ _ =>
      destruct (config_never_zero
                  (fun k =>
                     if String.eqb k "MAX_TWEETS" then Some "0"
                     else if String.eqb k "MAX_RETRIES" then Some "-3"
                     else if String.eqb k "RETRY_DELAY" then Some "soon"
                     else if String.eqb k "MIN_DELAY" then Some " 250ms"
                     else None) c) as (H1 & H2 & _)
  end.
  - vm_compute. reflexivity.
  - split; assumption.
Defined.

(** A numeral too long for a finite number. *)
Example huge_numeral_is_infinite :
  Settings.env_number (fun _ => Some (JS.show_Z (10 ^ 400))) "MAX_TWEETS" 10000 = None.
Proof.
  vm_compute. reflexivity.
Qed.

(** ** Collecting: size, order, growth and pacing *)

Section MoreCollectionFacts.

Lemma collect_loop_skip (wanted : Z) (raw : option Tweet) (rest : list (option Tweet))
      (ending : option string) (res : TweetMap) (cnt : Z) :
  raw_id raw = None ->
  collect_loop wanted (raw :: rest) ending res cnt
  = (Pull :: fst (collect_loop wanted rest ending res cnt),
     snd (collect_loop wanted rest ending res cnt)).
Proof.
  intros H. cbn [collect_loop]. rewrite H.
  destruct raw; destruct (collect_loop wanted rest ending res cnt); reflexivity.
Qed.

Lemma collect_loop_take (wanted : Z) (t : Tweet) (k : string)
      (rest : list (option Tweet)) (ending : option string) (res : TweetMap) (cnt : Z) :
  raw_id (Some t) = Some k ->
  collect_loop wanted (Some t :: rest) ending res cnt
  = let res' := if Map_has k res then res else Map_set k t res in
    let pause := if (cnt + 1) mod 100 =? 0 then [RandomDelay] else [] in
    if cnt + 1 >=? wanted
    then (Pull :: pause,
          {| results := res'; count := cnt + 1; unconsumed := rest; thrown := None |})
    else ((Pull :: pause ++ fst (collect_loop wanted rest ending res' (cnt + 1)))%list,
          snd (collect_loop wanted rest ending res' (cnt + 1))).
Proof.
  intros H. cbn [collect_loop]. rewrite H. cbv zeta.
  destruct (cnt + 1 >=? wanted); [reflexivity|].
  destruct (collect_loop wanted rest ending
              (if Map_has k res then res else Map_set k t res) (cnt + 1)).
  reflexivity.
Qed.

Lemma ids_consumed_bound (source : list (option Tweet)) :
  forall n : nat, (List.length (Spec.ids (Spec.consumed n source)) <= n)%nat.
Proof.
  unfold Spec.ids.
  induction source as [|raw rest IH]; intros n; [cbn; lia|].
  destruct n as [|n']; [cbn; lia|].
  cbn [Spec.consumed keep]. unfold Spec.has_id.
  destruct (raw_id raw).
  - cbn [List.length]. specialize (IH n'). lia.
  - apply IH.
Qed.

(** X16.  [collectMainTweets] returns at most [maxWanted] posts, and so at
    most the configured maximum, or one post when these are below 1. *)
Theorem collectMainTweets_bounded (w : World) (posts : list Tweet) :
  snd (collectMainTweets w) = inr posts ->
  Z.of_nat (List.length posts) <= Z.max 1 (maxWanted (config w) (profile w))
  /\ Z.max 1 (maxWanted (config w) (profile w)) <= Z.max 1 (maxTweets (config w)).
Proof.
  intros Hposts. split; [|unfold maxWanted; lia].
  unfold collectMainTweets in Hposts.
  destruct (collect_loop_spec (maxWanted (config w) (profile w)) (search w)
              (search_error w) [] 0
              (Z.to_nat (Z.max 1 (maxWanted (config w) (profile w)))))
    as (_ & _ & Hdup & Hin & _); [lia|].
  cbv zeta in *.
  destruct (collect_loop (maxWanted (config w) (profile w)) (search w) (search_error w) [] 0)
    as [pulls c].
  cbn [snd] in *. destruct (thrown c); [discriminate|]. injection Hposts as <-.
  unfold Map_values. rewrite length_map.
  rewrite <- (length_map fst).
  pose proof (ids_consumed_bound (search w)
                (Z.to_nat (Z.max 1 (maxWanted (config w) (profile w))))) as Hb.
  assert (Hle : (List.length (map fst (results c))
                 <= List.length
                      (Spec.ids
                         (Spec.consumed
                            (Z.to_nat (Z.max 1 (maxWanted (config w) (profile w))))
                            (search w))))%nat).
  { apply NoDup_incl_length; [apply Hdup; constructor|].
    intros k Hk. apply Hin in Hk. destruct Hk as [[]|Hk]. exact Hk. }
  lia.
Qed.




(** X18.  The collected set never shrinks and never changes what it holds:
    whatever the loop is entered with is still there when it is left, entry
    for entry and in place, with the new entries after it; and the counter
    does not go down. *)
Theorem collected_set_only_grows (wanted : Z) (source : list (option Tweet))
        (ending : option string) :
  forall (res : TweetMap) (cnt : Z),
    let c := snd (collect_loop wanted source ending res cnt) in
    (exists added, results c = (res ++ added)%list) /\ cnt <= count c.
Proof.
  induction source as [|raw rest IH]; intros res cnt; cbv zeta.
  - cbn. split; [exists []; rewrite app_nil_r; reflexivity|lia].
  - destruct (raw_id raw) as [k|] eqn:Hk.
    + destruct (raw_id_truthy raw k Hk) as (t & Hraw & Hid). subst raw.
      rewrite (collect_loop_take _ _ _ _ _ _ _ Hk). cbv zeta.
      assert (Hres : exists one, (if Map_has k res then res else Map_set k t res)
                                 = (res ++ one)%list).
      { destruct (Map_has k res) eqn:Hh.
        - exists []. rewrite app_nil_r. reflexivity.
        - exists [(k, t)]. apply Map_set_new, Hh. }
      destruct Hres as [one Hone]. rewrite Hone.
      destruct (cnt + 1 >=? wanted).
      * cbn [snd results count]. split; [exists one; reflexivity|lia].
      * cbn [snd]. destruct (IH (res ++ one)%list (cnt + 1)) as [[added Ha] Hc].
        split; [|lia]. exists (one ++ added)%list. rewrite Ha, app_assoc. reflexivity.
    + rewrite (collect_loop_skip _ _ _ _ _ _ Hk). cbn [snd]. apply IH.
Qed.

Lemma pause_step (cnt : Z) :
  0 <= cnt ->
  (cnt + 1) / 100 = cnt / 100 + (if (cnt + 1) mod 100 =? 0 then 1 else 0).
Proof.
  intros H. destruct ((cnt + 1) mod 100 =? 0) eqn:E;
    [apply Z.eqb_eq in E|apply Z.eqb_neq in E];
    Z.div_mod_to_equations; lia.
Qed.

Lemma collect_loop_pacing (wanted : Z) (source : list (option Tweet))
      (ending : option string) :
  forall (res : TweetMap) (cnt : Z) (n : nat),
    0 <= cnt ->
    Z.of_nat n = Z.max 1 (wanted - cnt) ->
    let evs := fst (collect_loop wanted source ending res cnt) in
    let c := snd (collect_loop wanted source ending res cnt) in
    Z.of_nat (DataOrganizer.count Props.is_pause evs) = count c / 100 - cnt / 100
    /\ DataOrganizer.count Props.is_pull evs = List.length (Spec.consumed n source).
Proof.
  induction source as [|raw rest IH]; intros res cnt n Hc Hn; cbv zeta.
  - cbn. split; [lia|reflexivity].
  - destruct n as [|n']; [lia|].
    cbn [Spec.consumed]. unfold Spec.has_id.
    destruct (raw_id raw) as [k|] eqn:Hk.
    + destruct (raw_id_truthy raw k Hk) as (t & Hraw & Hid). subst raw.
      rewrite (collect_loop_take _ _ _ _ _ _ _ Hk). cbv zeta.
      pose proof (pause_step cnt Hc) as Hp.
      destruct (cnt + 1 >=? wanted) eqn:G.
      * apply Z.geb_le in G. assert (n' = 0%nat) by lia. subst n'.
        rewrite consumed_none. cbn [fst snd count List.length].
        rewrite !count_cons. cbn [Props.is_pause Props.is_pull].
        destruct ((cnt + 1) mod 100 =? 0); cbn; split; lia.
      * assert (G' : cnt + 1 < wanted).
        { destruct (Z.geb_spec (cnt + 1) wanted); [discriminate|lia]. }
        cbn [fst snd List.length].
        destruct (IH (if Map_has k res then res else Map_set k t res) (cnt + 1) n')
          as [Hpa Hpu]; [lia|lia|].
        cbv zeta in Hpa, Hpu.
        rewrite !count_cons, !count_app. cbn [Props.is_pause Props.is_pull].
        rewrite Hpu.
        destruct ((cnt + 1) mod 100 =? 0); cbn [DataOrganizer.count filter
          Props.is_pause Props.is_pull List.length]; split; lia.
    + rewrite (collect_loop_skip _ _ _ _ _ _ Hk). cbn [fst snd List.length].
      destruct (IH res cnt (S n') Hc Hn) as [Hpa Hpu]. cbv zeta in Hpa, Hpu.
      rewrite !count_cons. cbn [Props.is_pause Props.is_pull].
      split; lia.
Qed.

(** X19.  The collection pauses once for every full hundred of counted
    items, and it takes from the iterator exactly the items it consumes, not
    one more. *)
Theorem collection_pacing (wanted : Z) (source : list (option Tweet))
        (ending : option string) :
  let evs := fst (collect_loop wanted source ending [] 0) in
  let c := snd (collect_loop wanted source ending [] 0) in
  Z.of_nat (DataOrganizer.count Props.is_pause evs) = count c / 100
  /\ DataOrganizer.count Props.is_pull evs
     = List.length (Spec.consumed (Z.to_nat (Z.max 1 wanted)) source).
Proof.
  cbv zeta.
  destruct (collect_loop_pacing wanted source ending [] 0 (Z.to_nat (Z.max 1 wanted)))
    as [Hpa Hpu]; [lia|lia|].
  cbv zeta in Hpa, Hpu. split; [|exact Hpu].
  rewrite Hpa, Zdiv_0_l, Z.sub_0_r. reflexivity.
Qed.

End MoreCollectionFacts.

(** Four items, one without an identifier and one that comes twice, in a
    world that wants 3200 posts: three posts come back. *)
Lemma collectMainTweets_bounded_witness :
  let w := Sample.a_world [Some (Sample.post "a" None); None;
                           Some (Sample.post "b" None); Some (Sample.post "a" (Some 1));
                           Some (Sample.reply "c" "a")] in
  exists posts : list Tweet,
    snd (collectMainTweets w) = inr posts
    /\ map id posts = [Some "a"; Some "b"; Some "c"]
    /\ Z.of_nat (List.length posts) <= Z.max 1 (maxWanted (config w) (profile w)).
Proof.
  cbv zeta. eexists. split; [vm_compute; reflexivity|]. split; [reflexivity|].
  apply (collectMainTweets_bounded
           (Sample.a_world [Some (Sample.post "a" None); None;
                            Some (Sample.post "b" None); Some (Sample.post "a" (Some 1));
                            Some (Sample.reply "c" "a")])).
  vm_compute. reflexivity.
Defined.

(** The search iterator throws after two items: no posts come back. *)
Example failing_search :
  snd (collectMainTweets
         (Sample.a_world_with_failing_search
            [Some (Sample.post "a" None); Some (Sample.post "b" None)]))
  = inl "Rate limit exceeded".
Proof.
  vm_compute. reflexivity.
Qed.

(** ** Parent resolution: success, what is touched, pacing *)

Section MoreParentFacts.

(** X20.  When the fetch of the parent of a reply [t] of the batch succeeds,
    [t] comes out with the text of the parent as [inReplyToText], and with
    the empty string when the scraper answers with no post or with a post
    without text; it is otherwise as it was. *)
Theorem fetched_parent_text_is_attached
  (w : World) (before after : list Tweet) (t : Tweet) (parentId : string)
  (parent : option Tweet) :
  inReplyToStatusId t = Some parentId ->
  parentId <> "" ->
  getTweet w (List.length (filter Spec.is_reply before)) parentId = Fetched parent ->
  exists t' : Tweet,
    nth_error (snd (fetchAllParentTweets w (before ++ t :: after))) (List.length before)
    = Some t'
    /\ inReplyToText t'
       = Some match parent with
              | Some p => match text p with
                          | Some s => s
                          | None => []
                          end
              | None => []
              end
    /\ Spec.same_but_parent_text t t'.
Proof.
  intros Hid Hne F. unfold fetchAllParentTweets.
  assert (R : is_reply_to t = true).
  { unfold is_reply_to. rewrite Hid. destruct parentId; [congruence|reflexivity]. }
  assert (P : parent_id t = parentId).
  { unfold parent_id. rewrite Hid. destruct parentId; [congruence|reflexivity]. }
  rewrite replies_truthy in F.
  rewrite parent_loop_app. cbn [snd].
  rewrite nth_error_app2; rewrite parent_loop_length; [|lia].
  rewrite Nat.sub_diag. cbn [parent_loop Nat.add]. rewrite R, P, F.
  destruct parent as [p|]; cbn [fetch_parent];
    destruct (parent_loop (getTweet w) (S (List.length (filter is_reply_to before))) after);
    cbn [snd nth_error]; eexists; (split; [reflexivity|]);
    (split; [|apply set_inReplyToText_same]).
  - cbn [inReplyToText]. unfold JS.text_or_empty.
    destruct (text p) as [[|u s]|]; reflexivity.
  - reflexivity.
Qed.

Lemma same_but_parent_text_without (p q : Tweet) :
  Spec.same_but_parent_text p q ->
  Props.without_parent_text q = Props.without_parent_text p.
Proof.
  unfold Spec.same_but_parent_text, Props.without_parent_text.
  intros (H1 & H2 & H3 & H4 & H5 & H6 & H7 & H8 & H9 & H10 & H11 & H12 & H13 & H14).
  rewrite H1, H2, H3, H4, H5, H6, H7, H8, H9, H10, H11, H12, H13, H14. reflexivity.
Qed.

Lemma resolved_same_but_text (batch out : list Tweet) :
  Forall2 Spec.resolved batch out ->
  map Props.without_parent_text out = map Props.without_parent_text batch
  /\ filter (fun t => negb (is_reply_to t)) out
     = filter (fun t => negb (is_reply_to t)) batch.
Proof.
  induction 1 as [|p q batch out Hpq H IH]; [split; reflexivity|].
  destruct IH as [IH1 IH2]. cbn [map filter]. unfold Spec.resolved in Hpq.
  change (Spec.is_reply p) with (is_reply_to p) in Hpq.
  destruct (is_reply_to p) eqn:R.
  - destruct Hpq as [_ Hsame].
    assert (Rq : is_reply_to q = true).
    { unfold is_reply_to in *. destruct Hsame as (_ & _ & _ & _ & _ & _ & _ & _ & _ & _ & _ & _ & _ & E).
      rewrite E. exact R. }
    rewrite Rq. cbn [negb]. split; [|exact IH2].
    rewrite IH1, (same_but_parent_text_without p q Hsame). reflexivity.
  - subst q. rewrite R. cbn [negb]. rewrite IH1, IH2. split; reflexivity.
Qed.

(** X21.  Parent resolution touches nothing but [inReplyToText]: the posts
    come out in the same number and order and with every other field as it
    was, and the posts that are not replies come out exactly as they went
    in. *)
Theorem parent_resolution_touches_only_the_text (w : World) (batch : list Tweet) :
  let out := snd (fetchAllParentTweets w batch) in
  map Props.without_parent_text out = map Props.without_parent_text batch
  /\ filter (fun t => negb (is_reply_to t)) out
     = filter (fun t => negb (is_reply_to t)) batch.
Proof.
  cbv zeta. apply resolved_same_but_text. unfold fetchAllParentTweets.
  apply parent_loop_all.
Qed.

Lemma fifty_step (i : nat) :
  (S i / 50 = i / 50 + (if S i mod 50 =? 0 then 1 else 0))%nat.
Proof.
  pose proof (Nat.div_mod_eq (S i) 50) as H1.
  pose proof (Nat.div_mod_eq i 50) as H0.
  pose proof (Nat.mod_upper_bound (S i) 50 ltac:(discriminate)) as B1.
  pose proof (Nat.mod_upper_bound i 50 ltac:(discriminate)) as B0.
  destruct (S i mod 50 =? 0)%nat eqn:E;
    [apply Nat.eqb_eq in E|apply Nat.eqb_neq in E];
    revert H1 H0 B1 B0 E;
    generalize (S i / 50)%nat (S i mod 50)%nat (i / 50)%nat (i mod 50)%nat;
    intros; lia.
Qed.

Lemma parent_loop_pauses (answers : nat -> string -> FetchResult) (posts : list Tweet) :
  forall i : nat,
    (DataOrganizer.count Props.is_pause (fst (parent_loop answers i posts)) + i / 50
     = (i + List.length (filter is_reply_to posts)) / 50)%nat.
Proof.
  induction posts as [|t posts IH]; intros i.
  - cbn. rewrite Nat.add_0_r. reflexivity.
  - cbn [parent_loop filter].
    destruct (is_reply_to t).
    + assert (Hf : DataOrganizer.count Props.is_pause
                     (fst (fetch_parent (answers i (parent_id t)) (parent_id t))) = 0%nat).
      { destruct (answers i (parent_id t)) as [[p|]|msg]; reflexivity. }
      destruct (fetch_parent (answers i (parent_id t)) (parent_id t)) as [fetch s].
      specialize (IH (S i)).
      destruct (parent_loop answers (S i) posts) as [later rest'].
      cbn [fst List.length] in *. rewrite !count_app, Hf.
      pose proof (fifty_step i) as Hs.
      replace (i + S (List.length (filter is_reply_to posts)))%nat
        with (S i + List.length (filter is_reply_to posts))%nat by lia.
      destruct (S i mod 50 =? 0)%nat; cbn [DataOrganizer.count filter Props.is_pause
        List.length]; lia.
    + specialize (IH i).
      destruct (parent_loop answers i posts) as [later rest']. exact IH.
Qed.

(** X22.  Parent resolution asks for one parent per reply, in the order of
    the batch, whatever the answers are, and pauses once for every full
    fifty of replies. *)
Theorem parent_resolution_pacing (w : World) (batch : list Tweet) :
  let evs := fst (fetchAllParentTweets w batch) in
  Spec.stages evs = Spec.parent_fetches batch
  /\ DataOrganizer.count Props.is_pause evs
     = (List.length (filter is_reply_to batch) / 50)%nat.
Proof.
  cbv zeta. unfold fetchAllParentTweets. split.
  - apply parent_loop_all.
  - pose proof (parent_loop_pauses (getTweet w) batch 0) as H.
    cbn [Nat.add] in H. change (0 / 50)%nat with 0%nat in H. lia.
Qed.

(** X23.  A batch without a reply causes no call on the scraper, no warning
    and no pause, and comes out as it went in.  (The line that tells how
    many parents are needed is printed all the same; it is an informational
    line, which the events do not record.) *)
Theorem no_replies_no_fetch (w : World) (batch : list Tweet) :
  filter is_reply_to batch = [] ->
  fetchAllParentTweets w batch = ([], batch).
Proof.
  unfold fetchAllParentTweets. generalize 0%nat.
  induction batch as [|t batch IH]; intros i H; [reflexivity|].
  cbn [filter] in H. cbn [parent_loop].
  destruct (is_reply_to t); [discriminate|].
  rewrite (IH i H). reflexivity.
Qed.

End MoreParentFacts.

(** A reply that comes with a parent text of an earlier run, in a world in
    which every fetch answers a post that says hello. *)
Lemma fetched_parent_text_is_attached_witness :
  let w :=
    {| config := Sample.a_config; has_credentials := true;
       cookie_file := inl "none"; set_cookies_error := None; cookie_session := No;
       login_outcome := fun _ => Verified; agent_cookies := [];
       cookie_clock := Sample.a_clock;
       cookie_write_error := None; profile := Profile None; search := [];
       search_error := None;
       getTweet := fun _ k => Fetched (Some (Sample.post k None));
       save_error := fun _ _ => None; finetune_write_error := None;
       logout_error := None |} in
  let t := set_inReplyToText (Sample.reply "3" "9") (JS.ustr "old") in
  exists t' : Tweet,
    nth_error (snd (fetchAllParentTweets w [Sample.post "a" None; t])) 1 = Some t'
    /\ inReplyToText t' = Some (JS.ustr "hello")
    /\ id t' = Some "3".
Proof.
  cbv zeta.
  destruct (fetched_parent_text_is_attached
              {| config := Sample.a_config; has_credentials := true;
                 cookie_file := inl "none"; set_cookies_error := None; cookie_session := No;
                 login_outcome := fun _ => Verified; agent_cookies := [];
                 cookie_clock := Sample.a_clock;
                 cookie_write_error := None; profile := Profile None; search := [];
                 search_error := None;
                 getTweet := fun _ k => Fetched (Some (Sample.post k None));
                 save_error := fun _ _ => None; finetune_write_error := None;
                 logout_error := None |}
              [Sample.post "a" None] []
              (set_inReplyToText (Sample.reply "3" "9") (JS.ustr "old")) "9"
              (Some (Sample.post "9" None)) eq_refl ltac:(discriminate) eq_refl)
    as (t' & Hn & Ht & Hs).
  exists t'. split; [exact Hn|]. split; [exact Ht|].
  destruct Hs as [Hid _]. exact Hid.
Defined.

Lemma no_replies_no_fetch_witness :
  filter is_reply_to [Sample.post "a" None; Sample.retweet "b" None] = []
  /\ fetchAllParentTweets (Sample.a_world [])
       [Sample.post "a" None; Sample.retweet "b" None]
     = ([], [Sample.post "a" None; Sample.retweet "b" None]).
Proof.
  split; [reflexivity|].
  apply (no_replies_no_fetch (Sample.a_world [])). reflexivity.
Defined.

(** ** The run: what each stage does, logging out, files *)

Section RunFacts.

Variable format_date : Z -> string.

Lemma session_kind (w : World) :
  forallb Props.session_event (fst (initializeScraper w)) = true.
Proof.
  unfold initializeScraper.
  assert (Hc : forallb Props.session_event (fst (cookie_check w)) = true).
  { unfold cookie_check, loadCookies.
    destruct (cookie_file w) as [msg|arr]; [reflexivity|].
    destruct (setCookieStrings arr); [reflexivity|].
    destruct (set_cookies_error w); [reflexivity|].
    destruct (cookie_session w); reflexivity. }
  destruct (cookie_check w) as [evs [|]]; cbn [fst] in *; [exact Hc|].
  assert (Hl : forall fuel attempt,
             forallb Props.session_event (fst (login_loop w fuel attempt)) = true).
  { induction fuel as [|fuel IH]; intros attempt; [reflexivity|].
    cbn [login_loop].
    destruct (attempt <=? maxRetries (config w)); [|reflexivity].
    destruct (login_error (login_outcome w attempt)).
    - destruct (attempt >=? maxRetries (config w)).
      + cbn [fst]. rewrite forallb_app.
        destruct (login_outcome w attempt); reflexivity.
      + specialize (IH (attempt + 1)).
        destruct (login_loop w fuel (attempt + 1)) as [later ok].
        cbn [fst] in *. rewrite !forallb_app. cbn [forallb Props.session_event].
        rewrite IH. destruct (login_outcome w attempt); reflexivity.
    - cbn [fst]. rewrite forallb_app. unfold saveCookies.
      destruct (saved_cookies (cookie_clock w) (agent_cookies w));
        [|destruct (cookie_write_error w)];
        destruct (login_outcome w attempt); reflexivity. }
  specialize (Hl (login_fuel w) 1).
  destruct (login_loop w (login_fuel w) 1) as [attempts ok].
  cbn [fst] in *. rewrite forallb_app, Hc. exact Hl.
Qed.

Lemma collection_kind (w : World) :
  forallb Props.collection_event (fst (collectMainTweets w)) = true.
Proof.
  unfold collectMainTweets.
  assert (Hl : forall source ending res cnt,
             forallb Props.collection_event
                     (fst (collect_loop (maxWanted (config w) (profile w)) source ending
                             res cnt))
             = true).
  { induction source as [|raw rest IH]; intros ending res cnt; [reflexivity|].
    destruct (raw_id raw) as [k|] eqn:Hk.
    - destruct (raw_id_truthy raw k Hk) as (t & Hraw & Hid). subst raw.
      rewrite (collect_loop_take _ _ _ _ _ _ _ Hk). cbv zeta.
      destruct (cnt + 1 >=? maxWanted (config w) (profile w)); cbn [fst forallb
        Props.collection_event andb]; rewrite ?forallb_app, ?IH;
        destruct ((cnt + 1) mod 100 =? 0); reflexivity.
    - rewrite (collect_loop_skip _ _ _ _ _ _ Hk). cbn [fst forallb Props.collection_event].
      apply IH. }
  specialize (Hl (search w) (search_error w) [] 0).
  destruct (collect_loop (maxWanted (config w) (profile w)) (search w) (search_error w) [] 0)
    as [pulls c].
  cbn [fst] in *. rewrite forallb_app, Hl.
  destruct (profile w); reflexivity.
Qed.

Lemma save_kind (write_error : nat -> option string) (posts : list Tweet) :
  forallb Props.save_event (fst (saveTweets format_date write_error posts)) = true.
Proof.
  unfold saveTweets, save_failed.
  destruct (write_error 0%nat); [reflexivity|].
  destruct (write_error 1%nat); [reflexivity|].
  assert (Hg : forallb Props.save_event (fst (generateAnalytics format_date posts)) = true).
  { destruct posts as [|t posts]; [reflexivity|].
    rewrite generateAnalytics_log.
    destruct (0 <? List.length (filter (fun t0 => negb (has_timestamp t0)) (t :: posts)))%nat;
      reflexivity. }
  destruct (generateAnalytics format_date posts) as [log [msg|analytics]].
  { cbn [fst] in *. rewrite ?forallb_app. cbn [forallb Props.save_event andb].
    rewrite Hg. reflexivity. }
  cbn [fst] in Hg.
  destruct (write_error 2%nat); [|destruct (write_error 3%nat)];
    cbn [fst]; rewrite ?forallb_app; cbn [forallb Props.save_event andb];
    rewrite ?forallb_app, Hg; reflexivity.
Qed.

Lemma fetch_kind (w : World) (batch : list Tweet) :
  forallb Props.fetch_event (fst (fetchAllParentTweets w batch)) = true.
Proof.
  unfold fetchAllParentTweets. generalize 0%nat.
  induction batch as [|t batch IH]; intros i; [reflexivity|].
  cbn [parent_loop].
  destruct (is_reply_to t).
  - assert (Hf : forallb Props.fetch_event
                   (fst (fetch_parent (getTweet w i (parent_id t)) (parent_id t))) = true).
    { destruct (getTweet w i (parent_id t)) as [[p|]|msg]; reflexivity. }
    destruct (fetch_parent (getTweet w i (parent_id t)) (parent_id t)) as [fetch s].
    specialize (IH (S i)).
    destruct (parent_loop (getTweet w) (S i) batch) as [later rest'].
    cbn [fst] in *. rewrite !forallb_app, Hf, IH.
    destruct (S i mod 50 =? 0)%nat; reflexivity.
  - specialize (IH i).
    destruct (parent_loop (getTweet w) i batch) as [later rest']. exact IH.
Qed.

(** X24.  Each stage keeps to its own calls: the session set-up only sets and
    checks cookies, logs in, waits and writes the cookie file; the collection
    only looks up the profile, pulls from the search and pauses; a save only
    writes files, aggregates and logs its error; parent resolution only
    fetches posts and pauses.  Each may log warnings; none logs out. *)
Theorem stages_keep_to_their_calls (w : World) (write_error : nat -> option string)
        (posts : list Tweet) :
  forallb Props.session_event (fst (initializeScraper w)) = true
  /\ forallb Props.collection_event (fst (collectMainTweets w)) = true
  /\ forallb Props.save_event (fst (saveTweets format_date write_error posts)) = true
  /\ forallb Props.fetch_event (fst (fetchAllParentTweets w posts)) = true.
Proof.
  split; [apply session_kind|].
  split; [apply collection_kind|].
  split; [apply save_kind|apply fetch_kind].
Qed.

Lemma count_none_of_kind (kind p : Event -> bool) (evs : list Event) :
  (forall e, kind e = true -> p e = false) ->
  forallb kind evs = true ->
  DataOrganizer.count p evs = 0%nat.
Proof.
  intros Hk. induction evs as [|e evs IH]; intros H; [reflexivity|].
  cbn [forallb] in H. apply andb_true_iff in H. destruct H as [He Hr].
  rewrite count_cons, (Hk e He), (IH Hr). reflexivity.
Qed.

Lemma no_files_of_kind (kind : Event -> bool) (evs : list Event) :
  (forall f, kind (WriteFile f) = false) ->
  forallb kind evs = true ->
  Props.files_written evs = [].
Proof.
  intros Hk. induction evs as [|e evs IH]; intros H; [reflexivity|].
  cbn [forallb] in H. apply andb_true_iff in H. destruct H as [He Hr].
  destruct e; cbn [Props.files_written]; try (apply IH, Hr).
  rewrite Hk in He. discriminate.
Qed.

Lemma logout_count_cleanup (w : World) :
  DataOrganizer.count Props.is_logout (cleanup w) = 1%nat.
Proof.
  unfold cleanup. destruct (logout_error w); reflexivity.
Qed.

Lemma saveFineTuneData_kind (w : World) (posts : list Tweet) :
  forallb Props.save_event (fst (saveFineTuneData format_date w posts)) = true.
Proof.
  unfold saveFineTuneData.
  pose proof (save_kind (save_error w 1%nat) posts) as H.
  destruct (saveTweets format_date (save_error w 1%nat) posts) as [saving [msg|a]];
    cbn [fst] in *; [exact H|].
  rewrite forallb_app, H. reflexivity.
Qed.

(** X25.  [run] logs out once when the search iterator throws and when at
    least one post was collected, whether the rest succeeds or throws; and
    not at all when it stops before that: for want of credentials, after a
    failed set-up of the session, or with no post collected. *)
Theorem run_logs_out_once_after_collecting (w : World) :
  DataOrganizer.count Props.is_logout (run format_date w)
  = if has_credentials w && snd (initializeScraper w)
       && match snd (collectMainTweets w) with
          | inl _ => true
          | inr [] => false
          | inr (_ :: _) => true
          end
    then 1%nat else 0%nat.
Proof.
  assert (Hs : forall e, Props.session_event e = true -> Props.is_logout e = false)
    by (intros e; destruct e; intros; try discriminate; reflexivity).
  assert (Hco : forall e, Props.collection_event e = true -> Props.is_logout e = false)
    by (intros e; destruct e; intros; try discriminate; reflexivity).
  assert (Hsa : forall e, Props.save_event e = true -> Props.is_logout e = false)
    by (intros e; destruct e; intros; try discriminate; reflexivity).
  assert (Hfe : forall e, Props.fetch_event e = true -> Props.is_logout e = false)
    by (intros e; destruct e; intros; try discriminate; reflexivity).
  unfold run.
  destruct (has_credentials w); cbn [negb andb]; [|reflexivity].
  pose proof (count_none_of_kind _ _ _ Hs (session_kind w)) as Hi.
  destruct (initializeScraper w) as [init [|]]; cbn [fst snd negb] in *.
  2:{ rewrite count_app, Hi. reflexivity. }
  pose proof (count_none_of_kind _ _ _ Hco (collection_kind w)) as Hc.
  destruct (collectMainTweets w) as [collecting [failure|mainTweets]]; cbn [fst snd] in *.
  { rewrite !count_app, Hi, Hc. unfold pipeline_failed.
    rewrite count_cons, logout_count_cleanup. reflexivity. }
  destruct mainTweets as [|t0 more].
  { rewrite !count_app, Hi, Hc. reflexivity. }
  pose proof (count_none_of_kind _ _ _ Hsa (save_kind (save_error w 0%nat) (t0 :: more)))
    as Hsv.
  destruct (saveTweets format_date (save_error w 0%nat) (t0 :: more))
    as [saving [msg|a]]; cbn [fst] in *.
  { rewrite !count_app, Hi, Hc, Hsv. unfold pipeline_failed.
    rewrite count_cons, logout_count_cleanup. reflexivity. }
  pose proof (count_none_of_kind _ _ _ Hfe (fetch_kind w (t0 :: more))) as Hf.
  destruct (fetchAllParentTweets w (t0 :: more)) as [fetching enriched].
  cbn [fst] in *.
  pose proof (count_none_of_kind _ _ _ Hsa (saveFineTuneData_kind w enriched)) as Hfin.
  destruct (saveFineTuneData format_date w enriched) as [final [msg|]];
    cbn [fst] in *; rewrite !count_app, Hi, Hc, Hsv, Hf, Hfin.
  - unfold pipeline_failed. rewrite count_cons, logout_count_cleanup. reflexivity.
  - rewrite count_cons, logout_count_cleanup. reflexivity.
Qed.

Lemma saveTweets_clean (write_error : nat -> option string) (posts : list Tweet)
      (r : Analytics) :
  (forall k, write_error k = None) ->
  report format_date posts = inr r ->
  saveTweets format_date write_error posts
  = (([WriteFile raw_tweets_file; WriteFile raw_urls_file; Aggregate posts]
        ++ fst (generateAnalytics format_date posts)
        ++ [WriteFile stats_file; WriteFile summary_file])%list,
     inr r).
Proof.
  intros H Hr. unfold saveTweets, report in *. rewrite !H.
  destruct (generateAnalytics format_date posts) as [log [msg|a]]; cbn [fst snd] in *;
    [discriminate|].
  injection Hr as ->. rewrite <- app_assoc. reflexivity.
Qed.

(** Parent resolution leaves the posts well formed. *)
Lemma resolved_well_formed (batch out : list Tweet) :
  Forall2 Spec.resolved batch out ->
  Forall Spec.well_formed batch -> Forall Spec.well_formed out.
Proof.
  induction 1 as [|p q batch out Hpq _ IH]; intros Hwf; [constructor|].
  inversion Hwf as [|? ? Hp Hrest]; subst.
  constructor; [|apply IH, Hrest].
  unfold Spec.resolved in Hpq. destruct (Spec.is_reply p); [|subst q; exact Hp].
  destruct Hpq as [_ (_ & _ & Ht & Hs & _)].
  unfold Spec.well_formed in *. rewrite Ht, Hs. exact Hp.
Qed.

(** X26.  A run with credentials, a session, at least one post collected,
    each with a text and with a timestamp that is null or a valid time
    value, and no failing write writes, after what the set-up of the session
    wrote, the raw posts, the links, the statistics and the summary, then,
    after parent resolution, the same four files again, and last the
    fine-tuning file. *)
Theorem complete_run_writes (w : World) (posts : list Tweet) :
  has_credentials w = true ->
  snd (initializeScraper w) = true ->
  snd (collectMainTweets w) = inr posts ->
  posts <> [] ->
  Forall Spec.well_formed posts ->
  (forall call k, save_error w call k = None) ->
  finetune_write_error w = None ->
  Props.files_written (run format_date w)
  = (Props.files_written (fst (initializeScraper w))
       ++ Props.save_order ++ Props.save_order ++ [finetune_file])%list.
Proof.
  intros Hcr Hin Hposts Hne Hwf Hsv Hft. unfold run. rewrite Hcr. cbn [negb].
  destruct (initializeScraper w) as [init ok]. cbn [fst snd] in *. subst ok.
  cbn [negb].
  pose proof (no_files_of_kind _ _ (fun f => eq_refl) (collection_kind w)) as Hc.
  destruct (collectMainTweets w) as [collecting outcome]; cbn [fst snd] in *.
  subst outcome.
  destruct posts as [|t0 more]; [contradiction|].
  destruct (report_exists format_date _ Hwf) as [r Hr].
  rewrite (saveTweets_clean _ _ r (Hsv 0%nat) Hr).
  pose proof (no_files_of_kind _ _ (fun f => eq_refl) (fetch_kind w (t0 :: more))) as Hf.
  pose proof (proj2 (parent_loop_all (getTweet w) (t0 :: more) 0%nat)) as Hres.
  fold (fetchAllParentTweets w (t0 :: more)) in Hres.
  destruct (fetchAllParentTweets w (t0 :: more)) as [fetching enriched].
  cbn [fst snd] in *.
  destruct (report_exists format_date _ (resolved_well_formed _ _ Hres Hwf)) as [r' Hr'].
  unfold saveFineTuneData. rewrite (saveTweets_clean _ _ r' (Hsv 1%nat) Hr'), Hft.
  rewrite !files_written_app, Hc, Hf.
  cbn [Props.files_written app].
  rewrite ?files_written_app, !generateAnalytics_writes_nothing.
  assert (Hcl : Props.files_written (cleanup w) = []).
  { unfold cleanup. destruct (logout_error w); reflexivity. }
  rewrite Hcl. cbn [Props.files_written app]. rewrite ?app_nil_r. reflexivity.
Qed.

End RunFacts.

Lemma complete_run_writes_witness :
  let w := Sample.a_world [Some (Sample.reply "2" "1")] in
  has_credentials w = true
  /\ snd (initializeScraper w) = true
  /\ snd (collectMainTweets w) = inr [Sample.reply "2" "1"]
  /\ Props.files_written (run Sample.plain_date w)
     = ["raw/tweets.json"; "raw/urls.txt"; "analytics/stats.json"; "exports/summary.md";
        "raw/tweets.json"; "raw/urls.txt"; "analytics/stats.json"; "exports/summary.md";
        "processed/finetuning.jsonl"].
Proof.
  cbv zeta. split; [reflexivity|]. split; [reflexivity|]. split; [reflexivity|].
  apply (complete_run_writes Sample.plain_date
           (Sample.a_world [Some (Sample.reply "2" "1")]) [Sample.reply "2" "1"]);
    try reflexivity; try discriminate.
  repeat constructor; [eexists; reflexivity|unfold Spec.valid_time; cbn; lia..].
Defined.

(** Three runs that do not get to the end: the search iterator throws, the
    one post collected has no timestamp, and the one post collected has no
    text.  Each logs the error and logs out; the first writes no file, the
    others the first two. *)
Example interrupted_runs :
  run Sample.plain_date (Sample.a_world_with_failing_search [Some (Sample.post "a" None)])
  = [SetCookies ["auth_token=abc; Domain=.twitter.com; Path=/; Secure; HttpOnly"];
     IsLoggedIn; GetProfile; Pull;
     LogError "âŒ Pipeline => Rate limit exceeded"; Logout]
  /\ Props.files_written
       (run Sample.plain_date (Sample.a_world [Some (Sample.unstamped_post "a")]))
     = ["raw/tweets.json"; "raw/urls.txt"]
  /\ In (LogError "âŒ Pipeline => Invalid time value")
        (run Sample.plain_date (Sample.a_world [Some (Sample.unstamped_post "a")]))
  /\ Props.files_written
       (run Sample.plain_date (Sample.a_world [Some (Sample.textless_post "a")]))
     = ["raw/tweets.json"; "raw/urls.txt"]
  /\ In (LogError "âŒ Pipeline => Cannot read properties of undefined (reading 'slice')")
        (run Sample.plain_date (Sample.a_world [Some (Sample.textless_post "a")])).
Proof.
  split; [vm_compute; reflexivity|].
  split; [vm_compute; reflexivity|].
  split; [vm_compute; tauto|].
  split; [vm_compute; reflexivity|].
  vm_compute. tauto.
Qed.

(** ** Trimming, the checkpoint token and the fine-tuning pairs *)

Section TextFacts.

Lemma trimStart_head (s : string) :
  match Text.trimStart s with
  | EmptyString => True
  | String c _ => Text.is_space c = false
  end.
Proof.
  induction s as [|c s IH]; cbn [Text.trimStart]; [exact I|].
  destruct (Text.is_space c) eqn:E; [exact IH|exact E].
Qed.

Lemma trimEnd_ends_clean (s : string) :
  match Text.trimEnd s with
  | EmptyString => True
  | String c r => Props.ends_clean (String c r) = true
  end.
Proof.
  induction s as [|c s IH]; cbn [Text.trimEnd]; [exact I|].
  destruct (Text.trimEnd s) as [|c' r'].
  - destruct (Text.is_space c) eqn:E; [exact I|]. cbn. rewrite E. reflexivity.
  - exact IH.
Qed.

Lemma trimEnd_keeps_head (c : ascii) (r : string) :
  Text.is_space c = false -> exists r', Text.trimEnd (String c r) = String c r'.
Proof.
  intros E. cbn [Text.trimEnd].
  destruct (Text.trimEnd r) as [|c' r']; [rewrite E|]; eexists; reflexivity.
Qed.

(** What [trim] gives is empty or clean. *)
Lemma trim_clean (s : string) :
  match Text.trim s with
  | EmptyString => True
  | String c r => Props.clean (String c r) = true
  end.
Proof.
  unfold Text.trim.
  pose proof (trimStart_head s) as Hh.
  destruct (Text.trimStart s) as [|c r]; [exact I|].
  destruct (trimEnd_keeps_head c r Hh) as [r' E].
  pose proof (trimEnd_ends_clean (String c r)) as He.
  rewrite E in *. unfold Props.clean. rewrite Hh, He. reflexivity.
Qed.

Lemma trimEnd_space_app (s ws : string) :
  Props.all_space ws = true -> Text.trimEnd (s ++ ws) = Text.trimEnd s.
Proof.
  intros Hw.
  assert (Hws : Text.trimEnd ws = EmptyString).
  { clear s. induction ws as [|c ws IH]; [reflexivity|].
    cbn [Props.all_space] in Hw. apply andb_true_iff in Hw. destruct Hw as [Hc Hr].
    cbn [Text.trimEnd]. rewrite (IH Hr), Hc. reflexivity. }
  induction s as [|c s IH]; cbn [append Text.trimEnd]; [exact Hws|].
  rewrite IH. reflexivity.
Qed.

Lemma trimEnd_of_clean_end (s : string) :
  Props.ends_clean s = true -> Text.trimEnd s = s.
Proof.
  induction s as [|c s IH]; intros H; [discriminate|].
  cbn [Text.trimEnd]. destruct s as [|c' s'].
  - cbn in H. cbn [Text.trimEnd]. apply negb_true_iff in H. rewrite H. reflexivity.
  - change (Props.ends_clean (String c (String c' s')))
      with (Props.ends_clean (String c' s')) in H.
    rewrite (IH H). reflexivity.
Qed.

Lemma trim_padded (ws1 tok ws2 : string) :
  Props.all_space ws1 = true ->
  Props.all_space ws2 = true ->
  Props.clean tok = true ->
  Text.trim (ws1 ++ tok ++ ws2) = tok.
Proof.
  intros H1 H2 Hc. unfold Text.trim. rewrite trimStart_space_app by exact H1.
  destruct tok as [|c r]; [discriminate|].
  unfold Props.clean in Hc. apply andb_true_iff in Hc. destruct Hc as [Hh He].
  apply negb_true_iff in Hh.
  cbn [append Text.trimStart]. rewrite Hh.
  change (String c (r ++ ws2)) with (String c r ++ ws2)%string.
  rewrite trimEnd_space_app by exact H2. apply trimEnd_of_clean_end, He.
Qed.

(** X27.  The checkpoint token that [getLastNextToken] returns is never
    empty and neither starts nor ends with white space: a token file that is
    empty or holds white space only reads as no token. *)
Theorem checkpoint_token_is_clean (file : string + string) (tok : string) :
  snd (Checkpoint.getLastNextToken file) = Some tok -> Props.clean tok = true.
Proof.
  unfold Checkpoint.getLastNextToken.
  destruct file as [msg|data]; [discriminate|].
  pose proof (trim_clean data) as H.
  destruct (Text.trim data) as [|c r]; [discriminate|].
  cbn [snd]. intros E. injection E as <-. exact H.
Qed.

(** X28.  A token that is not empty and has no white space at its ends, once
    saved, is read back as it is, also when the file has white space before
    or after it, such as a final line break. *)
Theorem checkpoint_round_trip (tok ws1 ws2 : string) :
  Props.clean tok = true ->
  Props.all_space ws1 = true ->
  Props.all_space ws2 = true ->
  snd (Checkpoint.saveNextToken tok None) = Some tok
  /\ Checkpoint.getLastNextToken (inr (ws1 ++ tok ++ ws2)%string) = ([], Some tok).
Proof.
  intros Hc H1 H2. split; [reflexivity|].
  unfold Checkpoint.getLastNextToken. rewrite (trim_padded _ _ _ H1 H2 Hc).
  destruct tok; [discriminate|reflexivity].
Qed.

Lemma trimStart_units_head (s : JS.ustring) :
  match Text.trimStart_units s with
  | [] => True
  | u :: _ => Text.is_white_space u = false
  end.
Proof.
  induction s as [|u s IH]; cbn [Text.trimStart_units]; [exact I|].
  destruct (Text.is_white_space u) eqn:E; [exact IH|exact E].
Qed.

Lemma trimEnd_units_end (s : JS.ustring) :
  match Text.trimEnd_units s with
  | [] => True
  | u :: r => Props.ends_trimmed (u :: r) = true
  end.
Proof.
  induction s as [|u s IH]; cbn [Text.trimEnd_units]; [exact I|].
  destruct (Text.trimEnd_units s) as [|u' r'].
  - destruct (Text.is_white_space u) eqn:E; [exact I|]. cbn. rewrite E. reflexivity.
  - exact IH.
Qed.

Lemma trimEnd_units_head (u : N) (r : JS.ustring) :
  Text.is_white_space u = false -> exists r', Text.trimEnd_units (u :: r) = u :: r'.
Proof.
  intros E. cbn [Text.trimEnd_units].
  destruct (Text.trimEnd_units r) as [|u' r']; [rewrite E|]; eexists; reflexivity.
Qed.

(** What [trim] gives of a text is empty or trimmed. *)
Lemma trim_units_trimmed (s : JS.ustring) :
  match Text.trim_units s with
  | [] => True
  | u :: r => Props.trimmed (u :: r) = true
  end.
Proof.
  unfold Text.trim_units.
  pose proof (trimStart_units_head s) as Hh.
  destruct (Text.trimStart_units s) as [|u r]; [exact I|].
  destruct (trimEnd_units_head u r Hh) as [r' E].
  pose proof (trimEnd_units_end (u :: r)) as He.
  rewrite E in *. unfold Props.trimmed. rewrite Hh, He. reflexivity.
Qed.

(** A text of white space only trims to the empty text. *)
Lemma trim_units_blank (s : JS.ustring) :
  Props.blank s = true -> Text.trim_units s = [].
Proof.
  unfold Text.trim_units.
  induction s as [|u s IH]; intros H; [reflexivity|].
  cbn [Props.blank] in H. apply andb_true_iff in H. destruct H as [Hu Hs].
  cbn [Text.trimStart_units]. rewrite Hu. apply IH, Hs.
Qed.

Lemma ftData_pair_clean (me : string) (posts : list Tweet) :
  Forall (fun p => Props.trimmed (FineTune.prompt p) = true
                   /\ Props.trimmed (FineTune.completion p) = true)
         (FineTune.ftData me posts).
Proof.
  induction posts as [|t posts IH]; cbn [FineTune.ftData]; [constructor|].
  destruct (FineTune.qualifies me t) eqn:Q; [|exact IH].
  constructor; [|exact IH].
  unfold FineTune.qualifies in Q.
  repeat (apply andb_true_iff in Q; destruct Q as [Q ?]).
  cbn [FineTune.prompt FineTune.completion].
  pose proof (trim_units_trimmed (JS.text_or_empty (inReplyToText t))) as Hp.
  pose proof (trim_units_trimmed (JS.text_or_empty (text t))) as Ht.
  destruct (Text.trim_units (JS.text_or_empty (inReplyToText t))); [discriminate|].
  destruct (Text.trim_units (JS.text_or_empty (text t))); [discriminate|].
  split; assumption.
Qed.

(** X29.  Every fine-tuning pair has a prompt and a completion that are not
    empty and have no white space at their ends, and comes from a reply: there
    are at most as many pairs as replies. *)
Theorem ftData_pairs (me : string) (posts : list Tweet) :
  Forall (fun p => Props.trimmed (FineTune.prompt p) = true
                   /\ Props.trimmed (FineTune.completion p) = true)
         (FineTune.ftData me posts)
  /\ (List.length (FineTune.ftData me posts)
      <= List.length (filter is_reply_to posts))%nat.
Proof.
  split; [apply ftData_pair_clean|].
  induction posts as [|t posts IH]; cbn [FineTune.ftData filter]; [reflexivity|].
  destruct (FineTune.qualifies me t) eqn:Q.
  - unfold FineTune.qualifies in Q.
    repeat (apply andb_true_iff in Q; destruct Q as [Q ?]).
    match goal with
    | E : JS.truthy (inReplyToStatusId t) = true |- _ =>
        change (is_reply_to t = true) in E; rewrite E
    end.
    cbn [List.length]. lia.
  - destruct (is_reply_to t); cbn [List.length]; lia.
Qed.

Lemma ftData_after_blank_answers (me : string) (answers : nat -> string -> FetchResult)
      (posts : list Tweet) :
  (forall i k, Props.blank_answer (answers i k) = true) ->
  forall i, FineTune.ftData me (snd (parent_loop answers i posts)) = [].
Proof.
  intros Hb. induction posts as [|t posts IH]; intros i; [reflexivity|].
  cbn [parent_loop].
  destruct (is_reply_to t) eqn:R.
  - specialize (Hb i (parent_id t)).
    assert (Hs : Text.trim_units
                   (snd (fetch_parent (answers i (parent_id t)) (parent_id t))) = []).
    { destruct (answers i (parent_id t)) as [[p|]|msg]; cbn [fetch_parent snd];
        [|reflexivity|reflexivity].
      cbn [Props.blank_answer] in Hb. unfold JS.text_or_empty.
      destruct (text p) as [[|u r]|]; [reflexivity| |reflexivity].
      apply trim_units_blank, Hb. }
    destruct (fetch_parent (answers i (parent_id t)) (parent_id t)) as [fetch s].
    specialize (IH (S i)).
    destruct (parent_loop answers (S i) posts) as [later rest'].
    cbn [snd] in *. cbn [FineTune.ftData].
    assert (Q : FineTune.qualifies me (set_inReplyToText t s) = false).
    { unfold FineTune.qualifies.
      cbn [username inReplyToStatusId inReplyToText text set_inReplyToText].
      destruct s as [|c r].
      - cbn [JS.text_truthy]. rewrite !andb_false_r. reflexivity.
      - cbn [JS.text_or_empty]. rewrite Hs. cbn [FineTune.not_empty].
        rewrite !andb_false_r. reflexivity. }
    rewrite Q. exact IH.
  - specialize (IH i).
    destruct (parent_loop answers i posts) as [later rest'].
    cbn [snd] in *. cbn [FineTune.ftData].
    assert (Q : FineTune.qualifies me t = false).
    { unfold FineTune.qualifies. unfold is_reply_to in R. rewrite R.
      rewrite !andb_false_r. reflexivity. }
    rewrite Q. exact IH.
Qed.

(** X30.  When no parent fetch brings a text that is not blank (it throws,
    finds no post, or finds one with no text or with an empty or blank one),
    the posts as parent resolution leaves them give no fine-tuning pair,
    whatever [inReplyToText] they held before. *)
Theorem no_parent_text_no_pairs (me : string) (w : World) (posts : list Tweet) :
  (forall i k, Props.blank_answer (getTweet w i k) = true) ->
  FineTune.ftData me (snd (fetchAllParentTweets w posts)) = [].
Proof.
  intros H. unfold fetchAllParentTweets. apply ftData_after_blank_answers, H.
Qed.

End TextFacts.

Lemma checkpoint_token_is_clean_witness :
  snd (Checkpoint.getLastNextToken (inr "  DAAC-cursor
")) = Some "DAAC-cursor"
  /\ Props.clean "DAAC-cursor" = true.
Proof.
  split; [reflexivity|].
  apply (checkpoint_token_is_clean (inr "  DAAC-cursor
") "DAAC-cursor"). reflexivity.
Defined.

Lemma checkpoint_round_trip_witness :
  Props.clean "DAAC cursor" = true
  /\ Checkpoint.getLastNextToken (inr (" " ++ "DAAC cursor" ++ "  ")%string)
     = ([], Some "DAAC cursor").
Proof.
  split; [reflexivity|].
  apply (checkpoint_round_trip "DAAC cursor" " " "  "); reflexivity.
Defined.

Lemma no_parent_text_no_pairs_witness :
  let posts :=
    [set_inReplyToText (Sample.reply "2" "1") (JS.ustr " an older parent text ")] in
  FineTune.ftData "Someone" posts
  = [{| FineTune.prompt := JS.ustr "an older parent text";
        FineTune.completion := JS.ustr "I agree" |}]
  /\ FineTune.ftData "someone" (snd (fetchAllParentTweets (Sample.a_world []) posts)) = [].
Proof.
  cbv zeta. split; [reflexivity|].
  apply (no_parent_text_no_pairs "someone" (Sample.a_world [])).
  intros i k. reflexivity.
Defined.
